(** * Identity linkage and token lifecycle of the Discord bot worker

    A shallow embedding of [worker/src/index.js] (the Cloudflare Worker
    that serves the EVE Online SSO endpoints) and the properties of its
    authorization, callback and refresh handlers.

    Layout:
    - [JS]      JavaScript strings, JSON values and the coercions the
                handlers rely on ([!x], [x || null], [x?.p], [x * 1000]);
    - [Clock]   [Date.prototype.toISOString];
    - [Base64]  [btoa] / [atob];
    - [Json]    [JSON.stringify] / [JSON.parse];
    - [D1]      the [authenticated_users] table and the four statements
                the handlers run against it;
    - [Worker]  the handlers themselves, in a state-and-exception monad
                over the store and the outside world;
    - [Calendar] and [Reminders]  [Date.prototype.setDate], the
                [reminders] table and the reminder routes;
    - the theorems. *)

From Stdlib Require Import String Ascii ZArith NArith List Bool Lia Permutation.
Import ListNotations.
Local Open Scope Z_scope.
#[local] Set Warnings "-register-all".

(* ===================================================================== *)
(** * JavaScript strings and values *)
(* ===================================================================== *)

Module JS.

(** A JavaScript string is a sequence of UTF-16 code units. *)
Definition jsstring := list N.

(** Source literals are ASCII. *)
Definition lit (s : string) : jsstring :=
  map N_of_ascii (list_ascii_of_string s).

Fixpoint str_eqb (a b : jsstring) : bool :=
  match a, b with
  | [], [] => true
  | x :: a', y :: b' => N.eqb x y && str_eqb a' b'
  | _, _ => false
  end.

(** [s.startsWith(p)] *)
Fixpoint startsWith (s p : jsstring) : bool :=
  match p, s with
  | [], _ => true
  | y :: p', x :: s' => N.eqb x y && startsWith s' p'
  | _ :: _, [] => false
  end.

(** [s.split(sep)] for a one-unit separator: the pieces between the
    separators, always at least one piece. *)
Fixpoint split_on (sep : N) (s : jsstring) : list jsstring :=
  match s with
  | [] => [[]]
  | c :: s' =>
      if N.eqb c sep then [] :: split_on sep s'
      else match split_on sep s' with
           | [] => [[c]]
           | p :: ps => (c :: p) :: ps
           end
  end.

(** The values the handlers see: everything [JSON.parse] and
    [Response.json()] can produce, plus [undefined]. Numbers are the
    integral doubles; non-integral numbers are outside the model. *)
Inductive jsval : Type :=
| JUndefined
| JNull
| JBool (b : bool)
| JNum (n : Z)
| JStr (s : jsstring)
| JArr (items : list jsval)
| JObj (props : list (jsstring * jsval)).

(** What can be thrown. [Error] carries [error.message]; the others are
    the engine's and the platform's own exceptions. *)
Inductive exn : Type :=
| Error (message : jsstring)
| TypeError
| RangeError
| SyntaxError
| InvalidCharacterError
| D1_TYPE_ERROR
| D1_CONSTRAINT.

Inductive res (A : Type) : Type :=
| Ok (a : A)
| Throw (e : exn).
Arguments Ok {A} a.
Arguments Throw {A} e.

(** ToBoolean *)
Definition truthy (v : jsval) : bool :=
  match v with
  | JUndefined | JNull => false
  | JBool b => b
  | JNum n => negb (n =? 0)
  | JStr s => match s with [] => false | _ => true end
  | JArr _ | JObj _ => true
  end.

Fixpoint assoc (k : jsstring) (props : list (jsstring * jsval)) : option jsval :=
  match props with
  | [] => None
  | (k', v) :: rest => if str_eqb k k' then Some v else assoc k rest
  end.

(** [o[k]] for a value that is not null or undefined: own data
    properties of objects; the property names the handlers read are on
    no prototype, so every other receiver gives [undefined]. *)
Definition prop (v : jsval) (k : jsstring) : jsval :=
  match v with
  | JObj props => match assoc k props with Some x => x | None => JUndefined end
  | _ => JUndefined
  end.

(** [v.k]: a TypeError on null and undefined. *)
Definition get (v : jsval) (k : jsstring) : res jsval :=
  match v with
  | JUndefined | JNull => Throw TypeError
  | _ => Ok (prop v k)
  end.

(** [v?.k] *)
Definition get_opt (v : jsval) (k : jsstring) : jsval :=
  match v with
  | JUndefined | JNull => JUndefined
  | _ => prop v k
  end.

(** [v || null] *)
Definition or_null (v : jsval) : jsval :=
  if truthy v then v else JNull.

(** Decimal digits, most significant first. *)
Fixpoint digits_fuel (fuel : nat) (n : Z) (acc : jsstring) : jsstring :=
  match fuel with
  | O => acc
  | S f =>
      let acc' := Z.to_N (48 + n mod 10) :: acc in
      if n <? 10 then acc' else digits_fuel f (n / 10) acc'
  end.

Definition digits (n : Z) : jsstring :=
  digits_fuel (S (Z.to_nat (Z.log2 n))) n [].

(** Number::toString for an integer. *)
Definition num_to_string (n : Z) : jsstring :=
  if n <? 0 then 45%N :: digits (- n) else digits n.

Definition is_digit (c : N) : bool := (48 <=? c)%N && (c <=? 57)%N.

(** Reads the longest prefix of digits, accumulating its value. *)
Fixpoint read_digits (s : jsstring) (acc : Z) : Z * jsstring :=
  match s with
  | c :: s' =>
      if is_digit c then read_digits s' (10 * acc + (Z.of_N c - 48))
      else (acc, s)
  | [] => (acc, [])
  end.

(** An optional minus sign and digits, nothing else: the strings that
    denote an integer. *)
Definition parse_int (s : jsstring) : option Z :=
  match s with
  | 45%N :: (c :: _) as ds =>
      if is_digit c then
        match read_digits ds 0 with (n, []) => Some (- n) | _ => None end
      else None
  | c :: _ =>
      if is_digit c then
        match read_digits s 0 with (n, []) => Some n | _ => None end
      else None
  | [] => None
  end.

(** ToNumber, as far as integers go: [None] is NaN (and the numeric
    strings that are not plain integers, which the model leaves out). *)
Definition to_number (v : jsval) : option Z :=
  match v with
  | JUndefined => None
  | JNull => Some 0
  | JBool b => Some (if b then 1 else 0)
  | JNum n => Some n
  | JStr [] => Some 0
  | JStr s => parse_int s
  | JArr [] => Some 0
  | JArr _ | JObj _ => None
  end.

End JS.
Export JS.

(* ===================================================================== *)
(** * Dates *)
(* ===================================================================== *)

Module Clock.

Definition msPerDay : Z := 86400000.

(** The largest time value of a Date, in milliseconds either side of the
    epoch. *)
Definition maxTime : Z := 8640000000000000.

(** Eras are 400 years long and start on 1 March; so do the years of an
    era, which puts the leap day last. The year of the era of day [doe]
    of the era: *)
Definition year_of_era (doe : Z) : Z :=
  (doe - doe / 1460 + doe / 36524 - doe / 146096) / 365.

(** The day of the era on which year [yoe] of the era starts. *)
Definition year_start (yoe : Z) : Z := 365 * yoe + yoe / 4 - yoe / 100.

(** Month (1 to 12) and day of the month of day [doy] of a year that
    starts on 1 March. *)
Definition month_day (doy : Z) : Z * Z :=
  let mp := (5 * doy + 2) / 153 in
  let d := doy - (153 * mp + 2) / 5 + 1 in
  let m := if mp <? 10 then mp + 3 else mp - 9 in
  (m, d).

(** Day [doe] of an era: the year within the era (January and February
    belong to the next calendar year), the month and the day. *)
Definition civil_of_era_day (doe : Z) : Z * Z * Z :=
  let yoe := year_of_era doe in
  let '(m, d) := month_day (doe - year_start yoe) in
  (yoe + (if m <=? 2 then 1 else 0), m, d).

Definition daysPerEra : Z := 146097.

(** Days since 1970-01-01 to the proleptic Gregorian (year, month, day). *)
Definition civil_from_days (days : Z) : Z * Z * Z :=
  let z := days + 719468 in
  let '(y, m, d) := civil_of_era_day (z mod daysPerEra) in
  (y + 400 * (z / daysPerEra), m, d).

Definition digit (n : Z) : N := Z.to_N (48 + n mod 10).

Definition pad2 (n : Z) : jsstring := [digit (n / 10); digit n].
Definition pad3 (n : Z) : jsstring := digit (n / 100) :: pad2 n.
Definition pad4 (n : Z) : jsstring := digit (n / 1000) :: pad3 n.
Definition pad6 (n : Z) : jsstring :=
  digit (n / 100000) :: digit (n / 10000) :: pad4 n.

(** Years 0 to 9999 are written with four digits, all others with a sign
    and six. *)
Definition year_string (y : Z) : jsstring :=
  if (0 <=? y) && (y <=? 9999) then pad4 y
  else if y <? 0 then 45%N :: pad6 (- y)
  else 43%N :: pad6 y.

(** The text of a valid time value: YYYY-MM-DDTHH:mm:ss.sssZ *)
Definition iso_string (t : Z) : jsstring :=
  let '(y, m, d) := civil_from_days (t / msPerDay) in
  let r := t mod msPerDay in
  year_string y ++ [45%N] ++ pad2 m ++ [45%N] ++ pad2 d ++ [84%N]
    ++ pad2 (r / 3600000) ++ [58%N] ++ pad2 (r / 60000 mod 60) ++ [58%N]
    ++ pad2 (r / 1000 mod 60) ++ [46%N] ++ pad3 (r mod 1000) ++ [90%N].

(** [new Date(t).toISOString()]: a RangeError outside the range of time
    values. *)
Definition toISOString (t : Z) : res jsstring :=
  if (- maxTime <=? t) && (t <=? maxTime) then Ok (iso_string t)
  else Throw RangeError.

(** [new Date(Date.now() + v * 1000).toISOString()] for a value [v] read
    from a response: NaN makes the date invalid. *)
Definition iso_after (now : Z) (v : jsval) : res jsstring :=
  match to_number v with
  | Some n => toISOString (now + n * 1000)
  | None => Throw RangeError
  end.

End Clock.
Export Clock.

(* ===================================================================== *)
(** * Base64: [btoa] and [atob] *)
(* ===================================================================== *)

Module Base64.

(** The character of a six-bit value. *)
Definition enc (i : N) : N :=
  (if i <? 26 then 65 + i
   else if i <? 52 then 97 + (i - 26)
   else if i <? 62 then 48 + (i - 52)
   else if i =? 62 then 43 else 47)%N.

(** The six-bit value of a character of the alphabet. *)
Definition dec (c : N) : option N :=
  (if (65 <=? c) && (c <=? 90) then Some (c - 65)
   else if (97 <=? c) && (c <=? 122) then Some (c - 97 + 26)
   else if (48 <=? c) && (c <=? 57) then Some (c - 48 + 52)
   else if c =? 43 then Some 62
   else if c =? 47 then Some 63
   else None)%N.

Fixpoint encode (bytes : list N) : jsstring :=
  (match bytes with
   | a :: b :: c :: rest =>
       enc (a / 4) :: enc (a mod 4 * 16 + b / 16)
         :: enc (b mod 16 * 4 + c / 64) :: enc (c mod 64) :: encode rest
   | [a; b] =>
       [enc (a / 4); enc (a mod 4 * 16 + b / 16); enc (b mod 16 * 4); 61]
   | [a] => [enc (a / 4); enc (a mod 4 * 16); 61; 61]
   | [] => []
   end)%N.

Definition latin1 (s : jsstring) : bool := forallb (fun c => (c <=? 255)%N) s.

(** [btoa(s)]: an InvalidCharacterError when a code unit is above 0xFF. *)
Definition btoa (s : jsstring) : res jsstring :=
  if latin1 s then Ok (encode s) else Throw InvalidCharacterError.

(** ASCII whitespace: tab, line feed, form feed, carriage return, space. *)
Definition is_space (c : N) : bool :=
  ((c =? 9) || (c =? 10) || (c =? 12) || (c =? 13) || (c =? 32))%N.

(** Removes one or two [=] that end the string. *)
Fixpoint strip_padding (s : jsstring) : jsstring :=
  match s with
  | [] => []
  | c :: s' =>
      if (c =? 61)%N then
        match s' with
        | [] => []
        | [d] => if (d =? 61)%N then [] else c :: strip_padding s'
        | _ => c :: strip_padding s'
        end
      else c :: strip_padding s'
  end.

Fixpoint sextets (s : jsstring) : option (list N) :=
  match s with
  | [] => Some []
  | c :: s' =>
      match dec c, sextets s' with
      | Some v, Some vs => Some (v :: vs)
      | _, _ => None
      end
  end.

(** Four sextets give three bytes; two or three left over give one or
    two bytes, the spare bits dropped; one left over is an error. *)
Fixpoint decode (v : list N) : option (list N) :=
  (match v with
   | a :: b :: c :: d :: rest =>
       match decode rest with
       | Some out =>
           Some (a * 4 + b / 16 :: b mod 16 * 16 + c / 4 :: c mod 4 * 64 + d :: out)
       | None => None
       end
   | [a; b; c] => Some [a * 4 + b / 16; b mod 16 * 16 + c / 4]
   | [a; b] => Some [a * 4 + b / 16]
   | [_] => None
   | [] => Some []
   end)%N.

(** [atob(s)], the forgiving-base64 decode: whitespace is removed,
    padding is removed when the length is a multiple of four, and
    anything outside the alphabet or a length of 1 modulo 4 is an
    InvalidCharacterError. *)
Definition atob (s : jsstring) : res jsstring :=
  let s1 := filter (fun c => negb (is_space c)) s in
  let s2 := if (Nat.modulo (length s1) 4 =? 0)%nat then strip_padding s1 else s1 in
  match sextets s2 with
  | Some v =>
      match decode v with
      | Some bytes => Ok bytes
      | None => Throw InvalidCharacterError
      end
  | None => Throw InvalidCharacterError
  end.

End Base64.
Export Base64.

(* ===================================================================== *)
(** * JSON text *)
(* ===================================================================== *)

Module JSON.

Definition hex_digit (n : N) : N := (if n <? 10 then 48 + n else 87 + n)%N.

(** The escape [\uXXXX], in lower-case hexadecimal. *)
Definition u_escape (c : N) : jsstring :=
  (92 :: 117 :: hex_digit (c / 4096) :: hex_digit (c / 256 mod 16)
     :: hex_digit (c / 16 mod 16) :: hex_digit (c mod 16) :: nil)%N.

Definition is_high (c : N) : bool := (55296 <=? c)%N && (c <=? 56319)%N.
Definition is_low (c : N) : bool := (56320 <=? c)%N && (c <=? 57343)%N.

(** One code unit that is not the first half of a surrogate pair. *)
Definition quote_unit (c : N) : jsstring :=
  (if c =? 8 then [92; 98]
   else if c =? 9 then [92; 116]
   else if c =? 10 then [92; 110]
   else if c =? 12 then [92; 102]
   else if c =? 13 then [92; 114]
   else if c =? 34 then [92; 34]
   else if c =? 92 then [92; 92]
   else if c <? 32 then u_escape c
   else if is_low c then u_escape c
   else [c])%N.

(** QuoteJSONString without the surrounding quotes: surrogate pairs are
    kept, lone surrogates are escaped. *)
Fixpoint quote_body (s : jsstring) : jsstring :=
  match s with
  | [] => []
  | c :: s' =>
      if is_high c then
        match s' with
        | d :: s'' =>
            if is_low d then c :: d :: quote_body s''
            else u_escape c ++ quote_body s'
        | [] => u_escape c
        end
      else quote_unit c ++ quote_body s'
  end.

Definition quote (s : jsstring) : jsstring := 34%N :: quote_body s ++ [34%N].

Fixpoint join (sep : jsstring) (parts : list jsstring) : jsstring :=
  match parts with
  | [] => []
  | [p] => p
  | p :: rest => p ++ sep ++ join sep rest
  end.

(** [JSON.stringify(v)]; [None] is the result [undefined]. An undefined
    property is left out of an object and written [null] in an array. *)
Fixpoint stringify (v : jsval) : option jsstring :=
  match v with
  | JUndefined => None
  | JNull => Some (lit "null")
  | JBool b => Some (if b then lit "true" else lit "false")
  | JNum n => Some (num_to_string n)
  | JStr s => Some (quote s)
  | JArr items =>
      Some (91%N :: join [44%N]
              (map (fun x => match stringify x with
                             | Some t => t
                             | None => lit "null"
                             end) items) ++ [93%N])
  | JObj props =>
      Some (123%N :: join [44%N]
              (flat_map (fun kv => match stringify (snd kv) with
                                   | Some t => [quote (fst kv) ++ 58%N :: t]
                                   | None => []
                                   end) props) ++ [125%N])
  end.

Definition is_ws (c : N) : bool :=
  ((c =? 9) || (c =? 10) || (c =? 13) || (c =? 32))%N.

Fixpoint skip_ws (s : jsstring) : jsstring :=
  match s with
  | c :: s' => if is_ws c then skip_ws s' else s
  | [] => []
  end.

Definition hexval (c : N) : option N :=
  (if (48 <=? c) && (c <=? 57) then Some (c - 48)
   else if (97 <=? c) && (c <=? 102) then Some (c - 87)
   else if (65 <=? c) && (c <=? 70) then Some (c - 55)
   else None)%N.

Definition hex4 (a b c d : N) : option N :=
  match hexval a, hexval b, hexval c, hexval d with
  | Some x, Some y, Some z, Some w => Some (x * 4096 + y * 256 + z * 16 + w)%N
  | _, _, _, _ => None
  end.

Definition simple_escape (c : N) : option N :=
  (if c =? 34 then Some 34
   else if c =? 92 then Some 92
   else if c =? 47 then Some 47
   else if c =? 98 then Some 8
   else if c =? 102 then Some 12
   else if c =? 110 then Some 10
   else if c =? 114 then Some 13
   else if c =? 116 then Some 9
   else None)%N.

Definition cons_fst {A} (c : N) (r : option (jsstring * A)) : option (jsstring * A) :=
  match r with
  | Some (s, rest) => Some (c :: s, rest)
  | None => None
  end.

(** The characters of a string literal after its opening quote, up to
    and including the closing quote. *)
Fixpoint parse_string_body (s : jsstring) : option (jsstring * jsstring) :=
  match s with
  | [] => None
  | c :: s' =>
      if (c =? 34)%N then Some ([], s')
      else if (c =? 92)%N then
        match s' with
        | [] => None
        | e :: s'' =>
            if (e =? 117)%N then
              match s'' with
              | h1 :: h2 :: h3 :: h4 :: s3 =>
                  match hex4 h1 h2 h3 h4 with
                  | Some u => cons_fst u (parse_string_body s3)
                  | None => None
                  end
              | _ => None
              end
            else
              match simple_escape e with
              | Some u => cons_fst u (parse_string_body s'')
              | None => None
              end
        end
      else if (c <? 32)%N then None
      else cons_fst c (parse_string_body s')
  end.

(** The integer part of a number literal: a single 0, or digits that do
    not start with 0. *)
Definition parse_unsigned (t : jsstring) : option (Z * jsstring) :=
  match t with
  | c :: t' =>
      if (c =? 48)%N then Some (0, t')
      else if is_digit c then Some (read_digits t 0)
      else None
  | [] => None
  end.

(** Only integers are in the model: a fraction or an exponent after the
    integer part is refused. *)
Definition integral (r : option (Z * jsstring)) : option (Z * jsstring) :=
  match r with
  | Some (n, c :: rest) =>
      if ((c =? 46) || (c =? 101) || (c =? 69))%N then None
      else Some (n, c :: rest)
  | _ => r
  end.

(** A number literal. *)
Definition parse_number (s : jsstring) : option (Z * jsstring) :=
  match s with
  | c :: s' =>
      if (c =? 45)%N then
        match integral (parse_unsigned s') with
        | Some (n, rest) => Some (- n, rest)
        | None => None
        end
      else integral (parse_unsigned s)
  | [] => None
  end.

(** Defining a property: an existing name keeps its place and takes the
    new value, a new name goes last. *)
Fixpoint set_prop (k : jsstring) (v : jsval) (props : list (jsstring * jsval))
  : list (jsstring * jsval) :=
  match props with
  | [] => [(k, v)]
  | (k', v') :: rest =>
      if str_eqb k k' then (k', v) :: rest else (k', v') :: set_prop k v rest
  end.

(** Recursive descent; the fuel bounds the number of nested calls. *)
Fixpoint parse_value (fuel : nat) (s : jsstring) : option (jsval * jsstring) :=
  match fuel with
  | O => None
  | S f =>
      match skip_ws s with
      | [] => None
      | c :: s' =>
          if (c =? 34)%N then
            match parse_string_body s' with
            | Some (str, rest) => Some (JStr str, rest)
            | None => None
            end
          else if (c =? 123)%N then
            match skip_ws s' with
            | d :: s'' =>
                if (d =? 125)%N then Some (JObj [], s'')
                else parse_members f (d :: s'') []
            | [] => None
            end
          else if (c =? 91)%N then
            match skip_ws s' with
            | d :: s'' =>
                if (d =? 93)%N then Some (JArr [], s'')
                else parse_elements f (d :: s'') []
            | [] => None
            end
          else if startsWith (c :: s') (lit "true") then
            Some (JBool true, skipn 4 (c :: s'))
          else if startsWith (c :: s') (lit "false") then
            Some (JBool false, skipn 5 (c :: s'))
          else if startsWith (c :: s') (lit "null") then
            Some (JNull, skipn 4 (c :: s'))
          else
            match parse_number (c :: s') with
            | Some (n, rest) => Some (JNum n, rest)
            | None => None
            end
      end
  end

with parse_members (fuel : nat) (s : jsstring) (acc : list (jsstring * jsval))
  : option (jsval * jsstring) :=
  match fuel with
  | O => None
  | S f =>
      match skip_ws s with
      | c :: s1 =>
          if (c =? 34)%N then
            match parse_string_body s1 with
            | Some (k, s2) =>
                match skip_ws s2 with
                | d :: s3 =>
                    if (d =? 58)%N then
                      match parse_value f s3 with
                      | Some (v, s4) =>
                          match skip_ws s4 with
                          | e :: s5 =>
                              if (e =? 44)%N then parse_members f s5 (set_prop k v acc)
                              else if (e =? 125)%N then Some (JObj (set_prop k v acc), s5)
                              else None
                          | [] => None
                          end
                      | None => None
                      end
                    else None
                | [] => None
                end
            | None => None
            end
          else None
      | [] => None
      end
  end

with parse_elements (fuel : nat) (s : jsstring) (acc : list jsval)
  : option (jsval * jsstring) :=
  match fuel with
  | O => None
  | S f =>
      match parse_value f s with
      | Some (v, s1) =>
          match skip_ws s1 with
          | e :: s2 =>
              if (e =? 44)%N then parse_elements f s2 (acc ++ [v])
              else if (e =? 93)%N then Some (JArr (acc ++ [v]), s2)
              else None
          | [] => None
          end
      | None => None
      end
  end.

(** [JSON.parse(text)]: one value, then only whitespace. *)
Definition parse (text : jsstring) : res jsval :=
  match parse_value (S (List.length text)) text with
  | Some (v, rest) =>
      match skip_ws rest with
      | [] => Ok v
      | _ => Throw SyntaxError
      end
  | None => Throw SyntaxError
  end.

End JSON.

(* ===================================================================== *)
(** * The store: table [authenticated_users] of the D1 database *)
(* ===================================================================== *)

Module D1.

(** A stored or bound SQL value (no REAL and no BLOB occurs). *)
Inductive sqlval : Type :=
| SNull
| SInt (n : Z)
| SText (s : jsstring).

(** What [bind] makes of a JavaScript argument; [undefined] and objects
    are refused with D1_TYPE_ERROR. *)
Definition bind_value (v : jsval) : res sqlval :=
  match v with
  | JNull => Ok SNull
  | JBool b => Ok (SInt (if b then 1 else 0))
  | JNum n => Ok (SInt n)
  | JStr s => Ok (SText s)
  | JUndefined | JArr _ | JObj _ => Throw D1_TYPE_ERROR
  end.

Fixpoint bind (args : list jsval) : res (list sqlval) :=
  match args with
  | [] => Ok []
  | v :: rest =>
      match bind_value v, bind rest with
      | Ok x, Ok xs => Ok (x :: xs)
      | Throw e, _ => Throw e
      | _, Throw e => Throw e
      end
  end.

(** A column value as the JavaScript value of a result row. *)
Definition js_of_sql (v : sqlval) : jsval :=
  match v with
  | SNull => JNull
  | SInt n => JNum n
  | SText s => JStr s
  end.

(** Column affinity: a TEXT column stores a number as its text, an
    INTEGER column stores the text of an integer as that integer. *)
Definition text_affinity (v : sqlval) : sqlval :=
  match v with
  | SInt n => SText (num_to_string n)
  | _ => v
  end.

Definition integer_affinity (v : sqlval) : sqlval :=
  match v with
  | SText s => match parse_int s with Some n => SInt n | None => v end
  | _ => v
  end.

(** One row, column by column as [CREATE TABLE authenticated_users]
    declares them. *)
Record Row : Type := {
  id : Z;
  discord_id : sqlval;
  discord_username : sqlval;
  eve_character_id : sqlval;
  eve_character_name : sqlval;
  eve_corporation_id : sqlval;
  eve_corporation_name : sqlval;
  eve_corporation_ticker : sqlval;
  eve_alliance_id : sqlval;
  eve_alliance_name : sqlval;
  eve_alliance_ticker : sqlval;
  access_token : sqlval;
  refresh_token : sqlval;
  token_expires_at : sqlval;
  last_updated : sqlval;
  created_at : sqlval
}.

(** The rows in rowid order, and the largest rowid ever handed out
    (AUTOINCREMENT never reuses one). *)
Record Table : Type := {
  rows : list Row;
  last_rowid : Z
}.

Definition is_null (v : sqlval) : bool :=
  match v with SNull => true | _ => false end.

(** Binary collation of TEXT: code unit by code unit. *)
Fixpoint text_compare (a b : jsstring) : comparison :=
  match a, b with
  | [], [] => Eq
  | [], _ :: _ => Lt
  | _ :: _, [] => Gt
  | x :: a', y :: b' =>
      match N.compare x y with
      | Eq => text_compare a' b'
      | c => c
      end
  end.

Definition text_leb (a b : jsstring) : bool :=
  match text_compare a b with Gt => false | _ => true end.

(** SQL [a = b]: never true of NULL. *)
Definition sql_eqb (a b : sqlval) : bool :=
  match a, b with
  | SInt x, SInt y => x =? y
  | SText x, SText y => str_eqb x y
  | _, _ => false
  end.

(** SQL [a <= b]: never true of NULL; numbers sort before text. *)
Definition sql_leb (a b : sqlval) : bool :=
  match a, b with
  | SInt x, SInt y => x <=? y
  | SInt _, SText _ => true
  | SText x, SText y => text_leb x y
  | _, _ => false
  end.

(** [WHERE discord_id = ?]: the TEXT column gives the parameter its
    affinity. *)
Definition matches (key : sqlval) (r : Row) : bool :=
  sql_eqb (discord_id r) (text_affinity key).

(** The place of a row in [idx_token_expires], the index of the schema
    on [token_expires_at]: before the first entry whose expiry is not
    below its own. *)
Fixpoint insert_by_expiry (r : Row) (l : list Row) : list Row :=
  match l with
  | [] => [r]
  | x :: l' =>
      if sql_leb (token_expires_at r) (token_expires_at x) then r :: l
      else x :: insert_by_expiry r l'
  end.

(** Rows in the order of the index: by [token_expires_at], rows of equal
    expiry in rowid order. *)
Definition order_by_expiry (l : list Row) : list Row :=
  fold_right insert_by_expiry [] l.

(** [SELECT * FROM authenticated_users WHERE token_expires_at <= ?]
    The statement has no ORDER BY: the rows that satisfy the condition
    come in the order in which the engine walks them, which for this
    condition is the order of [idx_token_expires]. *)
Definition select_expiring (bound : sqlval) (t : Table) : list Row :=
  order_by_expiry
    (filter (fun r => sql_leb (token_expires_at r) (text_affinity bound)) (rows t)).

(** [SELECT * FROM authenticated_users WHERE discord_id = ?] *)
Definition select_user (key : sqlval) (t : Table) : list Row :=
  filter (matches key) (rows t).

Fixpoint insert_sorted (r : Row) (l : list Row) : list Row :=
  match l with
  | [] => [r]
  | x :: l' =>
      if sql_leb (discord_username r) (discord_username x) then r :: l
      else x :: insert_sorted r l'
  end.

(** [SELECT ... FROM authenticated_users ORDER BY discord_username] *)
Definition select_all_ordered (t : Table) : list Row :=
  fold_right insert_sorted [] (rows t).

(** [DELETE FROM authenticated_users WHERE discord_id = ?] *)
Definition delete_user (key : sqlval) (t : Table) : Table :=
  {| rows := filter (fun r => negb (matches key r)) (rows t);
     last_rowid := last_rowid t |}.

(** The NOT NULL columns of a row about to be written. *)
Definition not_null_ok (r : Row) : bool :=
  negb (is_null (discord_id r) || is_null (discord_username r)
        || is_null (eve_character_id r) || is_null (eve_character_name r)
        || is_null (eve_corporation_id r) || is_null (eve_corporation_name r)
        || is_null (eve_corporation_ticker r)
        || is_null (access_token r) || is_null (refresh_token r)
        || is_null (token_expires_at r) || is_null (last_updated r)
        || is_null (created_at r)).

(** [[
    INSERT OR REPLACE INTO authenticated_users (
      discord_id, discord_username, eve_character_id, eve_character_name,
      eve_corporation_id, eve_corporation_name, eve_corporation_ticker,
      eve_alliance_id, eve_alliance_name, eve_alliance_ticker,
      access_token, refresh_token, token_expires_at, last_updated, created_at
    ) VALUES (?, ?, ?, ?, ?, ?, ?, ?, ?, ?, ?, ?, ?, ?, COALESCE(
      (SELECT created_at FROM authenticated_users WHERE discord_id = ?), ?
    ))
    ]]
    The sixteen parameters in order. A NULL in a NOT NULL column aborts
    the statement; the row that holds the same [discord_id] (UNIQUE) is
    deleted and the new row takes a fresh rowid. *)
Definition insert_or_replace (params : list sqlval) (t : Table) : res Table :=
  match params with
  | [p1; p2; p3; p4; p5; p6; p7; p8; p9; p10; p11; p12; p13; p14; p15; p16] =>
      let kept :=
        match select_user p15 t with
        | old :: _ => if is_null (created_at old) then p16 else created_at old
        | [] => p16
        end in
      let r := {| id := last_rowid t + 1;
                  discord_id := text_affinity p1;
                  discord_username := text_affinity p2;
                  eve_character_id := integer_affinity p3;
                  eve_character_name := text_affinity p4;
                  eve_corporation_id := integer_affinity p5;
                  eve_corporation_name := text_affinity p6;
                  eve_corporation_ticker := text_affinity p7;
                  eve_alliance_id := integer_affinity p8;
                  eve_alliance_name := text_affinity p9;
                  eve_alliance_ticker := text_affinity p10;
                  access_token := text_affinity p11;
                  refresh_token := text_affinity p12;
                  token_expires_at := text_affinity p13;
                  last_updated := text_affinity p14;
                  created_at := text_affinity kept |} in
      if not_null_ok r then
        Ok {| rows := filter (fun x => negb (sql_eqb (discord_id x) (discord_id r)))
                        (rows t) ++ [r];
              last_rowid := last_rowid t + 1 |}
      else Throw D1_CONSTRAINT
  | _ => Throw D1_TYPE_ERROR
  end.

(** The assignments of the UPDATE below, applied to one row. *)
Definition assign (p1 p2 p3 p4 p5 p6 p7 p8 p9 p10 : sqlval) (r : Row) : Row :=
  {| id := id r;
     discord_id := discord_id r;
     discord_username := discord_username r;
     eve_character_id := eve_character_id r;
     eve_character_name := eve_character_name r;
     eve_corporation_id := integer_affinity p1;
     eve_corporation_name := text_affinity p2;
     eve_corporation_ticker := text_affinity p3;
     eve_alliance_id := integer_affinity p4;
     eve_alliance_name := text_affinity p5;
     eve_alliance_ticker := text_affinity p6;
     access_token := text_affinity p7;
     refresh_token := text_affinity p8;
     token_expires_at := text_affinity p9;
     last_updated := text_affinity p10;
     created_at := created_at r |}.

(** [[
    UPDATE authenticated_users SET
      eve_corporation_id = ?, eve_corporation_name = ?,
      eve_corporation_ticker = ?, eve_alliance_id = ?,
      eve_alliance_name = ?, eve_alliance_ticker = ?,
      access_token = ?, refresh_token = ?, token_expires_at = ?,
      last_updated = ?
    WHERE discord_id = ?
    ]]
    The eleven parameters in order. A NULL for a NOT NULL column aborts
    the statement when a row is to be changed; nothing is written then. *)
Definition update_user (params : list sqlval) (t : Table) : res Table :=
  match params with
  | [p1; p2; p3; p4; p5; p6; p7; p8; p9; p10; p11] =>
      let null_given :=
        is_null p1 || is_null p2 || is_null p3 || is_null p7 || is_null p8
        || is_null p9 || is_null p10 in
      if null_given && existsb (matches p11) (rows t) then Throw D1_CONSTRAINT
      else
        Ok {| rows := map (fun r => if matches p11 r
                                    then assign p1 p2 p3 p4 p5 p6 p7 p8 p9 p10 r
                                    else r) (rows t);
              last_rowid := last_rowid t |}
  | _ => Throw D1_TYPE_ERROR
  end.

End D1.
Export D1.

(* ===================================================================== *)
(** * The worker *)
(* ===================================================================== *)

(** The calls the handlers make to the identity provider and to ESI.
    Each stands for [await fetch(url, init)] followed by
    [await response.json()]. *)
Inductive Request : Type :=
| TokenByCode (authorization : jsstring) (code : jsstring)
    (** POST EVE_TOKEN_URL, grant_type=authorization_code *)
| TokenByRefresh (authorization : jsstring) (refresh_token : jsval)
    (** POST EVE_TOKEN_URL, grant_type=refresh_token *)
| Verify (access_token : jsval)
    (** GET EVE_VERIFY_URL with the bearer token *)
| Character (character_id : jsval)
    (** GET EVE_ESI_BASE/characters/{id}/ *)
| Corporation (corporation_id : jsval)
    (** GET EVE_ESI_BASE/corporations/{id}/ *)
| Alliance (alliance_id : jsval).
    (** GET EVE_ESI_BASE/alliances/{id}/ *)

Definition valid_time (t : Z) : bool := (- maxTime <=? t) && (t <=? maxTime).

(** The world outside the worker: the network and the clock. A call may
    answer with a JSON value or throw (the network failed, or the body
    was not JSON), and moves the world on. [Date.now()] is a valid time
    value. *)
Class Platform : Type := {
  World : Type;
  fetch_json : Request -> World -> res jsval * World;
  date_now : World -> Z * World;
  date_now_valid : forall w, valid_time (fst (date_now w)) = true
}.

(** [env]: the secret and the variables of wrangler.toml. *)
Record Env : Type := {
  API_KEY : option jsstring;
  EVE_CLIENT_ID : jsstring;
  EVE_CLIENT_SECRET : jsstring;
  EVE_CALLBACK_URL : jsstring
}.

(** An incoming request: its method, its [X-API-Key] header if any, the
    path and the query of its URL, and what [request.json()] gives. *)
Record HttpRequest : Type := {
  method : jsstring;
  x_api_key : option jsstring;
  pathname : jsstring;
  searchParams : list (jsstring * jsstring);
  json : res jsval
}.

(** A URL with its query kept as the entries of its URLSearchParams. *)
Record Url : Type := {
  base : jsstring;
  query : list (jsstring * jsstring)
}.

(** An element of the [refreshed] array. *)
Record Refreshed : Type := {
  refreshed_discord_id : jsval;
  character_name : jsval;
  corporation : jsval;
  alliance : jsval
}.

(** An element of the [failed] array. *)
Record Failed : Type := {
  failed_discord_id : jsval;
  error : exn
}.

(** Response bodies, by what they are made of. *)
Inductive Body : Type :=
| NoBody
| PlainText (text : jsstring)
| AuthenticationError (e : exn)
    (** `Authentication error: ${error.message}` *)
| SuccessPage (character_name : jsval) (alliance_ticker : option jsval)
    (corporation_ticker : jsval)
    (** the HTML page of a completed link *)
| JsonError (message : jsstring)       (** {error: message} *)
| JsonException (e : exn)              (** {error: error.message} *)
| JsonMessage (message : jsstring)     (** {message: message} *)
| JsonAuthUrl (auth_url : Url)         (** {auth_url} *)
| JsonUser (user : option Row)         (** {authenticated, user} *)
| JsonUsers (users : list Row)         (** {users} *)
| JsonRefresh (refreshed : list Refreshed) (failed : list Failed)
                                       (** {refreshed, failed} *)
| JsonOther (v : jsval).

Record Response : Type := {
  status : Z;
  headers : list (jsstring * jsstring);
  body : Body
}.

(** The prepared statements on [authenticated_users]. *)
Inductive Statement : Type :=
| SelectExpiring
| SelectUser
| SelectAllUsers
| InsertOrReplaceUser
| UpdateUser
| DeleteUser.

(** What a run does to the outside, newest first. *)
Inductive Event : Type :=
| Fetched (request : Request) (answer : res jsval)
| Now (t : Z)
| Queried (statement : Statement).

Section Worker.

Context {P : Platform}.

Record State : Type := {
  world : World;
  users : Table;
  trace : list Event
}.

(** Handlers run in a state monad with exceptions. *)
Definition M (A : Type) : Type := State -> res A * State.

Definition ret {A} (a : A) : M A := fun st => (Ok a, st).

Definition throw {A} (e : exn) : M A := fun st => (Throw e, st).

Definition bind_M {A B} (m : M A) (k : A -> M B) : M B :=
  fun st =>
    match m st with
    | (Ok a, st') => k a st'
    | (Throw e, st') => (Throw e, st')
    end.

(** [try { body } catch (error) { handler }]: what [body] did before it
    threw stays done. *)
Definition try_catch {A} (body : M A) (handler : exn -> M A) : M A :=
  fun st =>
    match body st with
    | (Ok a, st') => (Ok a, st')
    | (Throw e, st') => handler e st'
    end.

Definition lift {A} (r : res A) : M A := fun st => (r, st).

Definition log (e : Event) (st : State) : State :=
  {| world := world st; users := users st; trace := e :: trace st |}.

(** [await fetch(...)] and [await response.json()] *)
Definition fetch_call (r : Request) : M jsval :=
  fun st =>
    let (answer, w) := fetch_json r (world st) in
    (answer, {| world := w; users := users st; trace := Fetched r answer :: trace st |}).

(** [Date.now()] *)
Definition Date_now : M Z :=
  fun st =>
    let (t, w) := date_now (world st) in
    (Ok t, {| world := w; users := users st; trace := Now t :: trace st |}).

(** [await env.DB.prepare(sql).bind(...args).all()] of a SELECT *)
Definition db_all (name : Statement) (args : list jsval)
    (q : list sqlval -> Table -> list Row) : M (list Row) :=
  fun st =>
    match bind args with
    | Throw e => (Throw e, st)
    | Ok params => (Ok (q params (users st)), log (Queried name) st)
    end.

(** [await env.DB.prepare(sql).bind(...args).run()] of a statement that
    writes: either the whole statement takes effect or none of it. *)
Definition db_run (name : Statement) (args : list jsval)
    (q : list sqlval -> Table -> res Table) : M unit :=
  fun st =>
    match bind args with
    | Throw e => (Throw e, st)
    | Ok params =>
        match q params (users st) with
        | Ok t => (Ok tt, {| world := world st; users := t;
                             trace := Queried name :: trace st |})
        | Throw e => (Throw e, log (Queried name) st)
        end
    end.

Notation "x <- m ;; k" := (bind_M m (fun x => k))
  (at level 61, m at next level, right associativity).

(** The reminder routes and [/init] work on another table and are not
    part of the identity subsystem; the router is modelled for whatever
    they do. *)
Class ReminderRoutes : Type := {
  createReminder : HttpRequest -> Env -> M Response;
  getDueReminders : Env -> M Response;
  getUserReminders : jsval -> Env -> M Response;
  getGuildReminders : jsval -> Env -> M Response;
  deleteReminder : jsval -> Env -> M Response;
  cleanupOldReminders : Env -> M Response;
  initDatabase : Env -> M Response
}.

Context {R : ReminderRoutes}.

Definition Headers : Type := list (jsstring * jsstring).

Definition json_headers (corsHeaders : Headers) : Headers :=
  corsHeaders ++ [(lit "Content-Type", lit "application/json")].

Definition EVE_SSO_URL : jsstring :=
  lit "https://login.eveonline.com/v2/oauth/authorize".

(** [url.searchParams.get(name)] *)
Fixpoint searchParams_get (q : list (jsstring * jsstring)) (name : jsstring)
  : option jsstring :=
  match q with
  | [] => None
  | (k, v) :: rest => if str_eqb k name then Some v else searchParams_get rest name
  end.

(** [!s] for a string or null *)
Definition absent (s : option jsstring) : bool :=
  match s with
  | Some (_ :: _) => false
  | _ => true
  end.

Definition text_or_empty (s : option jsstring) : jsstring :=
  match s with Some t => t | None => [] end.

(** A string argument that may be [undefined]. *)
Definition text_of (s : option jsstring) : jsstring :=
  match s with Some t => t | None => lit "undefined" end.

(** [path.split('/')[i]] *)
Definition segment (path : jsstring) (i : nat) : jsval :=
  match nth_error (split_on 47%N path) i with
  | Some p => JStr p
  | None => JUndefined
  end.

(** [new Date().toISOString()] *)
Definition new_Date_toISOString : M jsstring :=
  t <- Date_now ;; lift (toISOString t).

(** [`Basic ${btoa(`${env.EVE_CLIENT_ID}:${env.EVE_CLIENT_SECRET}`)}`] *)
Definition basic_authorization (env : Env) : M jsstring :=
  lift (btoa (EVE_CLIENT_ID env ++ 58%N :: EVE_CLIENT_SECRET env)).

(** ** Create Eve SSO authorization URL *)
Definition createAuthURL (request : HttpRequest) (env : Env) (corsHeaders : Headers)
  : M Response :=
  data <- lift (json request) ;;
  discord_id <- lift (get data (lit "discord_id")) ;;
  discord_username <- lift (get data (lit "discord_username")) ;;
  if negb (truthy discord_id) || negb (truthy discord_username) then
    ret {| status := 400; headers := json_headers corsHeaders;
           body := JsonError (lit "Missing discord_id or discord_username") |}
  else
    timestamp <- Date_now ;;
    state <- lift (btoa (text_of (JSON.stringify
               (JObj [(lit "discord_id", discord_id);
                      (lit "discord_username", discord_username);
                      (lit "timestamp", JNum timestamp)])))) ;;
    let params :=
      [(lit "response_type", lit "code");
       (lit "redirect_uri", EVE_CALLBACK_URL env);
       (lit "client_id", EVE_CLIENT_ID env);
       (lit "scope", lit "publicData");
       (lit "state", state)] in
    ret {| status := 200; headers := json_headers corsHeaders;
           body := JsonAuthUrl {| base := EVE_SSO_URL; query := params |} |}.

(** [let allianceData = null; if (corpData.alliance_id) { ... }] *)
Definition fetch_alliance (corpData : jsval) : M jsval :=
  alliance_id <- lift (get corpData (lit "alliance_id")) ;;
  if truthy alliance_id then fetch_call (Alliance alliance_id) else ret JNull.

(** The body of the [try] of the callback handler. *)
Definition link_account (code state : jsstring) (env : Env) : M Response :=
  decoded <- lift (match atob state with
                   | Ok text => JSON.parse text
                   | Throw e => Throw e
                   end) ;;
  discord_id <- lift (get decoded (lit "discord_id")) ;;
  discord_username <- lift (get decoded (lit "discord_username")) ;;
  authorization <- basic_authorization env ;;
  tokens <- fetch_call (TokenByCode authorization code) ;;
  access_token <- lift (get tokens (lit "access_token")) ;;
  if negb (truthy access_token) then throw (Error (lit "Failed to get access token"))
  else
    characterInfo <- fetch_call (Verify access_token) ;;
    CharacterID <- lift (get characterInfo (lit "CharacterID")) ;;
    charData <- fetch_call (Character CharacterID) ;;
    corporation_id <- lift (get charData (lit "corporation_id")) ;;
    corpData <- fetch_call (Corporation corporation_id) ;;
    allianceData <- fetch_alliance corpData ;;
    t <- Date_now ;;
    expires_in <- lift (get tokens (lit "expires_in")) ;;
    expiresAt <- lift (iso_after t expires_in) ;;
    now <- new_Date_toISOString ;;
    _ <- db_run InsertOrReplaceUser
           [discord_id;
            discord_username;
            prop characterInfo (lit "CharacterID");
            prop characterInfo (lit "CharacterName");
            prop corpData (lit "corporation_id");
            prop corpData (lit "name");
            prop corpData (lit "ticker");
            or_null (prop corpData (lit "alliance_id"));
            or_null (get_opt allianceData (lit "name"));
            or_null (get_opt allianceData (lit "ticker"));
            prop tokens (lit "access_token");
            prop tokens (lit "refresh_token");
            JStr expiresAt;
            JStr now;
            discord_id;
            JStr now]
           insert_or_replace ;;
    ret {| status := 200;
           headers := [(lit "Content-Type", lit "text/html")];
           body := SuccessPage (prop characterInfo (lit "CharacterName"))
                     (if truthy allianceData
                      then Some (prop allianceData (lit "ticker")) else None)
                     (prop corpData (lit "ticker")) |}.

(** ** Handle OAuth callback from Eve SSO *)
Definition handleAuthCallback (request : HttpRequest) (env : Env) (corsHeaders : Headers)
  : M Response :=
  let code := searchParams_get (searchParams request) (lit "code") in
  let state := searchParams_get (searchParams request) (lit "state") in
  if absent code || absent state then
    ret {| status := 400; headers := []; body := PlainText (lit "Authorization failed") |}
  else
    try_catch (link_account (text_or_empty code) (text_or_empty state) env)
      (fun error =>
         ret {| status := 500; headers := []; body := AuthenticationError error |}).

(** ** Get authenticated user info *)
Definition getAuthUser (discordId : jsval) (env : Env) (corsHeaders : Headers)
  : M Response :=
  results <- db_all SelectUser [discordId]
               (fun params => match params with
                              | [key] => select_user key
                              | _ => fun _ => []
                              end) ;;
  ret {| status := 200; headers := json_headers corsHeaders;
         body := JsonUser (match results with [] => None | r :: _ => Some r end) |}.

(** ** Get all authenticated users *)
Definition getAllAuthUsers (env : Env) (corsHeaders : Headers) : M Response :=
  results <- db_all SelectAllUsers [] (fun _ => select_all_ordered) ;;
  ret {| status := 200; headers := json_headers corsHeaders;
         body := JsonUsers results |}.

(** The body of the [try] inside the loop of the refresh sweep: what is
    pushed on [refreshed] when nothing throws. *)
Definition refresh_user (now : jsstring) (user : Row) (env : Env) : M Refreshed :=
  authorization <- basic_authorization env ;;
  tokens <- fetch_call (TokenByRefresh authorization (js_of_sql (refresh_token user))) ;;
  access_token <- lift (get tokens (lit "access_token")) ;;
  if negb (truthy access_token) then throw (Error (lit "Failed to refresh token"))
  else
    charData <- fetch_call (Character (js_of_sql (eve_character_id user))) ;;
    corporation_id <- lift (get charData (lit "corporation_id")) ;;
    corpData <- fetch_call (Corporation corporation_id) ;;
    allianceData <- fetch_alliance corpData ;;
    t <- Date_now ;;
    expires_in <- lift (get tokens (lit "expires_in")) ;;
    expiresAt <- lift (iso_after t expires_in) ;;
    _ <- db_run UpdateUser
           [prop corpData (lit "corporation_id");
            prop corpData (lit "name");
            prop corpData (lit "ticker");
            or_null (prop corpData (lit "alliance_id"));
            or_null (get_opt allianceData (lit "name"));
            or_null (get_opt allianceData (lit "ticker"));
            prop tokens (lit "access_token");
            prop tokens (lit "refresh_token");
            JStr expiresAt;
            JStr now;
            js_of_sql (discord_id user)]
           update_user ;;
    ret {| refreshed_discord_id := js_of_sql (discord_id user);
           character_name := js_of_sql (eve_character_name user);
           corporation := prop corpData (lit "ticker");
           alliance := or_null (get_opt allianceData (lit "ticker")) |}.

(** [for (const user of results) { try { ... } catch (error) { ... } }] *)
Fixpoint refresh_each (now : jsstring) (results : list Row) (env : Env)
    (refreshed : list Refreshed) (failed : list Failed)
  : M (list Refreshed * list Failed) :=
  match results with
  | [] => ret (refreshed, failed)
  | user :: rest =>
      out <- try_catch
               (item <- refresh_user now user env ;;
                ret (refreshed ++ [item], failed))
               (fun error =>
                  ret (refreshed,
                       failed ++ [{| failed_discord_id := js_of_sql (discord_id user);
                                     error := error |}])) ;;
      refresh_each now rest env (fst out) (snd out)
  end.

(** The lookahead of the sweep: one hour, in milliseconds. *)
Definition refresh_horizon : Z := 3600000.

(** ** Refresh expired tokens and update character info *)
Definition refreshAuthTokens (env : Env) (corsHeaders : Headers) : M Response :=
  now <- new_Date_toISOString ;;
  t <- Date_now ;;
  oneHourFromNow <- lift (toISOString (t + refresh_horizon)) ;;
  results <- db_all SelectExpiring [JStr oneHourFromNow]
               (fun params => match params with
                              | [bound] => select_expiring bound
                              | _ => fun _ => []
                              end) ;;
  out <- refresh_each now results env [] [] ;;
  ret {| status := 200; headers := json_headers corsHeaders;
         body := JsonRefresh (fst out) (snd out) |}.

(** ** Delete authenticated user *)
Definition deleteAuthUser (discordId : jsval) (env : Env) (corsHeaders : Headers)
  : M Response :=
  _ <- db_run DeleteUser [discordId]
         (fun params t => match params with
                          | [key] => Ok (delete_user key t)
                          | _ => Throw D1_TYPE_ERROR
                          end) ;;
  ret {| status := 200; headers := json_headers corsHeaders;
         body := JsonMessage (lit "User authentication deleted") |}.

Definition corsHeaders : Headers :=
  [(lit "Access-Control-Allow-Origin", lit "*");
   (lit "Access-Control-Allow-Methods", lit "GET, POST, DELETE, OPTIONS");
   (lit "Access-Control-Allow-Headers", lit "Content-Type, X-API-Key")].

(** [!apiKey || apiKey !== env.API_KEY] *)
Definition unauthorized (apiKey : option jsstring) (env : Env) : bool :=
  absent apiKey
  || negb (match apiKey, API_KEY env with
           | Some given, Some expected => str_eqb given expected
           | _, _ => false
           end).

(** The chain of routes inside the [try] of [fetch]. *)
Definition route (request : HttpRequest) (env : Env) : M Response :=
  let path := pathname request in
  let verb m := str_eqb (method request) m in
  if str_eqb path (lit "/reminders") && verb (lit "POST") then
    createReminder request env
  else if str_eqb path (lit "/reminders/due") && verb (lit "GET") then
    getDueReminders env
  else if startsWith path (lit "/reminders/user/") && verb (lit "GET") then
    getUserReminders (segment path 3) env
  else if startsWith path (lit "/reminders/guild/") && verb (lit "GET") then
    getGuildReminders (segment path 3) env
  else if startsWith path (lit "/reminders/") && verb (lit "DELETE") then
    deleteReminder (segment path 2) env
  else if str_eqb path (lit "/cleanup") && verb (lit "POST") then
    cleanupOldReminders env
  else if str_eqb path (lit "/init") && verb (lit "POST") then
    initDatabase env
  else if str_eqb path (lit "/auth/login") && verb (lit "POST") then
    createAuthURL request env corsHeaders
  else if str_eqb path (lit "/auth/callback") && verb (lit "GET") then
    handleAuthCallback request env corsHeaders
  else if startsWith path (lit "/auth/user/") && verb (lit "GET") then
    getAuthUser (segment path 3) env corsHeaders
  else if str_eqb path (lit "/auth/users") && verb (lit "GET") then
    getAllAuthUsers env corsHeaders
  else if str_eqb path (lit "/auth/refresh") && verb (lit "POST") then
    refreshAuthTokens env corsHeaders
  else if startsWith path (lit "/auth/") && verb (lit "DELETE") then
    deleteAuthUser (segment path 2) env corsHeaders
  else
    ret {| status := 404; headers := json_headers corsHeaders;
           body := JsonError (lit "Not found") |}.

(** ** The entry point of the worker *)
Definition fetch (request : HttpRequest) (env : Env) : M Response :=
  if str_eqb (method request) (lit "OPTIONS") then
    ret {| status := 200; headers := corsHeaders; body := NoBody |}
  else if unauthorized (x_api_key request) env then
    ret {| status := 401; headers := json_headers corsHeaders;
           body := JsonError (lit "Unauthorized") |}
  else
    try_catch (route request env)
      (fun error =>
         ret {| status := 500; headers := json_headers corsHeaders;
                body := JsonException error |}).

End Worker.

(* ===================================================================== *)
(** * [Date.prototype.setDate] *)
(* ===================================================================== *)

Module Calendar.

(** Days since 1970-01-01 of the proleptic Gregorian (year, month, day),
    months counted from 1; the day may lie outside its month. *)
Definition days_from_civil (y m d : Z) : Z :=
  let y' := if m <=? 2 then y - 1 else y in
  let yoe := y' mod 400 in
  let mp := if m <=? 2 then m + 9 else m - 3 in
  let doy := (153 * mp + 2) / 5 + d - 1 in
  y' / 400 * daysPerEra + (year_start yoe + doy) - 719468.

(** MakeDay(year, month, date): the day number of the first of the
    month, plus [date - 1]. *)
Definition MakeDay (year month date : Z) : Z :=
  days_from_civil year month 1 + date - 1.

(** MakeDate(day, time) *)
Definition MakeDate (day time : Z) : Z := day * msPerDay + time.

(** TimeClip: [None] is NaN, the time value of an invalid date. *)
Definition TimeClip (t : Z) : option Z :=
  if valid_time t then Some t else None.

(** [date.getDate()]: the day of the month. The Workers runtime keeps
    local time equal to UTC. *)
Definition getDate (t : Z) : Z :=
  let '(_, _, d) := civil_from_days (t / msPerDay) in d.

(** [date.setDate(dt)] on a valid date: the new time value. *)
Definition setDate (t dt : Z) : option Z :=
  let '(y, m, _) := civil_from_days (t / msPerDay) in
  TimeClip (MakeDate (MakeDay y m dt) (t mod msPerDay)).

End Calendar.

(* ===================================================================== *)
(** * The reminders: table [reminders] of the D1 database and its routes *)
(* ===================================================================== *)

Module Reminders.

(** One row, column by column as [CREATE TABLE reminders] declares
    them. *)
Record Reminder : Type := {
  id : Z;
  guild_id : sqlval;
  channel_id : sqlval;
  user_id : sqlval;
  reminder_time : sqlval;
  message : sqlval;
  created_at : sqlval
}.

(** The rows in rowid order, and the largest rowid ever handed out
    (AUTOINCREMENT never reuses one). *)
Record Table : Type := {
  rows : list Reminder;
  last_rowid : Z
}.

(** Every column is NOT NULL. *)
Definition not_null_ok (r : Reminder) : bool :=
  negb (is_null (guild_id r) || is_null (channel_id r) || is_null (user_id r)
        || is_null (reminder_time r) || is_null (message r) || is_null (created_at r)).

(** [[
    INSERT INTO reminders
      (guild_id, channel_id, user_id, reminder_time, message, created_at)
    VALUES (?, ?, ?, ?, ?, ?)
    ]]
    The result is [meta.last_row_id] and the table. *)
Definition insert (params : list sqlval) (t : Table) : res (Z * Table) :=
  match params with
  | [p1; p2; p3; p4; p5; p6] =>
      let r := {| id := last_rowid t + 1;
                  guild_id := integer_affinity p1;
                  channel_id := integer_affinity p2;
                  user_id := integer_affinity p3;
                  reminder_time := text_affinity p4;
                  message := text_affinity p5;
                  created_at := text_affinity p6 |} in
      if not_null_ok r then
        Ok (last_rowid t + 1,
            {| rows := rows t ++ [r]; last_rowid := last_rowid t + 1 |})
      else Throw D1_CONSTRAINT
  | _ => Throw D1_TYPE_ERROR
  end.

Fixpoint insert_by_time (r : Reminder) (l : list Reminder) : list Reminder :=
  match l with
  | [] => [r]
  | x :: l' =>
      if sql_leb (reminder_time r) (reminder_time x) then r :: l
      else x :: insert_by_time r l'
  end.

(** [ORDER BY reminder_time ASC], which is also the order of
    [idx_reminder_time], the index of the schema on [reminder_time]:
    rows of equal time in rowid order. *)
Definition order_by_time (l : list Reminder) : list Reminder :=
  fold_right insert_by_time [] l.

(** [SELECT * FROM reminders WHERE reminder_time <= ?]
    The statement has no ORDER BY: the rows that satisfy the condition
    come in the order in which the engine walks them, which for this
    condition is the order of [idx_reminder_time]. *)
Definition select_due (bound : sqlval) (t : Table) : list Reminder :=
  order_by_time
    (filter (fun r => sql_leb (reminder_time r) (text_affinity bound)) (rows t)).

(** [WHERE user_id = ?]: the INTEGER column gives the parameter its
    affinity. *)
Definition of_user (key : sqlval) (r : Reminder) : bool :=
  sql_eqb (user_id r) (integer_affinity key).

(** [WHERE guild_id = ?] *)
Definition of_guild (key : sqlval) (r : Reminder) : bool :=
  sql_eqb (guild_id r) (integer_affinity key).

(** [WHERE id = ?] *)
Definition has_id (key : sqlval) (r : Reminder) : bool :=
  sql_eqb (SInt (id r)) (integer_affinity key).

(** [SELECT id, reminder_time, message, created_at FROM reminders
     WHERE user_id = ? ORDER BY reminder_time ASC]: the rows, of which
    the handler's answer shows the four columns. *)
Definition select_by_user (key : sqlval) (t : Table) : list Reminder :=
  order_by_time (filter (of_user key) (rows t)).

(** [SELECT * FROM reminders WHERE guild_id = ? ORDER BY reminder_time ASC] *)
Definition select_by_guild (key : sqlval) (t : Table) : list Reminder :=
  order_by_time (filter (of_guild key) (rows t)).

(** [DELETE FROM reminders WHERE id = ?]; the result is [meta.changes]
    and the table. *)
Definition delete_by_id (key : sqlval) (t : Table) : Z * Table :=
  (Z.of_nat (length (filter (has_id key) (rows t))),
   {| rows := filter (fun r => negb (has_id key r)) (rows t);
      last_rowid := last_rowid t |}).

(** [WHERE created_at <= ?] *)
Definition older (bound : sqlval) (r : Reminder) : bool :=
  sql_leb (created_at r) (text_affinity bound).

(** [DELETE FROM reminders WHERE created_at <= ?] *)
Definition delete_older (bound : sqlval) (t : Table) : Z * Table :=
  (Z.of_nat (length (filter (older bound) (rows t))),
   {| rows := filter (fun r => negb (older bound r)) (rows t);
      last_rowid := last_rowid t |}).

(** A row of [SELECT *] as the object D1 returns. *)
Definition to_json (r : Reminder) : jsval :=
  JObj [(lit "id", JNum (id r));
        (lit "guild_id", js_of_sql (guild_id r));
        (lit "channel_id", js_of_sql (channel_id r));
        (lit "user_id", js_of_sql (user_id r));
        (lit "reminder_time", js_of_sql (reminder_time r));
        (lit "message", js_of_sql (message r));
        (lit "created_at", js_of_sql (created_at r))].

(** A row of [SELECT id, reminder_time, message, created_at]. *)
Definition summary (r : Reminder) : jsval :=
  JObj [(lit "id", JNum (id r));
        (lit "reminder_time", js_of_sql (reminder_time r));
        (lit "message", js_of_sql (message r));
        (lit "created_at", js_of_sql (created_at r))].

Section Handlers.

Context {P : Platform}.

(** What the reminder routes work on: the clock and their table. *)
Record Store : Type := {
  clock : World;
  reminders : Table
}.

(** The handlers run in a state monad with exceptions. *)
Definition H (A : Type) : Type := Store -> res A * Store.

Definition pure {A} (a : A) : H A := fun st => (Ok a, st).

Definition bind_H {A B} (m : H A) (k : A -> H B) : H B :=
  fun st =>
    match m st with
    | (Ok a, st') => k a st'
    | (Throw e, st') => (Throw e, st')
    end.

Definition lift_H {A} (r : res A) : H A := fun st => (r, st).

(** [new Date()] *)
Definition new_Date : H Z :=
  fun st =>
    let (t, w) := date_now (clock st) in
    (Ok t, {| clock := w; reminders := reminders st |}).

(** [await env.DB.prepare(sql).bind(...args).all()] *)
Definition all (args : list jsval) (q : list sqlval -> Table -> list Reminder)
  : H (list Reminder) :=
  fun st =>
    match bind args with
    | Throw e => (Throw e, st)
    | Ok params => (Ok (q params (reminders st)), st)
    end.

(** [await env.DB.prepare(sql).bind(...args).run()]: the number the
    handler reads from [result.meta]. *)
Definition run (args : list jsval) (q : list sqlval -> Table -> res (Z * Table))
  : H Z :=
  fun st =>
    match bind args with
    | Throw e => (Throw e, st)
    | Ok params =>
        match q params (reminders st) with
        | Ok (n, t) => (Ok n, {| clock := clock st; reminders := t |})
        | Throw e => (Throw e, st)
        end
    end.

Notation "x <- m ;; k" := (bind_H m (fun x => k))
  (at level 61, m at next level, right associativity).

(** [{ reminders: results }] *)
Definition listing (corsHeaders : Headers) (items : list jsval) : Response :=
  {| status := 200; headers := json_headers corsHeaders;
     body := JsonOther (JObj [(lit "reminders", JArr items)]) |}.

(** ** Initialize database schema

    Every statement of the script is CREATE ... IF NOT EXISTS: over
    the tables of the model, which exist, it changes nothing. The
    handler is taken at the answer it gives when the script runs; how
    [exec] cuts a script into statements is not modelled. *)
Definition initDatabase (env : Env) (corsHeaders : Headers) : H Response :=
  pure {| status := 200; headers := json_headers corsHeaders;
          body := JsonMessage (lit "Database initialized") |}.

(** ** Create a new reminder *)
Definition createReminder (request : HttpRequest) (env : Env) (corsHeaders : Headers)
  : H Response :=
  data <- lift_H (json request) ;;
  guild_id <- lift_H (get data (lit "guild_id")) ;;
  channel_id <- lift_H (get data (lit "channel_id")) ;;
  user_id <- lift_H (get data (lit "user_id")) ;;
  reminder_time <- lift_H (get data (lit "reminder_time")) ;;
  message <- lift_H (get data (lit "message")) ;;
  if negb (truthy guild_id) || negb (truthy channel_id) || negb (truthy user_id)
     || negb (truthy reminder_time) || negb (truthy message) then
    pure {| status := 400; headers := json_headers corsHeaders;
            body := JsonError (lit "Missing required fields") |}
  else
    t <- new_Date ;;
    created_at <- lift_H (toISOString t) ;;
    last_row_id <- run [guild_id; channel_id; user_id; reminder_time; message;
                        JStr created_at]
                     insert ;;
    pure {| status := 201; headers := json_headers corsHeaders;
            body := JsonOther (JObj [(lit "message", JStr (lit "Reminder created"));
                                     (lit "id", JNum last_row_id)]) |}.

(** ** Get due reminders *)
Definition getDueReminders (env : Env) (corsHeaders : Headers) : H Response :=
  t <- new_Date ;;
  now <- lift_H (toISOString t) ;;
  results <- all [JStr now]
               (fun params => match params with
                              | [bound] => select_due bound
                              | _ => fun _ => []
                              end) ;;
  pure (listing corsHeaders (map to_json results)).

(** ** Get reminders for a specific user *)
Definition getUserReminders (userId : jsval) (env : Env) (corsHeaders : Headers)
  : H Response :=
  results <- all [userId]
               (fun params => match params with
                              | [key] => select_by_user key
                              | _ => fun _ => []
                              end) ;;
  pure (listing corsHeaders (map summary results)).

(** ** Get all reminders for a guild *)
Definition getGuildReminders (guildId : jsval) (env : Env) (corsHeaders : Headers)
  : H Response :=
  results <- all [guildId]
               (fun params => match params with
                              | [key] => select_by_guild key
                              | _ => fun _ => []
                              end) ;;
  pure (listing corsHeaders (map to_json results)).

(** ** Delete a reminder *)
Definition deleteReminder (reminderId : jsval) (env : Env) (corsHeaders : Headers)
  : H Response :=
  _ <- run [reminderId]
         (fun params t => match params with
                          | [key] => Ok (delete_by_id key t)
                          | _ => Throw D1_TYPE_ERROR
                          end) ;;
  pure {| status := 200; headers := json_headers corsHeaders;
          body := JsonMessage (lit "Reminder deleted") |}.

(** The age at which a reminder is cleaned up, in days. *)
Definition cleanup_days : Z := 45.

(** ** Cleanup old reminders (45+ days old) *)
Definition cleanupOldReminders (env : Env) (corsHeaders : Headers) : H Response :=
  t <- new_Date ;;
  cutoffISO <- lift_H (match Calendar.setDate t (Calendar.getDate t - cleanup_days) with
                       | Some cutoff => toISOString cutoff
                       | None => Throw RangeError
                       end) ;;
  deleted <- run [JStr cutoffISO]
               (fun params t => match params with
                                | [bound] => Ok (delete_older bound t)
                                | _ => Throw D1_TYPE_ERROR
                                end) ;;
  pure {| status := 200; headers := json_headers corsHeaders;
          body := JsonOther (JObj [(lit "message", JStr (lit "Old reminders cleaned up"));
                                   (lit "deleted", JNum deleted)]) |}.

End Handlers.

End Reminders.


(* ===================================================================== *)
(** * The vocabulary of the properties *)
(* ===================================================================== *)

(** ** Of the table *)

(** The constraints of the schema the proofs rely on: [discord_id] is
    TEXT NOT NULL UNIQUE and [created_at] is TEXT NOT NULL. *)
Definition is_text (v : sqlval) : bool :=
  match v with SText _ => true | _ => false end.

Fixpoint distinct (keys : list sqlval) : bool :=
  match keys with
  | [] => true
  | k :: rest => negb (existsb (sql_eqb k) rest) && distinct rest
  end.

Definition well_formed (t : Table) : bool :=
  forallb (fun r => is_text (discord_id r) && is_text (created_at r)) (rows t)
  && distinct (map discord_id (rows t)).

(** The columns a refresh must not touch. *)
Definition frame (r : Row) : Z * sqlval * sqlval * sqlval * sqlval * sqlval :=
  (id r, discord_id r, discord_username r, eve_character_id r,
   eve_character_name r, created_at r).

(** ** Of a run *)

Definition answered (e : Event) : Prop :=
  match e with
  | Fetched _ (Throw _) => False
  | _ => True
  end.

(** The events of the alliance lookup: one when the corporation is in an
    alliance, none otherwise. *)
Definition alliance_events (corpData allianceData : jsval) : list Event :=
  if truthy (prop corpData (lit "alliance_id"))
  then [Fetched (Alliance (prop corpData (lit "alliance_id"))) (Ok allianceData)]
  else [].

(** The events of a completed link, newest first. *)
Definition link_events (authorization code : jsstring)
    (tokens characterInfo charData corpData allianceData : jsval) (t t2 : Z)
  : list Event :=
  Queried InsertOrReplaceUser :: Now t2 :: Now t
    :: alliance_events corpData allianceData
    ++ [Fetched (Corporation (prop charData (lit "corporation_id"))) (Ok corpData);
        Fetched (Character (prop characterInfo (lit "CharacterID"))) (Ok charData);
        Fetched (Verify (prop tokens (lit "access_token"))) (Ok characterInfo);
        Fetched (TokenByCode authorization code) (Ok tokens)].

(** The refresh-token exchanges among some events. *)
Definition refresh_requests (events : list Event) : list Request :=
  flat_map (fun e => match e with
                     | Fetched (TokenByRefresh a rt) _ => [TokenByRefresh a rt]
                     | _ => []
                     end) events.

(** The refresh-token exchanges a sweep over [results] is to make, in
    order: one per record, unless the client credentials cannot be
    encoded for the Authorization header. *)
Definition attempts (env : Env) (results : list Row) : list Request :=
  match btoa (EVE_CLIENT_ID env ++ 58%N :: EVE_CLIENT_SECRET env) with
  | Ok authorization =>
      map (fun user => TokenByRefresh authorization (js_of_sql (refresh_token user)))
        results
  | Throw _ => []
  end.

(** ** Of a sweep *)

(** What became of one selected record. *)
Inductive Outcome : Type :=
| Done (item : Refreshed)
| Lost (item : Failed).

Definition outcome_key (o : Outcome) : jsval :=
  match o with
  | Done item => refreshed_discord_id item
  | Lost item => failed_discord_id item
  end.

Fixpoint dones (l : list Outcome) : list Refreshed :=
  match l with
  | [] => []
  | Done item :: rest => item :: dones rest
  | Lost _ :: rest => dones rest
  end.

Fixpoint losts (l : list Outcome) : list Failed :=
  match l with
  | [] => []
  | Done _ :: rest => losts rest
  | Lost item :: rest => item :: losts rest
  end.

(** The table along a sweep, record by record in the order selected:
    a refreshed record is one UPDATE keyed by its [discord_id], a failed
    record leaves the table as it is. *)
Inductive swept : Table -> list Row -> list Outcome -> Table -> Prop :=
| swept_nil t :
    swept t [] [] t
| swept_done t user rest item p1 p2 p3 p4 p5 p6 p7 p8 p9 p10 t1 outs t' :
    refreshed_discord_id item = js_of_sql (discord_id user) ->
    update_user [p1; p2; p3; p4; p5; p6; p7; p8; p9; p10; discord_id user] t = Ok t1 ->
    swept t1 rest outs t' ->
    swept t (user :: rest) (Done item :: outs) t'
| swept_lost t user rest e outs t' :
    swept t rest outs t' ->
    swept t (user :: rest)
      (Lost {| failed_discord_id := js_of_sql (discord_id user); error := e |} :: outs) t'.


Section Vocabulary.

Context {P : Platform}.

(** A computation that never writes the table. *)
Definition stable {A} (m : M A) : Prop :=
  forall st r st', m st = (r, st') -> users st' = users st.

(** A computation that leaves the table alone when it throws. *)
Definition atomic {A} (m : M A) : Prop :=
  forall st e st', m st = (Throw e, st') -> users st' = users st.

(** A computation that makes no refresh-token exchange. *)
Definition quiet {A} (m : M A) : Prop :=
  forall st r st', m st = (r, st') ->
    exists new, trace st' = new ++ trace st /\ refresh_requests new = [].



End Vocabulary.

(** ** Of dates *)

(** Lexicographic combination of two comparisons. *)
Definition lex (c1 c2 : comparison) : comparison :=
  match c1 with Eq => c2 | _ => c1 end.

(** The date as one number: YYYYMMDD. *)
Definition date_code (ymd : Z * Z * Z) : Z :=
  let '(y, m, d) := ymd in y * 10000 + m * 100 + d.

(** The date within a year that starts in March, as a number that grows
    with the day: 0MMDD for March to December, 1MMDD for January and
    February. *)
Definition year_code (doy : Z) : Z :=
  let '(m, d) := month_day doy in
  (if m <=? 2 then 1 else 0) * 10000 + m * 100 + d.

(** [f] holds of the [n] integers from [i] on. *)
Fixpoint all_from (n : nat) (f : Z -> bool) (i : Z) : bool :=
  match n with
  | O => true
  | S n' => if f i then all_from n' f (i + 1) else false
  end.

Definition year_day_ok (doy : Z) : bool :=
  let '(m, d) := month_day doy in
  (1 <=? m) && (m <=? 12) && (1 <=? d) && (d <=? 31)
  && (301 <=? year_code doy) && (year_code doy <=? 10229)
  && ((doy =? 365) || (year_code doy <? year_code (doy + 1))).

Definition era_year_ok (y : Z) : bool :=
  (year_of_era (year_start y) =? y)
  && (year_of_era (year_start (y + 1) - 1) =? y)
  && (year_start y <? year_start (y + 1))
  && (year_start (y + 1) - year_start y <=? 366).

(** The first instant of year 0 and the first instant of year 10000:
    between them the year has four digits. *)
Definition year0 : Z := -62167219200000.

Definition year10000 : Z := 253402300800000.

Definition four_digit_year (t : Z) : Prop := year0 <= t < year10000.

(** The whole instant as one number: YYYYMMDDHHMMSSmmm. *)
Definition iso_code (t : Z) : Z :=
  let r := t mod msPerDay in
  date_code (civil_from_days (t / msPerDay)) * 1000000000
  + (((r / 3600000 * 100 + r / 60000 mod 60) * 100 + r / 1000 mod 60) * 1000
     + r mod 1000).

(** ** Of JSON texts *)

(** The value of a run of digits read after [a]. *)
Definition digits_value (ds : jsstring) (a : Z) : Z :=
  fold_left (fun acc c => 10 * acc + (Z.of_N c - 48)) ds a.

(** The characters that may follow a value inside an object. *)
Definition closes (c : N) : Prop := c = 44%N \/ c = 125%N.

Definition scalar (v : jsval) : Prop :=
  match v with
  | JStr _ | JNum _ | JBool _ => True
  | _ => False
  end.

(** The object the initiator packs, as the handlers build it. *)
Definition state_object (discord_id discord_username : jsval) (timestamp : Z) : jsval :=
  JObj [(lit "discord_id", discord_id);
        (lit "discord_username", discord_username);
        (lit "timestamp", JNum timestamp)].

(** ** Of the initiator *)

(** The URL of an accepted login: the provider's authorization endpoint
    with the five parameters of the handler, in its order. *)
Definition authorization_url (env : Env) (state : jsstring) : Url :=
  {| base := EVE_SSO_URL;
     query := [(lit "response_type", lit "code");
               (lit "redirect_uri", EVE_CALLBACK_URL env);
               (lit "client_id", EVE_CLIENT_ID env);
               (lit "scope", lit "publicData");
               (lit "state", state)] |}.

(** ** Of a listing *)

(** A text whose code units are all below the surrogates: of such texts
    the order by code units is the order by the bytes of their UTF-8,
    the order (BINARY) in which SQLite sorts. *)
Definition plain_text (v : sqlval) : bool :=
  match v with
  | SText s => forallb (fun c => (c <? 55296)%N) s
  | _ => false
  end.

(** Each value is at most the next, in the order of SQL. *)
Fixpoint ascending (l : list sqlval) : bool :=
  match l with
  | a :: (b :: _) as rest => sql_leb a b && ascending rest
  | _ => true
  end.

(** ** Of the calendar *)

(** The day of the year computed back from its month and day. *)
Definition month_day_back (doy : Z) : bool :=
  let '(m, d) := month_day doy in
  (153 * (if m <=? 2 then m + 9 else m - 3) + 2) / 5 + d - 1 =? doy.

(** ** Of the reminders *)

(** Each number is smaller than the next. *)
Fixpoint increasing (ids : list Z) : bool :=
  match ids with
  | a :: (b :: _) as rest => (a <? b) && increasing rest
  | _ => true
  end.

(** What the schema and AUTOINCREMENT keep true of the table: no column
    is NULL, the rows are in the order of their rowids, which are all
    different, and none is above the largest ever handed out. *)
Definition consistent (t : Reminders.Table) : bool :=
  forallb Reminders.not_null_ok (Reminders.rows t)
  && increasing (map Reminders.id (Reminders.rows t))
  && forallb (fun r => Reminders.id r <=? Reminders.last_rowid t) (Reminders.rows t).

(** The calls of the reminder routes. *)
Inductive Call : Type :=
| Create (request : HttpRequest)
| Due
| OfUser (userId : jsval)
| OfGuild (guildId : jsval)
| Delete (reminderId : jsval)
| Cleanup
| Init.

Section Calls.

Context {P : Platform}.

Definition call (env : Env) (c : Call) : Reminders.H Response :=
  match c with
  | Create request => Reminders.createReminder request env corsHeaders
  | Due => Reminders.getDueReminders env corsHeaders
  | OfUser userId => Reminders.getUserReminders userId env corsHeaders
  | OfGuild guildId => Reminders.getGuildReminders guildId env corsHeaders
  | Delete reminderId => Reminders.deleteReminder reminderId env corsHeaders
  | Cleanup => Reminders.cleanupOldReminders env corsHeaders
  | Init => Reminders.initDatabase env corsHeaders
  end.

(** The store after the calls, one after the other. *)
Fixpoint calls (env : Env) (cs : list Call) (st : Reminders.Store) : Reminders.Store :=
  match cs with
  | [] => st
  | c :: rest => calls env rest (snd (call env c st))
  end.

End Calls.

(** ** Of the report of a sweep *)

(** The row agrees with what the sweep reported of it: the identity and
    the character are those of the item, a ticker reported as a string
    is the text stored, no alliance reported is NULL stored, and the row
    was stamped with the text [now]. *)
Definition reported_in (now : jsstring) (item : Refreshed) (row : Row) : Prop :=
  js_of_sql (discord_id row) = refreshed_discord_id item
  /\ js_of_sql (eve_character_name row) = character_name item
  /\ (forall s, corporation item = JStr s -> eve_corporation_ticker row = SText s)
  /\ (forall s, alliance item = JStr s -> eve_alliance_ticker row = SText s)
  /\ (alliance item = JNull -> eve_alliance_ticker row = SNull)
  /\ last_updated row = SText now.

(* ===================================================================== *)
(** * Scenarios *)
(* ===================================================================== *)

Module Scenario.

(** A clock that always shows a valid time. *)
Definition clip (t : Z) : Z := if valid_time t then t else 0.

Definition clip_valid (t : Z) : valid_time (clip t) = true.
Proof. unfold clip. destruct (valid_time t) eqn:E; [exact E | reflexivity]. Qed.

(** A world whose services answer by a fixed script: every call takes
    100 ms, reading the clock takes 1 ms. *)
Definition scripted (answers : Request -> res jsval) : Platform :=
  {| World := Z;
     fetch_json := fun r w => (answers r, w + 100);
     date_now := fun w => (clip w, w + 1);
     date_now_valid := fun w => clip_valid w |}.

Definition not_found {P : Platform} : M Response :=
  ret {| status := 404; headers := []; body := NoBody |}.

Definition no_reminders {P : Platform} : ReminderRoutes :=
  {| createReminder := fun _ _ => not_found;
     getDueReminders := fun _ => not_found;
     getUserReminders := fun _ _ => not_found;
     getGuildReminders := fun _ _ => not_found;
     deleteReminder := fun _ _ => not_found;
     cleanupOldReminders := fun _ => not_found;
     initDatabase := fun _ => not_found |}.

Definition str (s : string) : jsval := JStr (lit s).

Definition object (props : list (string * jsval)) : jsval :=
  JObj (map (fun kv => (lit (fst kv), snd kv)) props).

Definition env : Env :=
  {| API_KEY := Some (lit "secret-key");
     EVE_CLIENT_ID := lit "cid";
     EVE_CLIENT_SECRET := lit "sec";
     EVE_CALLBACK_URL := lit "https://bot.example/auth/callback" |}.

(** [btoa("cid:sec")] *)
Definition basic : jsstring := lit "Y2lkOnNlYw==".

(** 2023-11-14T22:13:20.000Z *)
Definition start : Z := 1700000000000.

Definition tokens1 : jsval :=
  object [("access_token", str "AT1"); ("refresh_token", str "RT1");
          ("expires_in", JNum 1200)]%string.

Definition tokens2 : jsval :=
  object [("access_token", str "AT2"); ("refresh_token", str "RT2");
          ("expires_in", JNum 1199)]%string.

Definition rejection : jsval :=
  object [("error", str "invalid_grant")]%string.

Definition pilot : jsval :=
  object [("CharacterID", JNum 9001); ("CharacterName", str "Pilot One")]%string.

Definition member_of_G : jsval := object [("corporation_id", JNum 77)]%string.

(** Corporation G, in no alliance. *)
Definition corporation_G : jsval :=
  object [("corporation_id", JNum 77); ("name", str "Group G");
          ("ticker", str "G")]%string.

(** Everything works; the refresh token [RT-revoked] is rejected. *)
Definition provider (r : Request) : res jsval :=
  match r with
  | TokenByCode _ _ => Ok tokens1
  | TokenByRefresh _ (JStr rt) =>
      if str_eqb rt (lit "RT-revoked") then Ok rejection else Ok tokens2
  | TokenByRefresh _ _ => Ok rejection
  | Verify _ => Ok pilot
  | Character _ => Ok member_of_G
  | Corporation _ => Ok corporation_G
  | Alliance _ => Throw (Error (lit "no such alliance"))
  end.

(** The token endpoint rejects the authorization code. *)
Definition rejecting (r : Request) : res jsval :=
  match r with
  | TokenByCode _ _ => Ok rejection
  | _ => provider r
  end.

(** The corporation lookup fails. *)
Definition corporation_down (r : Request) : res jsval :=
  match r with
  | Corporation _ => Throw (Error (lit "ESI unavailable"))
  | _ => provider r
  end.

(** Corporation H belongs to alliance 500, and the alliance lookup
    answers with an error body instead of throwing. *)
Definition corporation_H : jsval :=
  object [("corporation_id", JNum 78); ("name", str "Group H");
          ("ticker", str "H"); ("alliance_id", JNum 500)]%string.

Definition alliance_unknown (r : Request) : res jsval :=
  match r with
  | Corporation _ => Ok corporation_H
  | Alliance _ => Ok (object [("error", str "Alliance not found")]%string)
  | _ => provider r
  end.

Definition empty : Table := {| rows := []; last_rowid := 0 |}.

(** The state of a worker at time [w] with table [t], nothing done yet. *)
Definition initial (answers : Request -> res jsval) (w : Z) (t : Table)
  : @State (scripted answers) :=
  @Build_State (scripted answers) w t [].

(** POST /auth/login for U1 *)
Definition login_request : HttpRequest :=
  {| method := lit "POST";
     x_api_key := Some (lit "secret-key");
     pathname := lit "/auth/login";
     searchParams := [];
     json := Ok (object [("discord_id", str "U1");
                         ("discord_username", str "user one")]%string) |}.

(** The state token the initiator gives U1 at [start]. *)
Definition state1 : jsstring :=
  lit "eyJkaXNjb3JkX2lkIjoiVTEiLCJkaXNjb3JkX3VzZXJuYW1lIjoidXNlciBvbmUiLCJ0aW1lc3RhbXAiOjE3MDAwMDAwMDAwMDB9".

(** GET /auth/callback?code=c0de&state=... *)
Definition callback_request : HttpRequest :=
  {| method := lit "GET";
     x_api_key := Some (lit "secret-key");
     pathname := lit "/auth/callback";
     searchParams := [(lit "code", lit "c0de"); (lit "state", state1)];
     json := Throw SyntaxError |}.

(** GET /auth/users without a key *)
Definition anonymous_request : HttpRequest :=
  {| method := lit "GET";
     x_api_key := None;
     pathname := lit "/auth/users";
     searchParams := [];
     json := Throw SyntaxError |}.

Definition preflight_request : HttpRequest :=
  {| method := lit "OPTIONS";
     x_api_key := None;
     pathname := lit "/auth/refresh";
     searchParams := [];
     json := Throw SyntaxError |}.

(** A stored record of a pilot of corporation G. *)
Definition record (n : Z) (who refresh : string) (expires : Z) : Row :=
  {| id := n;
     discord_id := SText (lit who);
     discord_username := SText (lit who);
     eve_character_id := SInt (9000 + n);
     eve_character_name := SText (lit "Pilot");
     eve_corporation_id := SInt 77;
     eve_corporation_name := SText (lit "Group G");
     eve_corporation_ticker := SText (lit "G");
     eve_alliance_id := SNull;
     eve_alliance_name := SNull;
     eve_alliance_ticker := SNull;
     access_token := SText (lit "old-access");
     refresh_token := SText (lit refresh);
     token_expires_at := SText (iso_string expires);
     last_updated := SText (iso_string 1690000000000);
     created_at := SText (iso_string 1690000000000) |}.

(** U1 expires in half an hour, U2 has expired and its grant is revoked,
    U3 expires in two hours. *)
Definition three_records : Table :=
  {| rows := [record 1 "U1" "RT1" (start + 1800000);
              record 2 "U2" "RT-revoked" (start - 5000);
              record 3 "U3" "RT3" (start + 7200000)];
     last_rowid := 3 |}.

End Scenario.

(** Further requests, tables and reminders for the scenarios. *)
Module Cases.

(** A request with the key of [Scenario.env]. *)
Definition request_of (verb path : string) (body : res jsval) : HttpRequest :=
  {| method := lit verb;
     x_api_key := Some (lit "secret-key");
     pathname := lit path;
     searchParams := [];
     json := body |}.

(** POST /auth/login with an empty display name *)
Definition nameless_login : HttpRequest :=
  request_of "POST" "/auth/login"
    (Ok (Scenario.object [("discord_id", Scenario.str "U1");
                          ("discord_username", Scenario.str "")]%string)).

(** POST /auth/login with a display name in Cyrillic *)
Definition cyrillic_login : HttpRequest :=
  request_of "POST" "/auth/login"
    (Ok (Scenario.object [("discord_id", Scenario.str "U1");
                          ("discord_username", JStr [1046%N; 1091%N; 1082%N])]%string)).

Definition put_request : HttpRequest :=
  request_of "PUT" "/auth/users" (Throw SyntaxError).

Definition lookup_request : HttpRequest :=
  request_of "GET" "/auth/user/U1" (Throw SyntaxError).

Definition removal_request : HttpRequest :=
  request_of "DELETE" "/auth/U2" (Throw SyntaxError).

(** Only U3, which expires in two hours. *)
Definition later_only : Table :=
  {| rows := [Scenario.record 3 "U3" "RT3" (Scenario.start + 7200000)];
     last_rowid := 3 |}.

(** A reminder of user 7 in guild 10. *)
Definition reminder (n : Z) (time : Z) (text : string) (created : Z)
  : Reminders.Reminder :=
  {| Reminders.id := n;
     Reminders.guild_id := SInt 10;
     Reminders.channel_id := SInt 20;
     Reminders.user_id := SInt 7;
     Reminders.reminder_time := SText (iso_string time);
     Reminders.message := SText (lit text);
     Reminders.created_at := SText (iso_string created) |}.

Definition day : Z := 86400000.

(** Reminder 2 was created 50 days before [Scenario.start] and is due
    since an hour; reminder 5, created yesterday, is due tomorrow.
    Rowids 1, 3 and 4 were handed out and their reminders deleted. *)
Definition two_reminders : Reminders.Table :=
  {| Reminders.rows :=
       [reminder 2 (Scenario.start - 3600000) "old" (Scenario.start - 50 * day);
        reminder 5 (Scenario.start + day) "new" (Scenario.start - day)];
     Reminders.last_rowid := 5 |}.

(** The store at time [w] with table [t]. *)
Definition store (w : Z) (t : Reminders.Table)
  : @Reminders.Store (Scenario.scripted Scenario.provider) :=
  @Reminders.Build_Store (Scenario.scripted Scenario.provider) w t.

(** POST /reminders *)
Definition reminder_request : HttpRequest :=
  request_of "POST" "/reminders"
    (Ok (Scenario.object [("guild_id", JNum 10);
                          ("channel_id", JNum 20);
                          ("user_id", JNum 7);
                          ("reminder_time", Scenario.str "2023-11-15T08:00:00.000Z");
                          ("message", Scenario.str "fleet op")]%string)).

(** POST /reminders with an empty message *)
Definition silent_reminder_request : HttpRequest :=
  request_of "POST" "/reminders"
    (Ok (Scenario.object [("guild_id", JNum 10);
                          ("channel_id", JNum 20);
                          ("user_id", JNum 7);
                          ("reminder_time", Scenario.str "2023-11-15T08:00:00.000Z");
                          ("message", Scenario.str "")]%string)).

End Cases.


Arguments iso_string : simpl never.
Arguments lit : simpl never.

(* ===================================================================== *)
(** * Facts about strings and SQL values *)
(* ===================================================================== *)

Lemma str_eqb_eq (a b : jsstring) : str_eqb a b = true <-> a = b.
Proof.
  revert b. induction a as [|x a IH]; intros [|y b]; simpl;
    try (split; [discriminate | intros H; discriminate H]); [tauto|].
  rewrite andb_true_iff, N.eqb_eq, IH. split.
  - intros [-> ->]. reflexivity.
  - intros H. injection H as -> ->. auto.
Qed.

Lemma str_eqb_refl (a : jsstring) : str_eqb a a = true.
Proof. apply str_eqb_eq. reflexivity. Qed.

Lemma str_eqb_neq (a b : jsstring) : str_eqb a b = false <-> a <> b.
Proof.
  rewrite <- str_eqb_eq. destruct (str_eqb a b); split; congruence.
Qed.

Lemma text_compare_refl (a : jsstring) : text_compare a a = Eq.
Proof. induction a as [|x a IH]; simpl; [reflexivity|]. rewrite N.compare_refl. exact IH. Qed.

Lemma text_leb_refl (a : jsstring) : text_leb a a = true.
Proof. unfold text_leb. rewrite text_compare_refl. reflexivity. Qed.

Lemma bind_value_js_of_sql (v : sqlval) : bind_value (js_of_sql v) = Ok v.
Proof. destruct v; reflexivity. Qed.

Lemma js_of_sql_inj (a b : sqlval) : js_of_sql a = js_of_sql b -> a = b.
Proof. destruct a, b; simpl; congruence. Qed.

Lemma text_affinity_not_null (v : sqlval) :
  is_null (text_affinity v) = false -> exists s, text_affinity v = SText s.
Proof. destruct v; simpl; intros H; [discriminate | eauto | eauto]. Qed.

Lemma text_affinity_text (s : jsstring) : text_affinity (SText s) = SText s.
Proof. reflexivity. Qed.

(* ===================================================================== *)
(** * Reasoning about handlers *)
(* ===================================================================== *)

Section MonadFacts.

Context {P : Platform}.

Lemma stable_ret {A} (a : A) : stable (ret a).
Proof. intros st r st' H. inversion H. reflexivity. Qed.

Lemma stable_throw {A} (e : exn) : stable (@throw P A e).
Proof. intros st r st' H. inversion H. reflexivity. Qed.

Lemma stable_lift {A} (r : res A) : stable (lift r).
Proof. intros st x st' H. inversion H. reflexivity. Qed.

Lemma stable_fetch_call (q : Request) : stable (fetch_call q).
Proof.
  intros st r st' H. unfold fetch_call in H.
  destruct (fetch_json q (world st)). inversion H. reflexivity.
Qed.

Lemma stable_Date_now : stable Date_now.
Proof.
  intros st r st' H. unfold Date_now in H.
  destruct (date_now (world st)). inversion H. reflexivity.
Qed.

Lemma stable_db_all name args q : stable (db_all name args q).
Proof.
  intros st r st' H. unfold db_all in H.
  destruct (bind args); inversion H; reflexivity.
Qed.

Lemma stable_bind {A B} (m : M A) (k : A -> M B) :
  stable m -> (forall a, stable (k a)) -> stable (bind_M m k).
Proof.
  intros Hm Hk st r st' H. unfold bind_M in H.
  destruct (m st) as [[a|e] st1] eqn:E.
  - rewrite (Hk _ _ _ _ H). eapply Hm, E.
  - inversion H; subst. eapply Hm, E.
Qed.

Lemma stable_try_catch {A} (m : M A) (h : exn -> M A) :
  stable m -> (forall e, stable (h e)) -> stable (try_catch m h).
Proof.
  intros Hm Hh st r st' H. unfold try_catch in H.
  destruct (m st) as [[a|e] st1] eqn:E.
  - inversion H; subst. eapply Hm, E.
  - rewrite (Hh _ _ _ _ H). eapply Hm, E.
Qed.

Lemma stable_if {A} (b : bool) (m1 m2 : M A) :
  stable m1 -> stable m2 -> stable (if b then m1 else m2).
Proof. destruct b; auto. Qed.

Lemma stable_atomic {A} (m : M A) : stable m -> atomic m.
Proof. intros H st e st' E. eapply H, E. Qed.

Lemma atomic_bind {A B} (m : M A) (k : A -> M B) :
  stable m -> (forall a, atomic (k a)) -> atomic (bind_M m k).
Proof.
  intros Hm Hk st e st' H. unfold bind_M in H.
  destruct (m st) as [[a|e1] st1] eqn:E.
  - rewrite (Hk _ _ _ _ H). eapply Hm, E.
  - inversion H; subst. eapply Hm, E.
Qed.

Lemma atomic_then_ret {A B} (m : M A) (f : A -> B) :
  atomic m -> atomic (bind_M m (fun a => ret (f a))).
Proof.
  intros Hm st e st' H. unfold bind_M in H.
  destruct (m st) as [[a|e1] st1] eqn:E.
  - inversion H.
  - inversion H; subst. eapply Hm, E.
Qed.

Lemma atomic_if {A} (b : bool) (m1 m2 : M A) :
  atomic m1 -> atomic m2 -> atomic (if b then m1 else m2).
Proof. destruct b; auto. Qed.

Lemma atomic_db_run name args q : atomic (db_run name args q).
Proof.
  intros st e st' H. unfold db_run in H.
  destruct (bind args); [|inversion H; reflexivity].
  destruct (q a (users st)); inversion H; reflexivity.
Qed.

End MonadFacts.

Create HintDb handlers.
#[export] Hint Resolve stable_ret stable_throw stable_lift stable_fetch_call
  stable_Date_now stable_db_all stable_bind stable_try_catch stable_if
  atomic_bind atomic_then_ret atomic_if atomic_db_run : handlers.

Section HandlerFacts.

Context {P : Platform}.

Lemma stable_basic_authorization env : stable (basic_authorization env).
Proof. unfold basic_authorization. auto with handlers. Qed.

Lemma stable_new_Date_toISOString : stable new_Date_toISOString.
Proof. unfold new_Date_toISOString. auto with handlers. Qed.

Lemma stable_fetch_alliance corpData : stable (fetch_alliance corpData).
Proof. unfold fetch_alliance. auto with handlers. Qed.

Hint Resolve stable_basic_authorization stable_new_Date_toISOString
  stable_fetch_alliance : handlers.

Lemma atomic_link_account code state env : atomic (link_account code state env).
Proof.
  unfold link_account.
  repeat (first [ apply atomic_bind; [solve [auto with handlers] | intro]
                | apply atomic_if; [solve [auto using stable_atomic with handlers] |] ]).
  apply atomic_then_ret. apply atomic_db_run.
Qed.

Lemma atomic_refresh_user now user env : atomic (refresh_user now user env).
Proof.
  unfold refresh_user.
  repeat (first [ apply atomic_bind; [solve [auto with handlers] | intro]
                | apply atomic_if; [solve [auto using stable_atomic with handlers] |] ]).
  apply atomic_then_ret. apply atomic_db_run.
Qed.

Lemma stable_createAuthURL request env cors : stable (createAuthURL request env cors).
Proof. unfold createAuthURL. auto 10 with handlers. Qed.

End HandlerFacts.

Section Inversion.

Context {P : Platform}.

Lemma bind_ok_inv {A B} (m : M A) (k : A -> M B) st b st' :
  bind_M m k st = (Ok b, st') ->
  exists a st1, m st = (Ok a, st1) /\ k a st1 = (Ok b, st').
Proof.
  unfold bind_M. destruct (m st) as [[a|e] st1]; intros H; [eauto | discriminate].
Qed.

Lemma lift_ok_inv {A} (r : res A) st a st' :
  lift r st = (Ok a, st') -> r = Ok a /\ st' = st.
Proof. unfold lift. intros H. inversion H. auto. Qed.

Lemma ret_ok_inv {A} (x : A) st a st' :
  ret x st = (Ok a, st') -> a = x /\ st' = st.
Proof. unfold ret. intros H. inversion H. auto. Qed.

Lemma fetch_call_ok_inv q st v st' :
  fetch_call q st = (Ok v, st') ->
  exists w, fetch_json q (world st) = (Ok v, w)
            /\ st' = {| world := w; users := users st;
                        trace := Fetched q (Ok v) :: trace st |}.
Proof.
  unfold fetch_call. destruct (fetch_json q (world st)) as [r w].
  intros H. inversion H; subst. eauto.
Qed.

Lemma Date_now_ok_inv st t st' :
  Date_now st = (Ok t, st') ->
  exists w, date_now (world st) = (t, w)
            /\ st' = {| world := w; users := users st; trace := Now t :: trace st |}.
Proof.
  unfold Date_now. destruct (date_now (world st)) as [t0 w].
  intros H. inversion H; subst. eauto.
Qed.

Lemma db_run_ok_inv name args q st u st' :
  db_run name args q st = (Ok u, st') ->
  exists params t, bind args = Ok params /\ q params (users st) = Ok t
                   /\ st' = {| world := world st; users := t;
                               trace := Queried name :: trace st |}.
Proof.
  unfold db_run. destruct (bind args) as [params|]; [|discriminate].
  destruct (q params (users st)) as [t|] eqn:E; [|discriminate].
  intros H. inversion H; subst. eauto.
Qed.

Lemma db_all_ok_inv name args q st l st' :
  db_all name args q st = (Ok l, st') ->
  exists params, bind args = Ok params /\ l = q params (users st)
                 /\ st' = log (Queried name) st.
Proof.
  unfold db_all. destruct (bind args) as [params|]; [|discriminate].
  intros H. inversion H; subst. eauto.
Qed.

End Inversion.

(** Takes one step of a successful run apart. *)
Ltac step H :=
  let a := fresh "v" in
  let st1 := fresh "st" in
  let E := fresh "E" in
  apply bind_ok_inv in H; destruct H as (a & st1 & E & H).

Ltac step_lift H :=
  let a := fresh "v" in
  let st1 := fresh "st" in
  let E := fresh "E" in
  apply bind_ok_inv in H; destruct H as (a & st1 & E & H);
  apply lift_ok_inv in E; destruct E as [E ->].

Ltac step_fetch H :=
  let a := fresh "v" in
  let st1 := fresh "st" in
  let E := fresh "E" in
  let w := fresh "w" in
  apply bind_ok_inv in H; destruct H as (a & st1 & E & H);
  apply fetch_call_ok_inv in E; destruct E as (w & E & ->).

Ltac step_now H :=
  let a := fresh "t" in
  let st1 := fresh "st" in
  let E := fresh "E" in
  let w := fresh "w" in
  apply bind_ok_inv in H; destruct H as (a & st1 & E & H);
  apply Date_now_ok_inv in E; destruct E as (w & E & ->).

Section CallbackFacts.

Context {P : Platform}.

Lemma get_ok (v : jsval) (k : jsstring) (x : jsval) :
  get v k = Ok x -> x = prop v k.
Proof. destruct v; simpl; congruence. Qed.

Lemma fetch_alliance_ok corpData st allianceData st' :
  fetch_alliance corpData st = (Ok allianceData, st') ->
  get corpData (lit "alliance_id") = Ok (prop corpData (lit "alliance_id"))
  /\ (truthy (prop corpData (lit "alliance_id")) = false -> allianceData = JNull)
  /\ users st' = users st
  /\ trace st' = alliance_events corpData allianceData ++ trace st.
Proof.
  unfold fetch_alliance, alliance_events. intros H.
  step_lift H.
  pose proof (get_ok _ _ _ E) as ->.
  split; [exact E|].
  destruct (truthy (prop corpData (lit "alliance_id"))).
  - apply fetch_call_ok_inv in H. destruct H as (w & _ & ->). simpl.
    repeat split. discriminate.
  - apply ret_ok_inv in H. destruct H as [-> ->]. auto.
Qed.

(** What a completed link did. *)
Lemma link_account_ok code state env st resp st' :
  link_account code state env st = (Ok resp, st') ->
  exists text decoded authorization tokens characterInfo charData corpData
         allianceData t expiresAt t2 now params,
    atob state = Ok text /\ JSON.parse text = Ok decoded
    /\ btoa (EVE_CLIENT_ID env ++ 58%N :: EVE_CLIENT_SECRET env) = Ok authorization
    /\ truthy (prop tokens (lit "access_token")) = true
    /\ iso_after t (prop tokens (lit "expires_in")) = Ok expiresAt
    /\ toISOString t2 = Ok now
    /\ bind [prop decoded (lit "discord_id");
             prop decoded (lit "discord_username");
             prop characterInfo (lit "CharacterID");
             prop characterInfo (lit "CharacterName");
             prop corpData (lit "corporation_id");
             prop corpData (lit "name");
             prop corpData (lit "ticker");
             or_null (prop corpData (lit "alliance_id"));
             or_null (get_opt allianceData (lit "name"));
             or_null (get_opt allianceData (lit "ticker"));
             prop tokens (lit "access_token");
             prop tokens (lit "refresh_token");
             JStr expiresAt;
             JStr now;
             prop decoded (lit "discord_id");
             JStr now] = Ok params
    /\ insert_or_replace params (users st) = Ok (users st')
    /\ (truthy (prop corpData (lit "alliance_id")) = false -> allianceData = JNull)
    /\ trace st' =
         link_events authorization code tokens characterInfo charData corpData
           allianceData t t2 ++ trace st
    /\ status resp = 200.
Proof.
  unfold link_account. intros H.
  step_lift H. rename v into decoded.
  destruct (atob state) as [text|] eqn:Hatob; [|discriminate].
  step_lift H. apply get_ok in E0. subst v.
  step_lift H. apply get_ok in E0. subst v.
  unfold basic_authorization in H. step_lift H. rename v into authorization.
  step_fetch H. rename v into tokens.
  step_lift H. apply get_ok in E2. subst v.
  destruct (truthy (prop tokens (lit "access_token"))) eqn:Haccess;
    [|discriminate].
  cbn [negb] in H.
  step_fetch H. rename v into characterInfo.
  step_lift H. apply get_ok in E3. subst v.
  step_fetch H. rename v into charData.
  step_lift H. apply get_ok in E4. subst v.
  step_fetch H. rename v into corpData.
  step H. rename v into allianceData.
  apply fetch_alliance_ok in E5. destruct E5 as (_ & Hnone & Husers & Htrace).
  step_now H.
  step_lift H. apply get_ok in E6. subst v.
  step_lift H. rename v into expiresAt.
  unfold new_Date_toISOString in H.
  step H. step_now E7. apply lift_ok_inv in E7. destruct E7 as [E7 ->].
  rename v into now.
  step H. apply db_run_ok_inv in E9. destruct E9 as (params & tbl & Hbind & Hq & ->).
  apply ret_ok_inv in H. destruct H as [-> ->].
  cbn [world users trace] in *.
  exists text, decoded, authorization, tokens, characterInfo, charData, corpData,
    allianceData, t, expiresAt, t0, now, params.
  rewrite Husers in Hq. rewrite Htrace.
  repeat split; auto.
  unfold link_events. simpl. rewrite <- app_assoc. reflexivity.
Qed.

End CallbackFacts.

Section CallbackTheorems.

Context {P : Platform}.

(** The three ways the callback handler ends; it never throws. *)
Lemma handleAuthCallback_cases request env cors st r st' :
  handleAuthCallback request env cors st = (r, st') ->
  exists resp, r = Ok resp /\
    ((status resp = 400 /\ st' = st)
     \/ (status resp = 500 /\ users st' = users st
         /\ body resp <> NoBody
         /\ exists code state e,
              link_account code state env st = (Throw e, st'))
     \/ (status resp = 200
         /\ exists code state,
              searchParams_get (searchParams request) (lit "code") = Some code
              /\ searchParams_get (searchParams request) (lit "state") = Some state
              /\ link_account code state env st = (Ok resp, st'))).
Proof.
  unfold handleAuthCallback. intros H.
  destruct (absent (searchParams_get (searchParams request) (lit "code"))
            || absent (searchParams_get (searchParams request) (lit "state"))) eqn:Habs.
  - inversion H; subst. eexists. split; [reflexivity|]. left. auto.
  - apply orb_false_elim in Habs. destruct Habs as [Hc Hs].
    destruct (searchParams_get (searchParams request) (lit "code")) as [code|];
      [|discriminate].
    destruct (searchParams_get (searchParams request) (lit "state")) as [state|];
      [|discriminate].
    cbn [text_or_empty] in H. unfold try_catch in H.
    destruct (link_account code state env st) as [[resp|e] st1] eqn:E.
    + inversion H; subst. exists resp. split; [reflexivity|]. right. right.
      split; [|eauto].
      apply link_account_ok in E.
      destruct E as (? & ? & ? & ? & ? & ? & ? & ? & ? & ? & ? & ? & ?
                     & _ & _ & _ & _ & _ & _ & _ & _ & _ & _ & E).
      exact E.
    + inversion H; subst. eexists. split; [reflexivity|]. right. left.
      cbn [status body]. repeat split.
      * eapply atomic_link_account, E.
      * discriminate.
      * eauto.
Qed.

(** A callback that does not answer 200 leaves the table as it was. *)
Lemma handleAuthCallback_failure_keeps_table request env cors st resp st' :
  handleAuthCallback request env cors st = (Ok resp, st') ->
  status resp <> 200 -> users st' = users st.
Proof.
  intros H Hs. apply handleAuthCallback_cases in H.
  destruct H as (resp' & Hr & [[_ ->] | [(_ & Hu & _) | (H200 & _)]]);
    inversion Hr; subst; auto. contradiction.
Qed.

Lemma link_events_answered a c tokens characterInfo charData corpData allianceData t t2 :
  Forall answered
    (link_events a c tokens characterInfo charData corpData allianceData t t2).
Proof.
  unfold link_events, alliance_events.
  destruct (truthy (prop corpData (lit "alliance_id"))); simpl;
    repeat constructor.
Qed.

(** The only answer of the token endpoint in a completed link carries an
    access token. *)
Lemma link_events_token a c tokens characterInfo charData corpData allianceData t t2
    a' c' answer :
  In (Fetched (TokenByCode a' c') answer)
    (link_events a c tokens characterInfo charData corpData allianceData t t2) ->
  answer = Ok tokens.
Proof.
  unfold link_events, alliance_events.
  destruct (truthy (prop corpData (lit "alliance_id"))); simpl;
    intros H; repeat (destruct H as [H|H]; [try discriminate H|]);
    try contradiction; congruence.
Qed.

Lemma link_events_corporation a c tokens characterInfo charData corpData allianceData
    t t2 cid answer :
  In (Fetched (Corporation cid) answer)
    (link_events a c tokens characterInfo charData corpData allianceData t t2) ->
  answer = Ok corpData.
Proof.
  unfold link_events, alliance_events.
  destruct (truthy (prop corpData (lit "alliance_id"))); simpl;
    intros H; repeat (destruct H as [H|H]; [try discriminate H|]);
    try contradiction; congruence.
Qed.

(** C6. In the callback handler, when the token endpoint answers with a
    body that lacks an access token, the callback fails (status 500) and
    the table is left exactly as it was: no record is created or
    modified. *)
Theorem callback_without_access_token_keeps_store
    request env cors st r st' new authorization code tokens :
  handleAuthCallback request env cors st = (r, st') ->
  trace st' = new ++ trace st ->
  In (Fetched (TokenByCode authorization code) (Ok tokens)) new ->
  truthy (prop tokens (lit "access_token")) = false ->
  exists resp, r = Ok resp /\ status resp = 500 /\ users st' = users st.
Proof.
  intros H Hnew Hin Hlack.
  apply handleAuthCallback_cases in H.
  destruct H as (resp & -> & [[_ ->] | [(H500 & Hu & _) | (_ & c & s & _ & _ & Hok)]]).
  - exfalso. rewrite <- (app_nil_l (trace st)) in Hnew at 1.
    apply app_inv_tail in Hnew. subst new. contradiction.
  - eauto.
  - exfalso. apply link_account_ok in Hok.
    destruct Hok as (text & decoded & a & tokens' & characterInfo & charData & corpData
                     & allianceData & t & expiresAt & t2 & now & params
                     & _ & _ & _ & Haccess & _ & _ & _ & _ & _ & Htrace & _).
    rewrite Htrace in Hnew. apply app_inv_tail in Hnew. subst new.
    apply link_events_token in Hin. congruence.
Qed.

(** C1, as the code has it. In the callback handler, when the
    authorization-code exchange has succeeded and a later lookup
    (character, corporation or alliance, or the verification) throws,
    the whole callback fails with status 500 and the table is left
    exactly as it was: the token pair is not persisted. *)
Theorem callback_lookup_failure_fails_whole_callback
    request env cors st r st' new q e :
  handleAuthCallback request env cors st = (r, st') ->
  trace st' = new ++ trace st ->
  In (Fetched q (Throw e)) new ->
  exists resp, r = Ok resp /\ status resp = 500 /\ users st' = users st.
Proof.
  intros H Hnew Hin.
  apply handleAuthCallback_cases in H.
  destruct H as (resp & -> & [[_ ->] | [(H500 & Hu & _) | (_ & c & s & _ & _ & Hok)]]).
  - exfalso. rewrite <- (app_nil_l (trace st)) in Hnew at 1.
    apply app_inv_tail in Hnew. subst new. contradiction.
  - eauto.
  - exfalso. apply link_account_ok in Hok.
    destruct Hok as (text & decoded & a & tokens' & characterInfo & charData & corpData
                     & allianceData & t & expiresAt & t2 & now & params
                     & _ & _ & _ & _ & _ & _ & _ & _ & _ & Htrace & _).
    rewrite Htrace in Hnew. apply app_inv_tail in Hnew. subst new.
    pose proof (link_events_answered a c tokens' characterInfo charData corpData
                  allianceData t t2) as Hall.
    rewrite Forall_forall in Hall. apply (Hall _ Hin).
Qed.

End CallbackTheorems.

Lemma bind_cons_inv v vs ps :
  bind (v :: vs) = Ok ps ->
  exists x xs, bind_value v = Ok x /\ bind vs = Ok xs /\ ps = x :: xs.
Proof.
  simpl. destruct (bind_value v) as [x|]; [|discriminate].
  destruct (bind vs) as [xs|]; [|discriminate].
  intros H. inversion H. eauto.
Qed.

Lemma bind_nil_inv ps : bind [] = Ok ps -> ps = [].
Proof. simpl. congruence. Qed.

(** Splits [bind [v1; ...; vn] = Ok params] into one fact per argument. *)
Ltac bind_inv H :=
  repeat (let x := fresh "p" in
          let Hx := fresh "Hp" in
          apply bind_cons_inv in H; destruct H as (x & ? & Hx & H & ->));
  try (apply bind_nil_inv in H; subst).

(** The row an INSERT OR REPLACE writes. *)
Lemma insert_or_replace_ok p1 p2 p3 p4 p5 p6 p7 p8 p9 p10 p11 p12 p13 p14 p15 p16 t t' :
  insert_or_replace [p1; p2; p3; p4; p5; p6; p7; p8; p9; p10; p11; p12; p13; p14; p15; p16] t
    = Ok t' ->
  exists kept row,
    rows t' = filter (fun x => negb (sql_eqb (discord_id x) (text_affinity p1))) (rows t)
                ++ [row]
    /\ last_rowid t' = last_rowid t + 1
    /\ kept = match select_user p15 t with
              | old :: _ => if is_null (created_at old) then p16 else created_at old
              | [] => p16
              end
    /\ row = {| id := last_rowid t + 1;
                discord_id := text_affinity p1;
                discord_username := text_affinity p2;
                eve_character_id := integer_affinity p3;
                eve_character_name := text_affinity p4;
                eve_corporation_id := integer_affinity p5;
                eve_corporation_name := text_affinity p6;
                eve_corporation_ticker := text_affinity p7;
                eve_alliance_id := integer_affinity p8;
                eve_alliance_name := text_affinity p9;
                eve_alliance_ticker := text_affinity p10;
                access_token := text_affinity p11;
                refresh_token := text_affinity p12;
                token_expires_at := text_affinity p13;
                last_updated := text_affinity p14;
                created_at := text_affinity kept |}
    /\ not_null_ok row = true.
Proof.
  unfold insert_or_replace.
  match goal with |- context [if not_null_ok ?r then _ else _] =>
    destruct (not_null_ok r) eqn:Hnn end; [|discriminate].
  intros H. inversion H; subst; clear H. cbn [rows last_rowid discord_id].
  do 2 eexists. repeat split. exact Hnn.
Qed.

Section ExpiryTheorem.

Context {P : Platform}.

Lemma iso_after_num t n s :
  iso_after t (JNum n) = Ok s -> s = iso_string (t + n * 1000).
Proof.
  unfold iso_after, toISOString. cbn [to_number].
  destruct ((- maxTime <=? t + n * 1000) && (t + n * 1000 <=? maxTime));
    intros H; inversion H; reflexivity.
Qed.

(** C7. For a callback that succeeds (status 200), where the token
    endpoint returned [expires_in = n] and the corporation that was
    resolved has no alliance: the handler read the clock twice, [t] then
    [t2], after the lookups, and the record it wrote (a fresh row, last
    in the table) has [token_expires_at] the ISO text of [t] plus [n]
    seconds and all three alliance columns NULL. *)
Theorem callback_sets_expiry_and_no_alliance
    request env cors st resp st' new authorization code tokens n cid corpData :
  handleAuthCallback request env cors st = (Ok resp, st') ->
  status resp = 200 ->
  trace st' = new ++ trace st ->
  In (Fetched (TokenByCode authorization code) (Ok tokens)) new ->
  prop tokens (lit "expires_in") = JNum n ->
  In (Fetched (Corporation cid) (Ok corpData)) new ->
  truthy (prop corpData (lit "alliance_id")) = false ->
  exists t t2 older others row,
    new = Queried InsertOrReplaceUser :: Now t2 :: Now t :: older
    /\ rows (users st') = others ++ [row]
    /\ id row = last_rowid (users st) + 1
    /\ token_expires_at row = SText (iso_string (t + n * 1000))
    /\ eve_alliance_id row = SNull
    /\ eve_alliance_name row = SNull
    /\ eve_alliance_ticker row = SNull.
Proof.
  intros H H200 Hnew Htok Hexp Hcorp Hnoall.
  apply handleAuthCallback_cases in H.
  destruct H as (resp' & Hr & [[H400 _] | [(H500 & _) | (_ & c & s & _ & _ & Hok)]]);
    inversion Hr; subst resp'; try congruence.
  apply link_account_ok in Hok.
  destruct Hok as (text & decoded & a & tokens' & characterInfo & charData & corpData'
                   & allianceData & t & expiresAt & t2 & now & params
                   & _ & _ & _ & _ & Hiso & _ & Hbind & Hins & Hnone & Htrace & _).
  rewrite Htrace in Hnew. apply app_inv_tail in Hnew. subst new.
  apply link_events_token in Htok. inversion Htok; subst tokens'.
  apply link_events_corporation in Hcorp. inversion Hcorp; subst corpData'.
  rewrite Hexp in Hiso. apply iso_after_num in Hiso. subst expiresAt.
  specialize (Hnone Hnoall). subst allianceData.
  unfold or_null in Hbind. rewrite Hnoall in Hbind. cbn [get_opt truthy] in Hbind.
  bind_inv Hbind.
  apply insert_or_replace_ok in Hins.
  destruct Hins as (kept & row & Hrows & _ & _ & Hrow & _).
  exists t, t2. eexists. eexists. exists row.
  split; [unfold link_events; reflexivity|].
  split; [exact Hrows|].
  cbn in Hp6, Hp7, Hp8, Hp11.
  inversion Hp6; inversion Hp7; inversion Hp8; inversion Hp11; subst.
  cbn. auto.
Qed.

End ExpiryTheorem.

(* ===================================================================== *)
(** * Facts about the table *)
(* ===================================================================== *)

Lemma is_text_inv v : is_text v = true -> exists s, v = SText s.
Proof. destruct v; simpl; intros H; try discriminate. eauto. Qed.

Lemma sql_eqb_text (a b : sqlval) :
  is_text a = true -> is_text b = true -> (sql_eqb a b = true <-> a = b).
Proof.
  intros Ha Hb. apply is_text_inv in Ha, Hb. destruct Ha as [x ->], Hb as [y ->].
  simpl. rewrite str_eqb_eq. split; congruence.
Qed.

Lemma text_affinity_is_text v : is_text v = true -> text_affinity v = v.
Proof. destruct v; simpl; congruence. Qed.

Lemma matches_text key r :
  is_text key = true -> is_text (discord_id r) = true ->
  (matches key r = true <-> discord_id r = key).
Proof.
  intros Hk Hr. unfold matches. rewrite (text_affinity_is_text _ Hk).
  apply sql_eqb_text; assumption.
Qed.

Lemma distinct_NoDup keys :
  forallb is_text keys = true -> distinct keys = true -> NoDup keys.
Proof.
  induction keys as [|k rest IH]; simpl; intros Ht Hd; [constructor|].
  apply andb_true_iff in Ht, Hd. destruct Ht as [Hk Ht], Hd as [Hn Hd].
  constructor; [|auto].
  intros Hin. apply negb_true_iff in Hn.
  assert (existsb (sql_eqb k) rest = true); [|congruence].
  apply existsb_exists. exists k. split; [exact Hin|].
  apply sql_eqb_text; auto.
Qed.

Lemma NoDup_distinct keys :
  forallb is_text keys = true -> NoDup keys -> distinct keys = true.
Proof.
  induction keys as [|k rest IH]; simpl; intros Ht Hd; [reflexivity|].
  apply andb_true_iff in Ht. destruct Ht as [Hk Ht].
  inversion Hd; subst. rewrite IH by assumption. rewrite andb_true_r.
  apply negb_true_iff. destruct (existsb (sql_eqb k) rest) eqn:E; [|reflexivity].
  apply existsb_exists in E. destruct E as (x & Hx & Heq).
  rewrite forallb_forall in Ht.
  apply sql_eqb_text in Heq; auto. congruence.
Qed.

Lemma well_formed_inv t :
  well_formed t = true ->
  Forall (fun r => is_text (discord_id r) = true /\ is_text (created_at r) = true) (rows t)
  /\ NoDup (map discord_id (rows t)).
Proof.
  unfold well_formed. intros H. apply andb_true_iff in H. destruct H as [Hf Hd].
  assert (Forall (fun r => is_text (discord_id r) = true
                           /\ is_text (created_at r) = true) (rows t)) as HF.
  { apply Forall_forall. intros r Hr. rewrite forallb_forall in Hf.
    apply andb_true_iff. auto. }
  split; [exact HF|].
  apply distinct_NoDup; [|exact Hd].
  apply forallb_forall. intros k Hk. apply in_map_iff in Hk.
  destruct Hk as (r & <- & Hr). rewrite Forall_forall in HF. apply HF, Hr.
Qed.

Lemma well_formed_intro t :
  Forall (fun r => is_text (discord_id r) = true /\ is_text (created_at r) = true) (rows t) ->
  NoDup (map discord_id (rows t)) ->
  well_formed t = true.
Proof.
  intros HF Hd. unfold well_formed. apply andb_true_iff. split.
  - apply forallb_forall. intros r Hr. rewrite Forall_forall in HF.
    apply andb_true_iff. auto.
  - apply NoDup_distinct; [|exact Hd].
    apply forallb_forall. intros k Hk. apply in_map_iff in Hk.
    destruct Hk as (r & <- & Hr). rewrite Forall_forall in HF. apply HF, Hr.
Qed.

(** Rows selected from a table with UNIQUE keys have unique keys. *)
Lemma selected_keys_unique (keep : Row -> bool) (table : list Row) :
  NoDup (map discord_id table) -> NoDup (map discord_id (filter keep table)).
Proof.
  induction table as [|x table IH]; cbn [filter map]; intros Hunique; [constructor|].
  inversion Hunique as [|? ? Hfresh Hrest]; subst.
  destruct (keep x); cbn [map]; [|auto].
  constructor; [|auto].
  rewrite in_map_iff. intros (y & Hy & Hin).
  apply filter_In in Hin. apply Hfresh. rewrite <- Hy. apply in_map, Hin.
Qed.




(** ** UPDATE *)

Lemma update_user_ok p1 p2 p3 p4 p5 p6 p7 p8 p9 p10 p11 t t' :
  update_user [p1; p2; p3; p4; p5; p6; p7; p8; p9; p10; p11] t = Ok t' ->
  rows t' = map (fun r => if matches p11 r
                          then assign p1 p2 p3 p4 p5 p6 p7 p8 p9 p10 r
                          else r) (rows t)
  /\ last_rowid t' = last_rowid t.
Proof.
  unfold update_user.
  match goal with |- context [if ?c then _ else _] => destruct c end;
    [discriminate|].
  intros H. inversion H; subst. auto.
Qed.

Lemma frame_assign p1 p2 p3 p4 p5 p6 p7 p8 p9 p10 r :
  frame (assign p1 p2 p3 p4 p5 p6 p7 p8 p9 p10 r) = frame r.
Proof. reflexivity. Qed.

Lemma update_user_frame params t t' :
  update_user params t = Ok t' ->
  map frame (rows t') = map frame (rows t) /\ last_rowid t' = last_rowid t.
Proof.
  intros H.
  do 11 (destruct params as [|? params]; [discriminate H|]).
  destruct params; [|discriminate H].
  apply update_user_ok in H. destruct H as [-> ->]. split; [|reflexivity].
  rewrite map_map. apply map_ext. intros r.
  destruct (matches s9 r); reflexivity.
Qed.

(** A row the key does not match is left as it is. *)
Lemma update_user_other p1 p2 p3 p4 p5 p6 p7 p8 p9 p10 key t t' r :
  update_user [p1; p2; p3; p4; p5; p6; p7; p8; p9; p10; key] t = Ok t' ->
  In r (rows t) -> matches key r = false -> In r (rows t').
Proof.
  intros H Hin Hm. apply update_user_ok in H. destruct H as [-> _].
  apply in_map_iff. exists r. rewrite Hm. auto.
Qed.

Lemma map_through_frame {B} (h : Row -> B)
    (g : Z * sqlval * sqlval * sqlval * sqlval * sqlval -> B) (l l' : list Row) :
  (forall r, h r = g (frame r)) ->
  map frame l' = map frame l -> map h l' = map h l.
Proof.
  intros Hg Hf.
  rewrite (map_ext h (fun r => g (frame r)) Hg l').
  rewrite (map_ext h (fun r => g (frame r)) Hg l).
  rewrite <- (map_map frame g l'), <- (map_map frame g l), Hf. reflexivity.
Qed.

Lemma frame_well_formed t t' :
  map frame (rows t') = map frame (rows t) ->
  well_formed t = true -> well_formed t' = true.
Proof.
  intros Hf Hw. apply well_formed_inv in Hw. destruct Hw as [HF Hd].
  assert (map discord_id (rows t') = map discord_id (rows t)) as Hids.
  { apply (map_through_frame discord_id (fun x => snd (fst (fst (fst (fst x))))));
      [reflexivity | exact Hf]. }
  apply well_formed_intro; [|rewrite Hids; exact Hd].
  apply Forall_forall. intros r Hr.
  assert (In (frame r) (map frame (rows t))) as Hin.
  { rewrite <- Hf. apply in_map, Hr. }
  apply in_map_iff in Hin. destruct Hin as (r0 & Heq & Hr0).
  rewrite Forall_forall in HF. specialize (HF _ Hr0).
  unfold frame in Heq. injection Heq as _ Hid _ _ _ Hcr.
  rewrite <- Hid, <- Hcr. exact HF.
Qed.


(** ** INSERT OR REPLACE *)


(* ===================================================================== *)
(** * The refresh sweep *)
(* ===================================================================== *)

Lemma dones_app a b : dones (a ++ b) = dones a ++ dones b.
Proof. induction a as [|[x|x] a IH]; simpl; congruence. Qed.

Lemma losts_app a b : losts (a ++ b) = losts a ++ losts b.
Proof. induction a as [|[x|x] a IH]; simpl; congruence. Qed.

Lemma refresh_requests_app a b :
  refresh_requests (a ++ b) = refresh_requests a ++ refresh_requests b.
Proof. apply flat_map_app. Qed.

Lemma attempts_cons env user rest :
  attempts env (user :: rest) = attempts env [user] ++ attempts env rest.
Proof. unfold attempts. destruct (btoa _); reflexivity. Qed.


Section SweepFacts.

Context {P : Platform}.


Lemma quiet_ret {A} (a : A) : quiet (ret a).
Proof. intros st r st' H. inversion H; subst. exists []. auto. Qed.

Lemma quiet_throw {A} (e : exn) : quiet (@throw P A e).
Proof. intros st r st' H. inversion H; subst. exists []. auto. Qed.

Lemma quiet_lift {A} (r : res A) : quiet (lift r).
Proof. intros st x st' H. inversion H; subst. exists []. auto. Qed.

Lemma quiet_Date_now : quiet Date_now.
Proof.
  intros st r st' H. unfold Date_now in H.
  destruct (date_now (world st)) as [t w]. inversion H. exists [Now t]. auto.
Qed.

Lemma quiet_fetch_call q :
  (forall a rt, q <> TokenByRefresh a rt) -> quiet (fetch_call q).
Proof.
  intros Hq st r st' H. unfold fetch_call in H.
  destruct (fetch_json q (world st)) as [x w]. inversion H; subst.
  exists [Fetched q r]. split; [reflexivity|].
  destruct q; try reflexivity. exfalso. eapply Hq. reflexivity.
Qed.

Lemma quiet_db_run name args q : quiet (db_run name args q).
Proof.
  intros st r st' H. unfold db_run in H.
  destruct (bind args); [|inversion H; subst; exists []; auto].
  destruct (q a (users st)); inversion H; exists [Queried name]; auto.
Qed.

Lemma quiet_bind {A B} (m : M A) (k : A -> M B) :
  quiet m -> (forall a, quiet (k a)) -> quiet (bind_M m k).
Proof.
  intros Hm Hk st r st' H. unfold bind_M in H.
  destruct (m st) as [[a|e] st1] eqn:E.
  - destruct (Hm _ _ _ E) as (n1 & T1 & R1).
    destruct (Hk _ _ _ _ H) as (n2 & T2 & R2).
    exists (n2 ++ n1). rewrite T2, T1, app_assoc, refresh_requests_app, R1, R2. auto.
  - inversion H; subst. eapply Hm, E.
Qed.

Lemma quiet_if {A} (b : bool) (m1 m2 : M A) :
  quiet m1 -> quiet m2 -> quiet (if b then m1 else m2).
Proof. destruct b; auto. Qed.

#[local] Hint Resolve quiet_ret quiet_throw quiet_lift quiet_Date_now quiet_db_run
  quiet_bind quiet_if : handlers.

Lemma quiet_fetch_alliance corpData : quiet (fetch_alliance corpData).
Proof.
  unfold fetch_alliance. apply quiet_bind; [auto with handlers|]. intros a.
  apply quiet_if; [|auto with handlers]. apply quiet_fetch_call. discriminate.
Qed.

(** One record of the sweep, whatever comes of it, makes exactly one
    refresh-token exchange, with the record's own refresh token; none
    when the client credentials cannot be encoded. *)
Lemma refresh_user_requests now user env st r st' :
  refresh_user now user env st = (r, st') ->
  exists new, trace st' = new ++ trace st
    /\ refresh_requests new = attempts env [user].
Proof.
  intros H. unfold refresh_user, basic_authorization in H.
  unfold attempts.
  unfold bind_M at 1 in H. unfold lift at 1 in H.
  destruct (btoa (EVE_CLIENT_ID env ++ 58%N :: EVE_CLIENT_SECRET env))
    as [authorization|e0]; [|inversion H; subst; exists []; auto].
  unfold bind_M at 1 in H. unfold fetch_call at 1 in H.
  destruct (fetch_json _ (world st)) as [answer w] eqn:E.
  set (st1 := {| world := w; users := users st;
                 trace := Fetched (TokenByRefresh authorization
                                     (js_of_sql (refresh_token user))) answer
                          :: trace st |}) in H.
  destruct answer as [tokens|e].
  - match type of H with
    | ?m st1 = _ => assert (quiet m) as Hq
    end.
    { apply quiet_bind; [auto with handlers|]. intros a.
      apply quiet_if; [auto with handlers|].
      apply quiet_bind; [apply quiet_fetch_call; discriminate|]. intros c.
      apply quiet_bind; [auto with handlers|]. intros d.
      apply quiet_bind; [apply quiet_fetch_call; discriminate|]. intros c'.
      apply quiet_bind; [apply quiet_fetch_alliance|]. intros al.
      auto 12 with handlers. }
    destruct (Hq _ _ _ H) as (n & T & Rq). subst st1. cbn [trace] in T.
    eexists (n ++ [_]). rewrite T, <- app_assoc. split; [reflexivity|].
    rewrite refresh_requests_app, Rq. reflexivity.
  - inversion H; subst. subst st1. cbn [trace].
    eexists [_]. split; reflexivity.
Qed.

(** What a refreshed record went through. *)
Lemma refresh_user_ok now user env st item st' :
  refresh_user now user env st = (Ok item, st') ->
  refreshed_discord_id item = js_of_sql (discord_id user)
  /\ exists p1 p2 p3 p4 p5 p6 p7 p8 p9 p10,
       update_user [p1; p2; p3; p4; p5; p6; p7; p8; p9; p10; discord_id user] (users st)
         = Ok (users st').
Proof.
  unfold refresh_user. intros H.
  unfold basic_authorization in H. step_lift H.
  step_fetch H. rename v0 into tokens.
  step_lift H.
  destruct (truthy v0); [|discriminate]. cbn [negb] in H.
  step_fetch H. step_lift H. step_fetch H.
  step H. apply fetch_alliance_ok in E5. destruct E5 as (_ & _ & Husers & _).
  step_now H. step_lift H. step_lift H.
  step H. apply db_run_ok_inv in E8. destruct E8 as (params & tbl & Hbind & Hq & ->).
  apply ret_ok_inv in H. destruct H as [-> ->].
  cbn [world users trace refreshed_discord_id] in *.
  split; [reflexivity|].
  bind_inv Hbind. rewrite bind_value_js_of_sql in Hp9. inversion Hp9; subst.
  rewrite Husers in Hq. eauto 12.
Qed.

(** The loop never throws; its result is the two arrays it was given,
    extended in step with the table, and it makes the exchanges it is
    to make. *)
Lemma refresh_each_swept now results env :
  forall refreshed failed st r st',
    refresh_each now results env refreshed failed st = (r, st') ->
    exists outs new,
      r = Ok (refreshed ++ dones outs, failed ++ losts outs)
      /\ swept (users st) results outs (users st')
      /\ trace st' = new ++ trace st
      /\ refresh_requests new = rev (attempts env results).
Proof.
  induction results as [|user rest IH]; intros refreshed failed st r st' H.
  - cbn in H. inversion H; subst. exists [], []. cbn. rewrite !app_nil_r.
    split; [reflexivity|]. split; [constructor|].
    unfold attempts. destruct (btoa _); auto.
  - cbn [refresh_each] in H. unfold bind_M at 1, try_catch in H.
    unfold bind_M at 1 in H.
    destruct (refresh_user now user env st) as [[item|e] st1] eqn:E;
      pose proof (refresh_user_requests _ _ _ _ _ _ E) as (n1 & T1 & R1);
      cbn in H; apply IH in H; destruct H as (outs & n2 & -> & Hs & T2 & R2).
    + apply refresh_user_ok in E. destruct E as (Hkey & p1 & p2 & p3 & p4 & p5 & p6
                                                 & p7 & p8 & p9 & p10 & Hup).
      exists (Done item :: outs), (n2 ++ n1). cbn. rewrite <- !app_assoc. cbn.
      split; [reflexivity|]. split; [econstructor; eauto|].
      rewrite T2, T1, app_assoc, refresh_requests_app, R1, R2.
      rewrite (attempts_cons env user rest), rev_app_distr.
      split; [reflexivity|]. f_equal.
      unfold attempts. destruct (btoa _); reflexivity.
    + apply atomic_refresh_user in E. rewrite E in Hs.
      eexists (Lost _ :: outs), (n2 ++ n1). cbn. rewrite <- !app_assoc. cbn.
      split; [reflexivity|]. split; [constructor; exact Hs|].
      rewrite T2, T1, app_assoc, refresh_requests_app, R1, R2.
      rewrite (attempts_cons env user rest), rev_app_distr.
      split; [reflexivity|]. f_equal.
      unfold attempts. destruct (btoa _); reflexivity.
Qed.

(** What a run of the sweep has done: it throws only when one of its
    two dates has no ISO text, before anything else is done; otherwise
    it answers 200 with the two arrays. *)
Lemma refreshAuthTokens_spec env cors st r st' :
  refreshAuthTokens env cors st = (r, st') ->
  let t0 := fst (date_now (world st)) in
  let t := fst (date_now (snd (date_now (world st)))) in
  (exists e, r = Throw e /\ users st' = users st
             /\ (toISOString t0 = Throw e \/ toISOString (t + refresh_horizon) = Throw e))
  \/ exists outs new,
       toISOString (t + refresh_horizon) = Ok (iso_string (t + refresh_horizon))
       /\ r = Ok {| status := 200; headers := json_headers cors;
                    body := JsonRefresh (dones outs) (losts outs) |}
       /\ swept (users st)
            (select_expiring (SText (iso_string (t + refresh_horizon))) (users st))
            outs (users st')
       /\ trace st' = new ++ trace st
       /\ rev (refresh_requests new)
          = attempts env
              (select_expiring (SText (iso_string (t + refresh_horizon))) (users st)).
Proof.
  unfold refreshAuthTokens, new_Date_toISOString. intros H.
  unfold bind_M at 1 in H. unfold bind_M at 1 in H. unfold Date_now at 1 in H.
  destruct (date_now (world st)) as [t0 w1] eqn:E0.
  unfold lift at 1 in H. cbn [fst snd].
  destruct (toISOString t0) as [now|e] eqn:Enow;
    [|left; inversion H; subst; eauto].
  unfold bind_M at 1 in H. unfold Date_now at 1 in H. cbn [world] in H.
  destruct (date_now w1) as [t w2] eqn:E1.
  unfold bind_M at 1 in H. unfold lift at 1 in H. cbn [fst].
  destruct (toISOString (t + refresh_horizon)) as [bound|e] eqn:Ebound;
    [|left; inversion H; subst; eauto].
  assert (bound = iso_string (t + refresh_horizon)) as ->.
  { unfold toISOString in Ebound.
    destruct ((- maxTime <=? t + refresh_horizon) && (t + refresh_horizon <=? maxTime));
      inversion Ebound; reflexivity. }
  unfold bind_M at 1 in H. unfold db_all at 1 in H. cbn [bind bind_value] in H.
  unfold bind_M at 1 in H.
  match type of H with
  | context [refresh_each ?n ?rs ?e ?a ?b ?s] =>
      destruct (refresh_each n rs e a b s) as [r1 st1] eqn:Eloop
  end.
  apply refresh_each_swept in Eloop. destruct Eloop as (outs & n & -> & Hs & T & Rq).
  unfold ret in H. cbn [fst snd] in H. inversion H; subst. right.
  unfold log in Hs, T. cbn [users trace] in Hs, T.
  exists outs, (n ++ [Queried SelectExpiring; Now t; Now t0]).
  rewrite T, <- app_assoc.
  repeat split; auto.
  rewrite refresh_requests_app, Rq. cbn [refresh_requests flat_map app].
  rewrite app_nil_r, rev_involutive. reflexivity.
Qed.

(** A sweep whose clock is at least the lookahead before the end of the
    range of dates does not throw. *)
Lemma refreshAuthTokens_returns env cors st :
  fst (date_now (snd (date_now (world st)))) + refresh_horizon <= maxTime ->
  exists resp st', refreshAuthTokens env cors st = (Ok resp, st').
Proof.
  intros Hclock.
  destruct (refreshAuthTokens env cors st) as [r st'] eqn:H.
  pose proof (refreshAuthTokens_spec _ _ _ _ _ H) as Hspec. cbv zeta in Hspec.
  destruct Hspec as [(e & -> & _ & Hthrow) | (outs & new & _ & -> & _)]; [|eauto].
  exfalso.
  pose proof (date_now_valid (world st)) as V0.
  pose proof (date_now_valid (snd (date_now (world st)))) as V1.
  unfold valid_time in V0, V1. unfold toISOString in Hthrow.
  rewrite V0 in Hthrow. destruct Hthrow as [Hthrow|Hthrow]; [discriminate|].
  apply andb_true_iff in V1. destruct V1 as [V1 _]. apply Z.leb_le in V1.
  match type of Hthrow with
  | (if ?c then _ else _) = _ => assert (c = true) as Hc
  end.
  { apply andb_true_iff. split; apply Z.leb_le; [|exact Hclock].
    unfold refresh_horizon. lia. }
  rewrite Hc in Hthrow. discriminate.
Qed.

End SweepFacts.

(** ** The table along a sweep *)

Lemma swept_frame t results outs t' :
  swept t results outs t' ->
  map frame (rows t') = map frame (rows t) /\ last_rowid t' = last_rowid t.
Proof.
  induction 1 as [t | t user rest item p1 p2 p3 p4 p5 p6 p7 p8 p9 p10 t1 outs t' Hk Hu Hs IH
                    | t user rest e outs t' Hs IH].
  - auto.
  - apply update_user_frame in Hu. destruct Hu as [Hf Hl], IH as [Hf' Hl'].
    split; congruence.
  - exact IH.
Qed.

Lemma swept_keys t results outs t' :
  swept t results outs t' ->
  Forall2 (fun user o => outcome_key o = js_of_sql (discord_id user)) results outs.
Proof. induction 1; constructor; auto. Qed.

(** A row that no selected record's key matches is left as it is. *)
Lemma swept_other t results outs t' r :
  swept t results outs t' ->
  In r (rows t) ->
  (forall user, In user results -> matches (discord_id user) r = false) ->
  In r (rows t').
Proof.
  induction 1 as [t | t user rest item p1 p2 p3 p4 p5 p6 p7 p8 p9 p10 t1 outs t' Hk Hu Hs IH
                    | t user rest e outs t' Hs IH]; intros Hr Hno.
  - exact Hr.
  - apply IH; [|intros u Hu'; apply Hno; right; exact Hu'].
    eapply update_user_other; eauto. apply Hno. left. reflexivity.
  - apply IH; [exact Hr|]. intros u Hu'. apply Hno. right. exact Hu'.
Qed.

Lemma losts_key results outs f :
  Forall2 (fun user o => outcome_key o = js_of_sql (discord_id user)) results outs ->
  In f (losts outs) ->
  exists user, In user results /\ failed_discord_id f = js_of_sql (discord_id user).
Proof.
  induction 1 as [|user o rest outs Hk HF IH]; simpl; [intros []|].
  destruct o as [item|item]; simpl.
  - intros Hin. destruct (IH Hin) as (u & Hu & Hf). exists u. auto.
  - intros [<-|Hin].
    + exists user. auto.
    + destruct (IH Hin) as (u & Hu & Hf). exists u. auto.
Qed.

(** A record whose refresh failed is, after the sweep, the row it was:
    the selected records have pairwise different text keys. *)
Lemma swept_lost_unchanged t results outs t' :
  swept t results outs t' ->
  NoDup (map discord_id results) ->
  (forall user, In user results -> is_text (discord_id user) = true) ->
  forall r f,
    In r (rows t) -> In f (losts outs) ->
    failed_discord_id f = js_of_sql (discord_id r) ->
    In r (rows t').
Proof.
  induction 1 as [t | t user rest item p1 p2 p3 p4 p5 p6 p7 p8 p9 p10 t1 outs t' Hk Hu Hs IH
                    | t user rest e outs t' Hs IH];
    intros Hnd Htxt r f Hr Hf Hkey.
  - destruct Hf.
  - inversion Hnd as [|? ? Hni Hnd']; subst.
    cbn [losts] in Hf.
    destruct (losts_key _ _ _ (swept_keys _ _ _ _ Hs) Hf) as (u & Hu' & Hfu).
    assert (discord_id r = discord_id u) as Hru
      by (apply js_of_sql_inj; congruence).
    apply (IH Hnd' (fun x Hx => Htxt x (or_intror Hx)) r f); auto.
    eapply update_user_other; eauto.
    destruct (matches (discord_id user) r) eqn:Em; [|reflexivity].
    apply matches_text in Em.
    + exfalso. apply Hni. rewrite <- Em, Hru. apply in_map, Hu'.
    + apply Htxt. left. reflexivity.
    + rewrite Hru. apply Htxt. right. exact Hu'.
  - inversion Hnd as [|? ? Hni Hnd']; subst.
    cbn [losts] in Hf. destruct Hf as [<-|Hf].
    + cbn [failed_discord_id] in Hkey. apply js_of_sql_inj in Hkey.
      eapply swept_other; eauto.
      intros u Hu'.
      destruct (matches (discord_id u) r) eqn:Em; [|reflexivity].
      apply matches_text in Em.
      * exfalso. apply Hni. rewrite Hkey, Em. apply in_map, Hu'.
      * apply Htxt. right. exact Hu'.
      * rewrite <- Hkey. apply Htxt. left. reflexivity.
    + apply (IH Hnd' (fun x Hx => Htxt x (or_intror Hx)) r f); auto.
Qed.

(** The order of the index rearranges the rows and does no more. *)
Lemma insert_by_expiry_Permutation (r : Row) (l : list Row) :
  Permutation (insert_by_expiry r l) (r :: l).
Proof.
  induction l as [|x l IH]; cbn [insert_by_expiry]; [reflexivity|].
  destruct (sql_leb (token_expires_at r) (token_expires_at x)); [reflexivity|].
  rewrite IH. apply perm_swap.
Qed.

Lemma order_by_expiry_Permutation (l : list Row) :
  Permutation (order_by_expiry l) l.
Proof.
  unfold order_by_expiry. induction l as [|r l IH]; cbn [fold_right]; [reflexivity|].
  rewrite insert_by_expiry_Permutation. constructor. exact IH.
Qed.

(** The rows of the expiring-record query are the rows of the table that
    satisfy its condition, each as often as the table holds it. *)
Lemma select_expiring_Permutation bound t :
  Permutation (select_expiring bound t)
    (filter (fun r => sql_leb (token_expires_at r) (text_affinity bound)) (rows t)).
Proof. unfold select_expiring. apply order_by_expiry_Permutation. Qed.

Lemma select_expiring_In bound t r :
  In r (select_expiring bound t) <->
  In r (rows t) /\ sql_leb (token_expires_at r) (text_affinity bound) = true.
Proof.
  rewrite <- (filter_In (fun r => sql_leb (token_expires_at r) (text_affinity bound))).
  split; apply Permutation_in;
    [|apply Permutation_sym]; apply select_expiring_Permutation.
Qed.

Lemma select_expiring_keys_unique bound t :
  NoDup (map discord_id (rows t)) ->
  NoDup (map discord_id (select_expiring bound t)).
Proof.
  intros Hd.
  apply (Permutation_NoDup
           (Permutation_sym (Permutation_map discord_id
                               (select_expiring_Permutation bound t)))).
  apply selected_keys_unique, Hd.
Qed.

Lemma NoDup_map_In_eq {A B} (f : A -> B) (l : list A) (x y : A) :
  NoDup (map f l) -> In x l -> In y l -> f x = f y -> x = y.
Proof.
  induction l as [|z l IH]; simpl; intros Hnd Hx Hy Hf; [contradiction|].
  inversion Hnd as [|? ? Hni Hnd']; subst.
  destruct Hx as [->|Hx], Hy as [->|Hy]; auto.
  - exfalso. apply Hni. rewrite Hf. apply in_map, Hy.
  - exfalso. apply Hni. rewrite <- Hf. apply in_map, Hx.
Qed.

Section SweepTheorems.

Context {P : Platform}.

(** C9. A refresh sweep leaves, in every row, the columns [id],
    [discord_id], [discord_username], [eve_character_id],
    [eve_character_name] and [created_at] as they were, adds no row and
    removes none: all it writes are the corporation and alliance
    columns, the token pair, [token_expires_at] and [last_updated]. *)
Theorem refresh_keeps_identity_columns env cors st r st' :
  refreshAuthTokens env cors st = (r, st') ->
  map frame (rows (users st')) = map frame (rows (users st)).
Proof.
  intros H. apply refreshAuthTokens_spec in H.
  destruct H as [(e & _ & -> & _) | (outs & new & _ & _ & Hs & _)]; [reflexivity|].
  apply swept_frame in Hs. apply Hs.
Qed.

(** C2. Every record a sweep reports as failed is stored after the sweep
    exactly as it was stored before: the row under its [discord_id] is
    the same row, so its [access_token], [refresh_token] and
    [token_expires_at] (and every other column) are unchanged. *)
Theorem failed_refresh_leaves_record_unchanged
    env cors st resp st' refreshed failed f r :
  well_formed (users st) = true ->
  refreshAuthTokens env cors st = (Ok resp, st') ->
  body resp = JsonRefresh refreshed failed ->
  In f failed ->
  In r (rows (users st)) ->
  failed_discord_id f = js_of_sql (discord_id r) ->
  In r (rows (users st'))
  /\ forall r', In r' (rows (users st')) -> discord_id r' = discord_id r ->
       r' = r
       /\ access_token r' = access_token r
       /\ refresh_token r' = refresh_token r
       /\ token_expires_at r' = token_expires_at r.
Proof.
  intros Hw H Hbody Hf Hr Hkey. apply refreshAuthTokens_spec in H.
  destruct H as [(e & Habs & _) | (outs & new & _ & Hresp & Hs & _)];
    [discriminate|].
  inversion Hresp; subst resp. cbn [body] in Hbody.
  inversion Hbody; subst refreshed failed.
  pose proof (well_formed_inv _ Hw) as [HF Hd]. rewrite Forall_forall in HF.
  assert (In r (rows (users st'))) as Hr'.
  { eapply swept_lost_unchanged; eauto.
    - apply select_expiring_keys_unique, Hd.
    - intros u Hu. apply select_expiring_In in Hu. apply HF, Hu. }
  split; [exact Hr'|].
  intros r' Hin Hid.
  assert (r' = r) as ->; [|auto].
  pose proof (swept_frame _ _ _ _ Hs) as [Hfr _].
  pose proof (well_formed_inv _ (frame_well_formed _ _ Hfr Hw)) as [_ Hd'].
  eapply NoDup_map_In_eq; eauto.
Qed.

End SweepTheorems.

Lemma Forall2_keys_Permutation results outs :
  Forall2 (fun user o => outcome_key o = js_of_sql (discord_id user)) results outs ->
  Permutation (map (fun user => js_of_sql (discord_id user)) results)
    (map refreshed_discord_id (dones outs) ++ map failed_discord_id (losts outs)).
Proof.
  induction 1 as [|user o rest outs Hk HF IH]; simpl; [constructor|].
  destruct o as [item|item]; simpl in *; rewrite <- Hk.
  - constructor. exact IH.
  - apply Permutation_cons_app. exact IH.
Qed.

Lemma Forall2_keys_length results outs :
  Forall2 (fun user o => outcome_key o = js_of_sql (discord_id user)) results outs ->
  (length (dones outs) + length (losts outs) = length results)%nat.
Proof.
  induction 1 as [|user o rest outs Hk HF IH]; [reflexivity|].
  destruct o; cbn [dones losts length] in *; lia.
Qed.

Section Lifecycle.

Context {P : Platform}.

(** C5. A sweep whose clock is at least the lookahead before the end of
    the range of dates returns, with status 200, the two arrays
    [refreshed] and [failed]. The records it attempts are the records
    that satisfy the condition of its query, each once, in whatever
    order the query handed them over; every attempted record has one
    outcome, so that the keys of the two arrays together are the keys of
    the selected records, each once; and, when the client credentials
    can be sent, the refresh-token exchanges made are exactly one per
    attempted record, in the order of the attempts, each with that
    record's stored refresh token: a failure stops nothing after it. *)
Theorem sweep_attempts_each_selected_record_once env cors st :
  let t := fst (date_now (snd (date_now (world st)))) in
  let selected :=
    filter (fun user => sql_leb (token_expires_at user)
                          (SText (iso_string (t + refresh_horizon))))
      (rows (users st)) in
  t + refresh_horizon <= maxTime ->
  exists attempted outs st' new,
    Permutation attempted selected
    /\ refreshAuthTokens env cors st
       = (Ok {| status := 200; headers := json_headers cors;
                body := JsonRefresh (dones outs) (losts outs) |}, st')
    /\ Forall2 (fun user o => outcome_key o = js_of_sql (discord_id user)) attempted outs
    /\ (length (dones outs) + length (losts outs) = length selected)%nat
    /\ Permutation (map (fun user => js_of_sql (discord_id user)) selected)
         (map refreshed_discord_id (dones outs) ++ map failed_discord_id (losts outs))
    /\ trace st' = new ++ trace st
    /\ forall authorization,
         btoa (EVE_CLIENT_ID env ++ 58%N :: EVE_CLIENT_SECRET env) = Ok authorization ->
         rev (refresh_requests new)
         = map (fun user => TokenByRefresh authorization
                              (js_of_sql (refresh_token user))) attempted.
Proof.
  intros t selected Hclock.
  destruct (refreshAuthTokens_returns env cors st Hclock) as (resp & st' & H).
  pose proof (refreshAuthTokens_spec _ _ _ _ _ H) as Hspec. cbv zeta in Hspec.
  destruct Hspec as [(e & Habs & _) | (outs & new & _ & Hresp & Hs & Htrace & Hreq)];
    [discriminate|].
  fold t in Hs, Hreq.
  inversion Hresp; subst resp.
  pose proof (swept_keys _ _ _ _ Hs) as Hk.
  pose proof (select_expiring_Permutation (SText (iso_string (t + refresh_horizon)))
                (users st)) as Hperm.
  cbn [text_affinity] in Hperm. fold selected in Hperm.
  exists (select_expiring (SText (iso_string (t + refresh_horizon))) (users st)),
    outs, st', new.
  split; [exact Hperm|]. split; [exact H|]. split; [exact Hk|].
  split; [rewrite <- (Permutation_length Hperm); apply Forall2_keys_length, Hk|].
  split.
  { rewrite <- (Permutation_map (fun user => js_of_sql (discord_id user)) Hperm).
    apply Forall2_keys_Permutation, Hk. }
  split; [exact Htrace|].
  intros authorization Hauth. rewrite Hreq. unfold attempts. rewrite Hauth.
  reflexivity.
Qed.



End Lifecycle.

(* ===================================================================== *)
(** * The order of ISO date texts *)
(* ===================================================================== *)

Lemma lex_assoc c1 c2 c3 : lex (lex c1 c2) c3 = lex c1 (lex c2 c3).
Proof. destruct c1; reflexivity. Qed.

(** Comparing [x * B + r] with [y * B + r'] is comparing [x] with [y],
    then [r] with [r']. *)
Lemma lex_compare (B x y r r' : Z) :
  0 <= r < B -> 0 <= r' < B ->
  lex (x ?= y) (r ?= r') = (x * B + r ?= y * B + r').
Proof.
  intros Hr Hr'. unfold lex.
  destruct (Z.compare_spec x y) as [->|Hlt|Hgt].
  - symmetry. destruct (Z.compare_spec r r') as [->|H|H].
    + apply Z.compare_refl.
    + apply Z.compare_lt_iff. lia.
    + apply Z.compare_gt_iff. lia.
  - symmetry. apply Z.compare_lt_iff. nia.
  - symmetry. apply Z.compare_gt_iff. nia.
Qed.

Lemma compare_ext (a a' b b' : Z) : a = a' -> b = b' -> (a ?= b) = (a' ?= b').
Proof. congruence. Qed.

Lemma digit_compare (a b : Z) (s s' : jsstring) :
  text_compare (digit a :: s) (digit b :: s')
  = lex (a mod 10 ?= b mod 10) (text_compare s s').
Proof.
  unfold digit. cbn [text_compare].
  pose proof (Z.mod_pos_bound a 10 ltac:(lia)).
  pose proof (Z.mod_pos_bound b 10 ltac:(lia)).
  rewrite Z2N.inj_compare by lia.
  rewrite Z.add_compare_mono_l.
  destruct (a mod 10 ?= b mod 10); reflexivity.
Qed.

Lemma pad2_compare (a b : Z) (s s' : jsstring) :
  0 <= a < 100 -> 0 <= b < 100 ->
  text_compare (pad2 a ++ s) (pad2 b ++ s') = lex (a ?= b) (text_compare s s').
Proof.
  intros Ha Hb. unfold pad2. cbn [app].
  rewrite !digit_compare, <- lex_assoc.
  rewrite (lex_compare 10) by (apply Z.mod_pos_bound; lia).
  f_equal. apply compare_ext; Z.div_mod_to_equations; lia.
Qed.

Lemma pad3_compare (a b : Z) (s s' : jsstring) :
  0 <= a < 1000 -> 0 <= b < 1000 ->
  text_compare (pad3 a ++ s) (pad3 b ++ s') = lex (a ?= b) (text_compare s s').
Proof.
  intros Ha Hb. unfold pad3, pad2. cbn [app].
  rewrite !digit_compare, <- !lex_assoc.
  rewrite (lex_compare 10) by (apply Z.mod_pos_bound; lia).
  rewrite (lex_compare 10) by (apply Z.mod_pos_bound; lia).
  f_equal. apply compare_ext; Z.div_mod_to_equations; lia.
Qed.

Lemma pad4_compare (a b : Z) (s s' : jsstring) :
  0 <= a < 10000 -> 0 <= b < 10000 ->
  text_compare (pad4 a ++ s) (pad4 b ++ s') = lex (a ?= b) (text_compare s s').
Proof.
  intros Ha Hb. unfold pad4, pad3, pad2. cbn [app].
  rewrite !digit_compare, <- !lex_assoc.
  rewrite (lex_compare 10) by (apply Z.mod_pos_bound; lia).
  rewrite (lex_compare 10) by (apply Z.mod_pos_bound; lia).
  rewrite (lex_compare 10) by (apply Z.mod_pos_bound; lia).
  f_equal. apply compare_ext; Z.div_mod_to_equations; lia.
Qed.

Lemma same_head_compare (c : N) (s s' : jsstring) :
  text_compare (c :: s) (c :: s') = text_compare s s'.
Proof. cbn [text_compare]. rewrite N.compare_refl. reflexivity. Qed.

(** ** The calendar *)

Lemma all_from_spec n f : forall i,
  all_from n f i = true -> forall k, i <= k < i + Z.of_nat n -> f k = true.
Proof.
  induction n as [|n IH]; intros i H k Hk; [lia|].
  cbn [all_from] in H. destruct (f i) eqn:Hi; [|discriminate].
  destruct (Z.eq_dec k i) as [->|Hne]; [exact Hi|].
  apply (IH (i + 1) H). lia.
Qed.

Lemma year_days_ok : all_from 366 year_day_ok 0 = true.
Proof. vm_compute. reflexivity. Qed.

Lemma era_years_ok : all_from 400 era_year_ok 0 = true.
Proof. vm_compute. reflexivity. Qed.

Lemma year_day_facts doy :
  0 <= doy <= 365 ->
  let '(m, d) := month_day doy in
  1 <= m <= 12 /\ 1 <= d <= 31 /\ 301 <= year_code doy <= 10229.
Proof.
  intros H. pose proof (all_from_spec _ _ _ year_days_ok doy ltac:(lia)) as Hok.
  unfold year_day_ok in Hok. destruct (month_day doy) as [m d].
  repeat (apply andb_true_iff in Hok; destruct Hok as [Hok ?]). lia.
Qed.

Lemma year_code_mono a b :
  0 <= a -> a < b -> b <= 365 -> year_code a < year_code b.
Proof.
  intros Ha Hab Hb.
  assert (forall n : nat, a + 1 + Z.of_nat n <= 365 ->
            year_code a < year_code (a + 1 + Z.of_nat n)) as Hn.
  { induction n as [|n IH]; intros Hb'.
    - pose proof (all_from_spec _ _ _ year_days_ok a ltac:(lia)) as Hok.
      unfold year_day_ok in Hok. destruct (month_day a) as [m d].
      apply andb_true_iff in Hok. destruct Hok as [_ Hok].
      replace (a + 1 + Z.of_nat 0) with (a + 1) by lia. lia.
    - specialize (IH ltac:(lia)).
      pose proof (all_from_spec _ _ _ year_days_ok (a + 1 + Z.of_nat n) ltac:(lia))
        as Hok.
      unfold year_day_ok in Hok. destruct (month_day (a + 1 + Z.of_nat n)) as [m d].
      apply andb_true_iff in Hok. destruct Hok as [_ Hok].
      replace (a + 1 + Z.of_nat (S n)) with (a + 1 + Z.of_nat n + 1) by lia. lia. }
  specialize (Hn (Z.to_nat (b - a - 1))).
  rewrite Z2Nat.id in Hn by lia.
  replace (a + 1 + (b - a - 1)) with b in Hn by lia.
  apply Hn. exact Hb.
Qed.

Lemma era_year_facts y :
  0 <= y < 400 ->
  year_of_era (year_start y) = y
  /\ year_of_era (year_start (y + 1) - 1) = y
  /\ year_start y < year_start (y + 1) <= year_start y + 366.
Proof.
  intros H. pose proof (all_from_spec _ _ _ era_years_ok y ltac:(lia)) as Hok.
  unfold era_year_ok in Hok.
  repeat (apply andb_true_iff in Hok; destruct Hok as [Hok ?]). lia.
Qed.

(** The year of the era does not decrease along the era. *)
Lemma year_of_era_mono a b :
  0 <= a -> a <= b -> b < daysPerEra -> year_of_era a <= year_of_era b.
Proof.
  intros Ha Hab Hb. unfold year_of_era. apply Z.div_le_mono; [lia|].
  assert (forall n : nat, a + Z.of_nat n < daysPerEra ->
            a - a / 1460 + a / 36524 - a / 146096
            <= (a + Z.of_nat n) - (a + Z.of_nat n) / 1460
               + (a + Z.of_nat n) / 36524 - (a + Z.of_nat n) / 146096) as Hn.
  { induction n as [|n IH]; intros Hb'.
    - replace (a + Z.of_nat 0) with a by lia. lia.
    - specialize (IH ltac:(lia)).
      replace (a + Z.of_nat (S n)) with (a + Z.of_nat n + 1) by lia.
      remember (a + Z.of_nat n) as x.
      assert (0 <= x < 146096) as Hx by (unfold daysPerEra in *; lia).
      clear - IH Hx. Z.div_mod_to_equations. lia. }
  specialize (Hn (Z.to_nat (b - a))). rewrite Z2Nat.id in Hn by lia.
  replace (a + (b - a)) with b in Hn by lia. apply Hn. exact Hb.
Qed.

(** Every day of an era lies in the year of the era computed for it. *)
Lemma year_of_era_bounds doe :
  0 <= doe < daysPerEra ->
  0 <= year_of_era doe < 400
  /\ year_start (year_of_era doe) <= doe <= year_start (year_of_era doe) + 365.
Proof.
  intros H. unfold daysPerEra in H.
  assert (0 <= year_of_era doe < 400) as Hy.
  { pose proof (year_of_era_mono 0 doe ltac:(lia) ltac:(lia) ltac:(unfold daysPerEra; lia)).
    pose proof (year_of_era_mono doe 146096 ltac:(lia) ltac:(lia)
                  ltac:(unfold daysPerEra; lia)).
    change (year_of_era 0) with 0 in *. change (year_of_era 146096) with 399 in *. lia. }
  split; [exact Hy|].
  set (y := year_of_era doe) in *.
  destruct (era_year_facts y Hy) as (Hs & He & Hlen).
  assert (0 <= year_start y < daysPerEra) as Hys.
  { unfold daysPerEra, year_start. clear - Hy. Z.div_mod_to_equations. lia. }
  assert (year_start y <= doe) as Hlo.
  { destruct (Z_lt_le_dec doe (year_start y)) as [Hlt|]; [|assumption].
    exfalso. destruct (Z.eq_dec y 0) as [Hy0|Hy0].
    - rewrite Hy0 in Hlt. change (year_start 0) with 0 in Hlt. lia.
    - destruct (era_year_facts (y - 1) ltac:(lia)) as (_ & He' & Hlen').
      replace (y - 1 + 1) with y in * by lia.
      pose proof (year_of_era_mono doe (year_start y - 1) ltac:(lia) ltac:(lia)
                    ltac:(lia)) as Hm.
      fold y in Hm. lia. }
  split; [exact Hlo|].
  destruct (Z.eq_dec y 399) as [Hy9|Hy9].
  - rewrite Hy9. change (year_start 399) with 145731. lia.
  - destruct (Z_lt_le_dec doe (year_start (y + 1))) as [|Hge]; [lia|].
    exfalso.
    destruct (era_year_facts (y + 1) ltac:(lia)) as (Hs' & _ & _).
    pose proof (year_of_era_mono (year_start (y + 1)) doe ltac:(lia) ltac:(lia)
                  ltac:(unfold daysPerEra; lia)) as Hm.
    fold y in Hm. lia.
Qed.

Lemma date_code_era_day doe :
  date_code (civil_of_era_day doe)
  = year_of_era doe * 10000 + year_code (doe - year_start (year_of_era doe)).
Proof.
  unfold civil_of_era_day, year_code, date_code.
  destruct (month_day (doe - year_start (year_of_era doe))) as [m d]. lia.
Qed.

Lemma era_day_facts doe :
  0 <= doe < daysPerEra ->
  let '(y, m, d) := civil_of_era_day doe in
  0 <= y <= 400 /\ 1 <= m <= 12 /\ 1 <= d <= 31.
Proof.
  intros H. destruct (year_of_era_bounds doe H) as (Hy & Hlo & Hhi).
  destruct (era_year_facts _ Hy) as (_ & _ & Hlen).
  pose proof (year_day_facts (doe - year_start (year_of_era doe)) ltac:(lia)) as Hd.
  unfold civil_of_era_day.
  destruct (month_day (doe - year_start (year_of_era doe))) as [m d].
  destruct (m <=? 2); lia.
Qed.

(** Within an era later days have later dates. *)
Lemma era_day_mono a b :
  0 <= a -> a < b -> b < daysPerEra ->
  date_code (civil_of_era_day a) < date_code (civil_of_era_day b).
Proof.
  intros Ha Hab Hb. rewrite !date_code_era_day.
  destruct (year_of_era_bounds a ltac:(lia)) as (Hya & Hla & Hha).
  destruct (year_of_era_bounds b ltac:(lia)) as (Hyb & Hlb & Hhb).
  destruct (era_year_facts _ Hya) as (_ & _ & Hlena).
  destruct (era_year_facts _ Hyb) as (_ & _ & Hlenb).
  pose proof (year_of_era_mono a b Ha ltac:(lia) Hb) as Hmono.
  pose proof (year_day_facts (a - year_start (year_of_era a)) ltac:(lia)) as Hda.
  pose proof (year_day_facts (b - year_start (year_of_era b)) ltac:(lia)) as Hdb.
  destruct (month_day (a - year_start (year_of_era a))) as [ma da] eqn:Ea.
  destruct (month_day (b - year_start (year_of_era b))) as [mb db] eqn:Eb.
  destruct (Z.eq_dec (year_of_era a) (year_of_era b)) as [Heq|Hne].
  - rewrite Heq in *. 
    pose proof (year_code_mono (a - year_start (year_of_era b))
                  (b - year_start (year_of_era b)) ltac:(lia) ltac:(lia) ltac:(lia)).
    lia.
  - lia.
Qed.

(** ** Days and times of day *)

Lemma date_code_civil days :
  date_code (civil_from_days days)
  = (days + 719468) / daysPerEra * 4000000
    + date_code (civil_of_era_day ((days + 719468) mod daysPerEra)).
Proof.
  unfold civil_from_days.
  destruct (civil_of_era_day ((days + 719468) mod daysPerEra)) as [[y m] d].
  unfold date_code. lia.
Qed.

Lemma era_code_bounds doe :
  0 <= doe < daysPerEra ->
  301 <= date_code (civil_of_era_day doe) <= 4000229.
Proof.
  intros H. rewrite date_code_era_day.
  destruct (year_of_era_bounds doe H) as (Hy & Hlo & Hhi).
  pose proof (year_day_facts (doe - year_start (year_of_era doe)) ltac:(lia)) as Hd.
  destruct (month_day (doe - year_start (year_of_era doe))) as [m d]. lia.
Qed.

(** Later days have later dates. *)
Lemma civil_mono a b :
  a < b -> date_code (civil_from_days a) < date_code (civil_from_days b).
Proof.
  intros Hab. rewrite !date_code_civil.
  pose proof (Z.mod_pos_bound (a + 719468) daysPerEra ltac:(unfold daysPerEra; lia)) as Ha.
  pose proof (Z.mod_pos_bound (b + 719468) daysPerEra ltac:(unfold daysPerEra; lia)) as Hb.
  pose proof (era_code_bounds _ Ha) as Hca.
  pose proof (era_code_bounds _ Hb) as Hcb.
  pose proof (Z.div_mod (a + 719468) daysPerEra ltac:(unfold daysPerEra; lia)) as Da.
  pose proof (Z.div_mod (b + 719468) daysPerEra ltac:(unfold daysPerEra; lia)) as Db.
  destruct (Z.eq_dec ((a + 719468) / daysPerEra) ((b + 719468) / daysPerEra))
    as [Heq|Hne].
  - rewrite Heq in *.
    pose proof (era_day_mono ((a + 719468) mod daysPerEra)
                  ((b + 719468) mod daysPerEra) ltac:(lia) ltac:(lia) ltac:(lia)).
    lia.
  - assert ((a + 719468) / daysPerEra < (b + 719468) / daysPerEra).
    { pose proof (Z.div_le_mono (a + 719468) (b + 719468) daysPerEra
                    ltac:(unfold daysPerEra; lia) ltac:(lia)). lia. }
    lia.
Qed.

Lemma civil_facts days :
  let '(y, m, d) := civil_from_days days in 1 <= m <= 12 /\ 1 <= d <= 31.
Proof.
  unfold civil_from_days.
  pose proof (Z.mod_pos_bound (days + 719468) daysPerEra ltac:(unfold daysPerEra; lia))
    as Hd.
  pose proof (era_day_facts _ Hd) as Hf.
  destruct (civil_of_era_day ((days + 719468) mod daysPerEra)) as [[y m] d]. lia.
Qed.

Lemma four_digit_civil t :
  four_digit_year t ->
  let '(y, m, d) := civil_from_days (t / msPerDay) in
  0 <= y <= 9999 /\ 1 <= m <= 12 /\ 1 <= d <= 31.
Proof.
  unfold four_digit_year, year0, year10000. intros H.
  assert (-719528 <= t / msPerDay <= 2932896) as Hdays.
  { unfold msPerDay. Z.div_mod_to_equations. lia. }
  pose proof (civil_facts (t / msPerDay)) as Hf.
  assert (101 <= date_code (civil_from_days (t / msPerDay)) <= 99991231) as Hc.
  { split.
    - destruct (Z.eq_dec (t / msPerDay) (-719528)) as [->|Hne]; [vm_compute; discriminate|].
      pose proof (civil_mono (-719528) (t / msPerDay) ltac:(lia)) as Hm.
      change (date_code (civil_from_days (-719528))) with 101 in Hm. lia.
    - destruct (Z.eq_dec (t / msPerDay) 2932896) as [->|Hne]; [vm_compute; discriminate|].
      pose proof (civil_mono (t / msPerDay) 2932896 ltac:(lia)) as Hm.
      change (date_code (civil_from_days 2932896)) with 99991231 in Hm. lia. }
  destruct (civil_from_days (t / msPerDay)) as [[y m] d].
  unfold date_code in Hc. lia.
Qed.

Lemma iso_code_mono a b : a < b -> iso_code a < iso_code b.
Proof.
  intros Hab. unfold iso_code.
  pose proof (Z.mod_pos_bound a msPerDay ltac:(unfold msPerDay; lia)) as Ha.
  pose proof (Z.mod_pos_bound b msPerDay ltac:(unfold msPerDay; lia)) as Hb.
  pose proof (Z.div_mod a msPerDay ltac:(unfold msPerDay; lia)) as Da.
  pose proof (Z.div_mod b msPerDay ltac:(unfold msPerDay; lia)) as Db.
  set (ra := a mod msPerDay) in *. set (rb := b mod msPerDay) in *.
  assert (forall r, 0 <= r < msPerDay ->
            0 <= ((r / 3600000 * 100 + r / 60000 mod 60) * 100 + r / 1000 mod 60) * 1000
                 + r mod 1000 < 1000000000) as Hrange.
  { intros r Hr. unfold msPerDay in Hr. Z.div_mod_to_equations. lia. }
  destruct (Z.eq_dec (a / msPerDay) (b / msPerDay)) as [Heq|Hne].
  - rewrite Heq in *. apply Z.add_lt_mono_l.
    assert (ra < rb) as Hr by lia.
    unfold msPerDay in Ha, Hb. clear - Ha Hb Hr. Z.div_mod_to_equations. lia.
  - assert (a / msPerDay < b / msPerDay) as Hlt.
    { pose proof (Z.div_le_mono a b msPerDay ltac:(unfold msPerDay; lia) ltac:(lia)). lia. }
    pose proof (civil_mono _ _ Hlt).
    pose proof (Hrange ra Ha). pose proof (Hrange rb Hb). lia.
Qed.

Lemma iso_code_compare a b : (iso_code a ?= iso_code b) = (a ?= b).
Proof.
  destruct (Z.compare_spec a b) as [->|H|H].
  - apply Z.compare_refl.
  - apply Z.compare_lt_iff, iso_code_mono, H.
  - apply Z.compare_gt_iff, iso_code_mono, H.
Qed.

Lemma lex_Eq_r c : lex c Eq = c.
Proof. destruct c; reflexivity. Qed.

(** Between years 0 and 9999 the texts compare as their numbers do. *)
Lemma iso_string_compare_code a b :
  four_digit_year a -> four_digit_year b ->
  text_compare (iso_string a) (iso_string b) = (iso_code a ?= iso_code b).
Proof.
  intros Ha Hb. unfold iso_string, iso_code.
  pose proof (four_digit_civil a Ha) as Fa.
  pose proof (four_digit_civil b Hb) as Fb.
  pose proof (Z.mod_pos_bound a msPerDay ltac:(unfold msPerDay; lia)) as Ra.
  pose proof (Z.mod_pos_bound b msPerDay ltac:(unfold msPerDay; lia)) as Rb.
  set (ra := a mod msPerDay) in *. set (rb := b mod msPerDay) in *.
  destruct (civil_from_days (a / msPerDay)) as [[y m] d].
  destruct (civil_from_days (b / msPerDay)) as [[y' m'] d'].
  unfold year_string, date_code.
  assert ((0 <=? y) && (y <=? 9999) = true) as -> by (apply andb_true_iff; lia).
  assert ((0 <=? y') && (y' <=? 9999) = true) as -> by (apply andb_true_iff; lia).
  unfold msPerDay in Ra, Rb.
  assert (forall r, 0 <= r < 86400000 ->
            0 <= r / 3600000 < 100 /\ 0 <= r / 60000 mod 60 < 100
            /\ 0 <= r / 1000 mod 60 < 100 /\ 0 <= r mod 1000 < 1000) as Hf.
  { intros r Hr. Z.div_mod_to_equations. lia. }
  destruct (Hf ra Ra) as (H1 & H2 & H3 & H4).
  destruct (Hf rb Rb) as (H1' & H2' & H3' & H4').
  rewrite pad4_compare by lia. cbn [app]. rewrite same_head_compare.
  rewrite pad2_compare by lia. cbn [app]. rewrite same_head_compare.
  rewrite pad2_compare by lia. cbn [app]. rewrite same_head_compare.
  rewrite pad2_compare by lia. cbn [app]. rewrite same_head_compare.
  rewrite pad2_compare by lia. cbn [app]. rewrite same_head_compare.
  rewrite pad2_compare by lia. cbn [app]. rewrite same_head_compare.
  rewrite pad3_compare by lia.
  rewrite same_head_compare. cbn [text_compare]. rewrite lex_Eq_r.
  rewrite (lex_compare 1000) by lia.
  rewrite (lex_compare 100000) by lia.
  rewrite (lex_compare 10000000) by lia.
  rewrite (lex_compare 1000000000) by lia.
  rewrite (lex_compare 100000000000) by lia.
  rewrite (lex_compare 10000000000000) by lia.
  apply compare_ext; lia.
Qed.

(** Between years 0 and 9999 the order of the ISO texts is the order of
    the instants. *)
Lemma iso_string_leb a b :
  four_digit_year a -> four_digit_year b ->
  text_leb (iso_string a) (iso_string b) = (a <=? b).
Proof.
  intros Ha Hb. unfold text_leb, Z.leb.
  rewrite iso_string_compare_code, iso_code_compare by assumption.
  reflexivity.
Qed.

Section ExpiringQuery.

Context {P : Platform}.


End ExpiringQuery.

Section Router.

Context {P : Platform} {R : ReminderRoutes}.

(** C10. A request whose method is not OPTIONS and whose [X-API-Key]
    header is missing, or is not the configured key, is answered 401
    Unauthorized with the state exactly as it was: no statement is run
    against the store and nothing is fetched, whatever the path and the
    method. A request whose method is OPTIONS is answered (200, the CORS
    headers, no body) without looking at the key, the state again as it
    was. *)
Theorem unauthorized_request_touches_nothing (request : HttpRequest) (env : Env)
    (st : State) :
  (method request = lit "OPTIONS" ->
   fetch request env st
   = (Ok {| status := 200; headers := corsHeaders; body := NoBody |}, st))
  /\ (method request <> lit "OPTIONS" ->
      (x_api_key request = None
       \/ exists key, x_api_key request = Some key /\ API_KEY env <> Some key) ->
      fetch request env st
      = (Ok {| status := 401; headers := json_headers corsHeaders;
               body := JsonError (lit "Unauthorized") |}, st)).
Proof.
  unfold fetch. split.
  - intros ->. rewrite str_eqb_refl. reflexivity.
  - intros Hm Hkey. apply str_eqb_neq in Hm. rewrite Hm.
    assert (unauthorized (x_api_key request) env = true) as ->; [|reflexivity].
    unfold unauthorized. destruct Hkey as [-> | (key & -> & Hne)]; [reflexivity|].
    apply orb_true_iff. right. apply negb_true_iff.
    destruct (API_KEY env) as [expected|]; [|reflexivity].
    apply str_eqb_neq. congruence.
Qed.

End Router.

Ltac Zify.zify_post_hook ::= Z.to_euclidean_division_equations.

(* ===================================================================== *)
(** * Base64 round trip *)
(* ===================================================================== *)


Lemma list_ind3 {A} (Q : list A -> Prop) :
  Q [] -> (forall a, Q [a]) -> (forall a b, Q [a; b]) ->
  (forall a b c l, Q l -> Q (a :: b :: c :: l)) ->
  forall l, Q l.
Proof.
  intros H0 H1 H2 H3.
  fix IH 1. intros [|a [|b [|c l]]];
    [exact H0 | apply H1 | apply H2 | apply H3, IH].
Qed.

Lemma dec_enc (i : N) : (i < 64)%N -> dec (enc i) = Some i.
Proof.
  intros H. unfold enc, dec.
  destruct (i <? 26)%N eqn:E1.
  { apply N.ltb_lt in E1.
    assert ((65 <=? 65 + i)%N && (65 + i <=? 90)%N = true) as ->
      by (apply andb_true_iff; split; apply N.leb_le; lia).
    f_equal. lia. }
  apply N.ltb_ge in E1.
  destruct (i <? 52)%N eqn:E2.
  { apply N.ltb_lt in E2.
    assert ((65 <=? 97 + (i - 26))%N && (97 + (i - 26) <=? 90)%N = false) as ->
      by (apply andb_false_iff; right; apply N.leb_gt; lia).
    assert ((97 <=? 97 + (i - 26))%N && (97 + (i - 26) <=? 122)%N = true) as ->
      by (apply andb_true_iff; split; apply N.leb_le; lia).
    f_equal. lia. }
  apply N.ltb_ge in E2.
  destruct (i <? 62)%N eqn:E3.
  { apply N.ltb_lt in E3.
    assert ((65 <=? 48 + (i - 52))%N && (48 + (i - 52) <=? 90)%N = false) as ->
      by (apply andb_false_iff; left; apply N.leb_gt; lia).
    assert ((97 <=? 48 + (i - 52))%N && (48 + (i - 52) <=? 122)%N = false) as ->
      by (apply andb_false_iff; left; apply N.leb_gt; lia).
    assert ((48 <=? 48 + (i - 52))%N && (48 + (i - 52) <=? 57)%N = true) as ->
      by (apply andb_true_iff; split; apply N.leb_le; lia).
    f_equal. lia. }
  apply N.ltb_ge in E3.
  destruct (i =? 62)%N eqn:E4.
  { apply N.eqb_eq in E4. subst. reflexivity. }
  apply N.eqb_neq in E4. assert (i = 63%N) as -> by lia. reflexivity.
Qed.

Lemma enc_not_pad (i : N) : (enc i =? 61)%N = false.
Proof.
  unfold enc. apply N.eqb_neq.
  destruct (i <? 26)%N eqn:E1; [apply N.ltb_lt in E1; lia|apply N.ltb_ge in E1].
  destruct (i <? 52)%N eqn:E2; [apply N.ltb_lt in E2; lia|apply N.ltb_ge in E2].
  destruct (i <? 62)%N eqn:E3; [apply N.ltb_lt in E3; lia|].
  destruct (i =? 62)%N; lia.
Qed.

Lemma enc_not_space (i : N) : is_space (enc i) = false.
Proof.
  unfold is_space, enc.
  destruct (i <? 26)%N eqn:E1; [apply N.ltb_lt in E1|apply N.ltb_ge in E1].
  { repeat (apply orb_false_iff; split); apply N.eqb_neq; lia. }
  destruct (i <? 52)%N eqn:E2; [apply N.ltb_lt in E2|apply N.ltb_ge in E2].
  { repeat (apply orb_false_iff; split); apply N.eqb_neq; lia. }
  destruct (i <? 62)%N eqn:E3; [apply N.ltb_lt in E3|].
  { repeat (apply orb_false_iff; split); apply N.eqb_neq; lia. }
  destruct (i =? 62)%N; reflexivity.
Qed.

Lemma strip_padding_enc (i : N) (s : jsstring) :
  strip_padding (enc i :: s) = enc i :: strip_padding s.
Proof. cbn [strip_padding]. rewrite enc_not_pad. reflexivity. Qed.

Lemma encode_no_space (l : list N) :
  filter (fun c => negb (is_space c)) (encode l) = encode l.
Proof.
  induction l as [|a|a b|a b c l IH] using list_ind3; cbn [encode filter];
    rewrite ?enc_not_space; change (is_space 61%N) with false; cbn [negb];
    congruence.
Qed.

Lemma encode_length (l : list N) : exists k, length (encode l) = (4 * k)%nat.
Proof.
  induction l as [|a|a b|a b c l [k IH]] using list_ind3; cbn [encode length].
  - exists 0%nat. reflexivity.
  - exists 1%nat. reflexivity.
  - exists 1%nat. reflexivity.
  - exists (S k). rewrite IH. lia.
Qed.

(** What is left of an encoding after its padding decodes to the bytes
    that were encoded. *)
Lemma decode_encode (l : list N) :
  latin1 l = true ->
  exists v, sextets (strip_padding (encode l)) = Some v /\ decode v = Some l.
Proof.
  induction l as [|a|a b|a b c l IH] using list_ind3; intros Hl.
  - exists []. split; reflexivity.
  - cbn [latin1 forallb] in Hl. apply andb_true_iff in Hl. destruct Hl as [Ha _].
    apply N.leb_le in Ha.
    cbn [encode]. rewrite !strip_padding_enc. cbn [strip_padding N.eqb Pos.eqb sextets].
    rewrite !dec_enc by lia.
    eexists. split; [reflexivity|]. cbn [decode]. do 2 f_equal. lia.
  - cbn [latin1 forallb] in Hl.
    apply andb_true_iff in Hl. destruct Hl as [Ha Hl].
    apply andb_true_iff in Hl. destruct Hl as [Hb _].
    apply N.leb_le in Ha, Hb.
    cbn [encode]. rewrite !strip_padding_enc. cbn [strip_padding N.eqb Pos.eqb sextets].
    rewrite !dec_enc by lia.
    eexists. split; [reflexivity|]. cbn [decode]. do 2 f_equal; [lia|f_equal; lia].
  - cbn [latin1 forallb] in Hl.
    apply andb_true_iff in Hl. destruct Hl as [Ha Hl].
    apply andb_true_iff in Hl. destruct Hl as [Hb Hl].
    apply andb_true_iff in Hl. destruct Hl as [Hc Hl].
    apply N.leb_le in Ha, Hb, Hc.
    destruct (IH Hl) as (v & Hv & Hd).
    cbn [encode]. rewrite !strip_padding_enc. cbn [sextets].
    rewrite !dec_enc by lia. rewrite Hv.
    eexists. split; [reflexivity|]. cbn [decode]. rewrite Hd.
    do 2 f_equal; [lia|]. f_equal; [lia|]. f_equal. lia.
Qed.

(** [atob] undoes [btoa]. *)
Lemma atob_btoa (s t : jsstring) : btoa s = Ok t -> atob t = Ok s.
Proof.
  unfold btoa. destruct (latin1 s) eqn:Hl; [|discriminate].
  intros H. inversion H; subst t. unfold atob.
  rewrite encode_no_space.
  destruct (encode_length s) as [k ->].
  replace (4 * k)%nat with (k * 4)%nat by lia.
  rewrite Nat.Div0.mod_mul. cbn [Nat.eqb].
  destruct (decode_encode s Hl) as (v & -> & ->). reflexivity.
Qed.

(* ===================================================================== *)
(** * JSON round trip *)
(* ===================================================================== *)

(** ** String literals *)

Lemma hexval_hex_digit (n : N) : (n < 16)%N -> JSON.hexval (JSON.hex_digit n) = Some n.
Proof.
  intros H. unfold JSON.hexval, JSON.hex_digit.
  destruct (n <? 10)%N eqn:E; [apply N.ltb_lt in E | apply N.ltb_ge in E].
  - assert ((48 <=? 48 + n)%N && (48 + n <=? 57)%N = true) as ->
      by (apply andb_true_iff; split; apply N.leb_le; lia).
    f_equal. lia.
  - assert ((48 <=? 87 + n)%N && (87 + n <=? 57)%N = false) as ->
      by (apply andb_false_iff; right; apply N.leb_gt; lia).
    assert ((97 <=? 87 + n)%N && (87 + n <=? 102)%N = true) as ->
      by (apply andb_true_iff; split; apply N.leb_le; lia).
    f_equal. lia.
Qed.

Lemma parse_u_escape (c : N) (rest : jsstring) :
  (c < 65536)%N ->
  JSON.parse_string_body (JSON.u_escape c ++ rest)
  = JSON.cons_fst c (JSON.parse_string_body rest).
Proof.
  intros H. unfold JSON.u_escape. cbn [app JSON.parse_string_body N.eqb Pos.eqb].
  unfold JSON.hex4.
  rewrite !hexval_hex_digit by lia.
  replace (c / 4096 * 4096 + c / 256 mod 16 * 256 + c / 16 mod 16 * 16 + c mod 16)%N
    with c by lia.
  reflexivity.
Qed.

Lemma parse_quote_unit (c : N) (rest : jsstring) :
  JSON.is_high c = false ->
  JSON.parse_string_body (JSON.quote_unit c ++ rest)
  = JSON.cons_fst c (JSON.parse_string_body rest).
Proof.
  intros Hh. unfold JSON.quote_unit.
  destruct (c =? 8)%N eqn:E8; [apply N.eqb_eq in E8; subst; reflexivity|].
  destruct (c =? 9)%N eqn:E9; [apply N.eqb_eq in E9; subst; reflexivity|].
  destruct (c =? 10)%N eqn:E10; [apply N.eqb_eq in E10; subst; reflexivity|].
  destruct (c =? 12)%N eqn:E12; [apply N.eqb_eq in E12; subst; reflexivity|].
  destruct (c =? 13)%N eqn:E13; [apply N.eqb_eq in E13; subst; reflexivity|].
  destruct (c =? 34)%N eqn:E34; [apply N.eqb_eq in E34; subst; reflexivity|].
  destruct (c =? 92)%N eqn:E92; [apply N.eqb_eq in E92; subst; reflexivity|].
  destruct (c <? 32)%N eqn:E32.
  { apply N.ltb_lt in E32. apply parse_u_escape. lia. }
  destruct (JSON.is_low c) eqn:El.
  { apply parse_u_escape. unfold JSON.is_low in El.
    apply andb_true_iff in El. destruct El as [_ El]. apply N.leb_le in El. lia. }
  cbn [app JSON.parse_string_body]. rewrite E34, E92, E32. reflexivity.
Qed.

Lemma parse_raw_surrogate (c : N) (rest : jsstring) :
  (55296 <= c)%N ->
  JSON.parse_string_body (c :: rest) = JSON.cons_fst c (JSON.parse_string_body rest).
Proof.
  intros H. cbn [JSON.parse_string_body].
  assert ((c =? 34)%N = false) as -> by (apply N.eqb_neq; lia).
  assert ((c =? 92)%N = false) as -> by (apply N.eqb_neq; lia).
  assert ((c <? 32)%N = false) as -> by (apply N.ltb_ge; lia).
  reflexivity.
Qed.

(** A quoted string reads back as the string. *)
Lemma parse_quote_body (s rest : jsstring) :
  JSON.parse_string_body (JSON.quote_body s ++ 34%N :: rest) = Some (s, rest).
Proof.
  assert (forall n s, (length s <= n)%nat ->
            JSON.parse_string_body (JSON.quote_body s ++ 34%N :: rest) = Some (s, rest))
    as H; [|apply (H (length s)); lia].
  clear s. induction n as [|n IH]; intros s Hn.
  - destruct s; [reflexivity | cbn in Hn; lia].
  - destruct s as [|c s]; [reflexivity|]. cbn [length] in Hn.
    cbn [JSON.quote_body].
    destruct (JSON.is_high c) eqn:Hh.
    + assert (55296 <= c <= 56319)%N as Hc.
      { unfold JSON.is_high in Hh. apply andb_true_iff in Hh.
        destruct Hh as [H1 H2]. apply N.leb_le in H1, H2. lia. }
      destruct s as [|d s].
      * rewrite parse_u_escape by lia. cbn. reflexivity.
      * destruct (JSON.is_low d) eqn:Hl.
        -- cbn [app]. rewrite parse_raw_surrogate by lia.
           assert (55296 <= d)%N as Hd.
           { unfold JSON.is_low in Hl. apply andb_true_iff in Hl.
             destruct Hl as [H1 _]. apply N.leb_le in H1. lia. }
           rewrite parse_raw_surrogate by lia.
           cbn [length] in Hn. rewrite IH by lia. reflexivity.
        -- rewrite <- app_assoc, parse_u_escape by lia.
           rewrite IH by lia. reflexivity.
    + rewrite <- app_assoc, parse_quote_unit by assumption.
      rewrite IH by lia. reflexivity.
Qed.

(** ** Numbers *)

Lemma read_digits_app (ds rest : jsstring) (a : Z) :
  forallb is_digit ds = true ->
  match rest with c :: _ => is_digit c = false | [] => True end ->
  read_digits (ds ++ rest) a = (digits_value ds a, rest).
Proof.
  revert a. induction ds as [|d ds IH]; intros a Hd Hr.
  - cbn. destruct rest as [|c rest]; [reflexivity|]. cbn. rewrite Hr. reflexivity.
  - cbn [forallb] in Hd. apply andb_true_iff in Hd. destruct Hd as [Hd Hds].
    cbn [app read_digits]. rewrite Hd. rewrite IH by assumption. reflexivity.
Qed.

Lemma digits_value_app (a b : jsstring) (x : Z) :
  digits_value (a ++ b) x = digits_value b (digits_value a x).
Proof. apply fold_left_app. Qed.

Lemma digits_fuel_S (f : nat) (n : Z) (acc : jsstring) :
  digits_fuel (S f) n acc
  = if n <? 10 then Z.to_N (48 + n mod 10) :: acc
    else digits_fuel f (n / 10) (Z.to_N (48 + n mod 10) :: acc).
Proof. reflexivity. Qed.

(** The digits written for [n] are digits, the first of them 0 only for
    0 itself, and their value is [n]. *)
Lemma digits_fuel_spec (f : nat) : forall (n : Z) (acc : jsstring),
  0 <= n < 2 ^ Z.of_nat (S f) ->
  exists d ds,
    digits_fuel (S f) n acc = (d :: ds) ++ acc
    /\ forallb is_digit (d :: ds) = true
    /\ digits_value (d :: ds) 0 = n
    /\ (d = 48%N -> n = 0 /\ ds = []).
Proof.
  induction f as [|f IH]; intros n acc Hn.
  - assert (n = 0 \/ n = 1) as [-> | ->] by (change (2 ^ Z.of_nat 1) with 2 in Hn; lia);
      cbn; eexists; exists []; repeat split; try discriminate; auto.
  - rewrite digits_fuel_S. destruct (n <? 10) eqn:E.
    + apply Z.ltb_lt in E. exists (Z.to_N (48 + n mod 10)), [].
      rewrite Z.mod_small by lia.
      split; [reflexivity|]. split.
      * cbn [forallb]. unfold is_digit. rewrite andb_true_r. apply andb_true_iff.
        split; apply N.leb_le; lia.
      * split; [cbn [digits_value fold_left]; lia|].
        intros H. split; [lia|reflexivity].
    + apply Z.ltb_ge in E.
      assert (0 <= n / 10 < 2 ^ Z.of_nat (S f)) as Hq.
      { rewrite Nat2Z.inj_succ, Z.pow_succ_r in Hn by lia.
        split; [apply Z.div_pos; lia|].
        apply Z.div_lt_upper_bound; lia. }
      destruct (IH (n / 10) (Z.to_N (48 + n mod 10) :: acc) Hq)
        as (d & ds & Heq & Hdig & Hval & Hzero).
      exists d, (ds ++ [Z.to_N (48 + n mod 10)]).
      split; [rewrite Heq; cbn [app]; rewrite <- app_assoc; reflexivity|].
      split.
      * change (d :: ds ++ [Z.to_N (48 + n mod 10)])
          with ((d :: ds) ++ [Z.to_N (48 + n mod 10)]).
        rewrite forallb_app, Hdig. cbn [forallb andb]. unfold is_digit.
        rewrite andb_true_r.
        pose proof (Z.mod_pos_bound n 10 ltac:(lia)).
        apply andb_true_iff. split; apply N.leb_le; lia.
      * split.
        -- change (d :: ds ++ [Z.to_N (48 + n mod 10)])
             with ((d :: ds) ++ [Z.to_N (48 + n mod 10)]).
           rewrite digits_value_app, Hval. cbn [digits_value fold_left].
           pose proof (Z.mod_pos_bound n 10 ltac:(lia)). lia.
        -- intros Hd. destruct (Hzero Hd) as [Hq0 _]. lia.
Qed.

Lemma digits_spec (n : Z) :
  0 <= n ->
  exists d ds,
    digits n = d :: ds
    /\ forallb is_digit (d :: ds) = true
    /\ digits_value (d :: ds) 0 = n
    /\ (d = 48%N -> n = 0 /\ ds = []).
Proof.
  intros H. unfold digits.
  destruct (digits_fuel_spec (Z.to_nat (Z.log2 n)) n []) as (d & ds & Heq & Hrest).
  - rewrite Nat2Z.inj_succ, Z2Nat.id by apply Z.log2_nonneg.
    destruct (Z.eq_dec n 0) as [->|Hne]; [cbn; lia|].
    pose proof (Z.log2_spec n ltac:(lia)). lia.
  - exists d, ds. rewrite Heq, app_nil_r. auto.
Qed.

Lemma parse_unsigned_digits (m : Z) (c : N) (rest : jsstring) :
  0 <= m -> is_digit c = false ->
  exists d ds, digits m = d :: ds /\ is_digit d = true
    /\ JSON.parse_unsigned (digits m ++ c :: rest) = Some (m, c :: rest).
Proof.
  intros Hm Hc. destruct (digits_spec m Hm) as (d & ds & Heq & Hdig & Hval & Hzero).
  exists d, ds. split; [exact Heq|].
  pose proof Hdig as Hdig'. cbn [forallb] in Hdig'.
  apply andb_true_iff in Hdig'. destruct Hdig' as [Hd _].
  split; [exact Hd|].
  rewrite Heq. cbn [app JSON.parse_unsigned].
  destruct (d =? 48)%N eqn:E.
  - apply N.eqb_eq in E. destruct (Hzero E) as [-> ->]. reflexivity.
  - rewrite Hd. change (d :: ds ++ c :: rest) with ((d :: ds) ++ c :: rest).
    rewrite read_digits_app by (auto; exact Hc). rewrite Hval. reflexivity.
Qed.

(** A number reads back as the number, with what follows it. *)
Lemma parse_number_num_to_string (n : Z) (c : N) (rest : jsstring) :
  closes c ->
  JSON.parse_number (num_to_string n ++ c :: rest) = Some (n, c :: rest).
Proof.
  intros Hc.
  assert (is_digit c = false) as Hcd by (destruct Hc as [-> | ->]; reflexivity).
  assert (((c =? 46) || (c =? 101) || (c =? 69))%N = false) as Hcw
    by (destruct Hc as [-> | ->]; reflexivity).
  unfold JSON.parse_number, num_to_string.
  destruct (n <? 0) eqn:En.
  - apply Z.ltb_lt in En.
    destruct (parse_unsigned_digits (- n) c rest ltac:(lia) Hcd) as (d & ds & Heq & Hd & Hun).
    cbn [app N.eqb Pos.eqb]. rewrite Hun. cbn [JSON.integral]. rewrite Hcw.
    f_equal. f_equal. lia.
  - apply Z.ltb_ge in En.
    destruct (parse_unsigned_digits n c rest En Hcd) as (d & ds & Heq & Hd & Hun).
    rewrite Heq in *. cbn [app] in *.
    assert ((d =? 45)%N = false) as ->.
    { unfold is_digit in Hd. apply andb_true_iff in Hd. destruct Hd as [H1 _].
      apply N.leb_le in H1. apply N.eqb_neq. lia. }
    rewrite Hun. cbn [JSON.integral]. rewrite Hcw. reflexivity.
Qed.

(** The first character of a number: a digit or the minus sign. *)
Lemma num_to_string_head (n : Z) :
  exists d ds, num_to_string n = d :: ds /\ (is_digit d = true \/ d = 45%N).
Proof.
  unfold num_to_string. destruct (n <? 0) eqn:En.
  - eexists. eexists. split; [reflexivity|]. right. reflexivity.
  - apply Z.ltb_ge in En.
    destruct (digits_spec n En) as (d & ds & Heq & Hdig & _).
    exists d, ds. split; [exact Heq|]. left.
    cbn [forallb] in Hdig. apply andb_true_iff in Hdig. apply Hdig.
Qed.

(** ** Scalars *)

(** A scalar inside an object reads back as itself. *)
Lemma parse_value_scalar (f : nat) (v : jsval) (t : jsstring) (c : N) (rest : jsstring) :
  scalar v -> JSON.stringify v = Some t -> closes c ->
  JSON.parse_value (S f) (t ++ c :: rest) = Some (v, c :: rest).
Proof.
  intros Hs Ht Hc. destruct v as [| |b|n|s| |]; try contradiction;
    cbn [JSON.stringify] in Ht; inversion Ht; subst t; clear Ht.
  - destruct b; reflexivity.
  - destruct (num_to_string_head n) as (d & ds & Heq & Hd).
    pose proof (parse_number_num_to_string n c rest Hc) as Hp.
    rewrite Heq in *. cbn [app] in *.
    cbn [JSON.parse_value].
    assert (JSON.is_ws d = false
            /\ (d =? 34)%N = false /\ (d =? 123)%N = false /\ (d =? 91)%N = false
            /\ (d =? 116)%N = false /\ (d =? 102)%N = false /\ (d =? 110)%N = false)
      as (W & E1 & E2 & E3 & E4 & E5 & E6).
    { destruct Hd as [Hd | ->]; [|repeat split].
      unfold is_digit in Hd. apply andb_true_iff in Hd. destruct Hd as [H1 H2].
      apply N.leb_le in H1, H2. unfold JSON.is_ws.
      repeat split; try (apply N.eqb_neq; lia).
      repeat (apply orb_false_iff; split); apply N.eqb_neq; lia. }
    cbn [JSON.skip_ws]. rewrite W, E1, E2, E3.
    assert (startsWith (d :: ds ++ c :: rest) (lit "true") = false) as ->
      by (unfold lit; cbn; rewrite E4; reflexivity).
    assert (startsWith (d :: ds ++ c :: rest) (lit "false") = false) as ->
      by (unfold lit; cbn; rewrite E5; reflexivity).
    assert (startsWith (d :: ds ++ c :: rest) (lit "null") = false) as ->
      by (unfold lit; cbn; rewrite E6; reflexivity).
    rewrite Hp. reflexivity.
  - unfold JSON.quote. cbn [app JSON.parse_value JSON.skip_ws JSON.is_ws N.eqb Pos.eqb orb].
    rewrite <- app_assoc. cbn [app]. rewrite parse_quote_body. reflexivity.
Qed.

(** ** The state object *)

Lemma closes_not_ws (c : N) : closes c -> JSON.is_ws c = false.
Proof. intros [-> | ->]; reflexivity. Qed.

(** One member [key:value] of an object, the value a scalar, followed by
    a comma or by the closing brace. *)
Lemma parse_member (f : nat) (k : jsstring) (v : jsval) (t : jsstring) (c : N)
    (rest : jsstring) (acc : list (jsstring * jsval)) :
  scalar v -> JSON.stringify v = Some t -> closes c ->
  JSON.parse_members (S (S f)) (JSON.quote k ++ 58%N :: t ++ c :: rest) acc
  = if (c =? 44)%N then JSON.parse_members (S f) rest (JSON.set_prop k v acc)
    else Some (JObj (JSON.set_prop k v acc), rest).
Proof.
  intros Hs Ht Hc. unfold JSON.quote.
  cbn [app JSON.parse_members JSON.skip_ws JSON.is_ws N.eqb Pos.eqb orb].
  rewrite <- app_assoc. cbn [app]. rewrite parse_quote_body.
  cbn [JSON.skip_ws JSON.is_ws N.eqb Pos.eqb orb].
  rewrite (parse_value_scalar f v t c rest Hs Ht Hc).
  cbn [JSON.skip_ws]. rewrite (closes_not_ws c Hc).
  destruct Hc as [-> | ->]; reflexivity.
Qed.

Lemma stringify_scalar (v : jsval) : scalar v -> exists t, JSON.stringify v = Some t.
Proof. destruct v; try contradiction; intros _; cbn [JSON.stringify]; eauto. Qed.

Lemma stringify_state (discord_id discord_username : jsval) (timestamp : Z)
    (t1 t2 : jsstring) :
  JSON.stringify discord_id = Some t1 ->
  JSON.stringify discord_username = Some t2 ->
  JSON.stringify (state_object discord_id discord_username timestamp)
  = Some (123%N :: JSON.quote (lit "discord_id") ++ 58%N :: t1 ++ 44%N
            :: JSON.quote (lit "discord_username") ++ 58%N :: t2 ++ 44%N
            :: JSON.quote (lit "timestamp") ++ 58%N :: num_to_string timestamp
            ++ [125%N]).
Proof.
  intros E1 E2. unfold state_object. cbn [JSON.stringify flat_map fst snd app].
  rewrite E1, E2. cbn [app JSON.join]. f_equal. f_equal.
  repeat (rewrite <- app_assoc; cbn [app]). reflexivity.
Qed.

(** The text of the state object parses back to the state object. *)
Lemma parse_stringify_state (discord_id discord_username : jsval) (timestamp : Z) :
  scalar discord_id -> scalar discord_username ->
  exists text,
    JSON.stringify (state_object discord_id discord_username timestamp) = Some text
    /\ JSON.parse text = Ok (state_object discord_id discord_username timestamp).
Proof.
  intros H1 H2.
  destruct (stringify_scalar _ H1) as (t1 & E1).
  destruct (stringify_scalar _ H2) as (t2 & E2).
  eexists. split; [apply (stringify_state _ _ _ _ _ E1 E2)|].
  unfold JSON.parse.
  match goal with
  | |- context [JSON.parse_value (S (length ?text)) ?text] =>
      assert (4 <= length text)%nat as Hlen
        by (unfold JSON.quote; cbn [length app]; rewrite !length_app;
            cbn [length]; lia);
      destruct (length text) as [|[|[|[|f]]]]; try lia; clear Hlen
  end.
  cbn [JSON.parse_value JSON.skip_ws JSON.is_ws N.eqb Pos.eqb orb].
  unfold JSON.quote at 1.
  cbn [app JSON.skip_ws JSON.is_ws N.eqb Pos.eqb orb].
  change (34%N :: JSON.quote_body (lit "discord_id") ++ [34%N])
    with (JSON.quote (lit "discord_id")).
  change (34%N :: (JSON.quote_body (lit "discord_id") ++ [34%N]) ++ ?x)
    with (JSON.quote (lit "discord_id") ++ x).
  rewrite (parse_member _ _ _ _ 44%N _ _ H1 E1 (or_introl eq_refl)).
  cbn [N.eqb Pos.eqb].
  rewrite (parse_member _ _ _ _ 44%N _ _ H2 E2 (or_introl eq_refl)).
  cbn [N.eqb Pos.eqb].
  rewrite (parse_member _ _ (JNum timestamp) _ 125%N _ _ I eq_refl (or_intror eq_refl)).
  cbn [N.eqb Pos.eqb JSON.skip_ws]. reflexivity.
Qed.

Section StateToken.

Context {P : Platform}.


End StateToken.

Import Scenario.

(** ** The built-ins on examples *)

Example iso_epoch : toISOString 0 = Ok (lit "1970-01-01T00:00:00.000Z").
Proof. reflexivity. Qed.

Example iso_leap_day :
  toISOString 1709210096789 = Ok (lit "2024-02-29T12:34:56.789Z").
Proof. reflexivity. Qed.

Example iso_before_epoch : toISOString (-1) = Ok (lit "1969-12-31T23:59:59.999Z").
Proof. reflexivity. Qed.

Example iso_year_10000 :
  toISOString year10000 = Ok (lit "+010000-01-01T00:00:00.000Z").
Proof. reflexivity. Qed.

Example iso_year_minus_1 :
  toISOString (year0 - 1) = Ok (lit "-000001-12-31T23:59:59.999Z").
Proof. reflexivity. Qed.

Example iso_invalid : toISOString (maxTime + 1) = Throw RangeError.
Proof. reflexivity. Qed.

Example btoa_hello : btoa (lit "hello") = Ok (lit "aGVsbG8=").
Proof. reflexivity. Qed.

Example btoa_not_latin1 : btoa [104%N; 8364%N] = Throw InvalidCharacterError.
Proof. reflexivity. Qed.

Example atob_unpadded : atob (lit "aGVsbG8") = Ok (lit "hello").
Proof. reflexivity. Qed.

Example atob_spaced : atob (lit " aGVs bG8= ") = Ok (lit "hello").
Proof. reflexivity. Qed.

Example atob_bad_padding : atob (lit "aGVsbG8==") = Throw InvalidCharacterError.
Proof. reflexivity. Qed.

Example json_nested :
  JSON.parse (lit " [1, [-2, [true, null, {}]]] ")
  = Ok (JArr [JNum 1; JArr [JNum (-2); JArr [JBool true; JNull; JObj []]]]).
Proof. vm_compute. reflexivity. Qed.

Example json_leading_zero : JSON.parse (lit "01") = Throw SyntaxError.
Proof. vm_compute. reflexivity. Qed.

Example json_stringify_array :
  JSON.stringify (JArr [JUndefined; JNum 0; JNum (-5); JObj [(lit "u", JUndefined)]])
  = Some (lit "[null,0,-5,{}]").
Proof. vm_compute. reflexivity. Qed.

(** A lone surrogate is escaped, a control character too. *)
Example json_quote_escapes :
  JSON.quote [10%N; 55357%N; 97%N] = 34%N :: lit "\n\ud83da" ++ [34%N].
Proof. vm_compute. reflexivity. Qed.

(** ** The handlers on the scenarios *)

Example scenario_basic : btoa (lit "cid:sec") = Ok basic.
Proof. reflexivity. Qed.

Example scenario_login :
  fst (createAuthURL (P := scripted provider) login_request env corsHeaders
         (initial provider start empty))
  = Ok {| status := 200; headers := json_headers corsHeaders;
          body := JsonAuthUrl
                    {| base := EVE_SSO_URL;
                       query := [(lit "response_type", lit "code");
                                 (lit "redirect_uri", lit "https://bot.example/auth/callback");
                                 (lit "client_id", lit "cid");
                                 (lit "scope", lit "publicData");
                                 (lit "state", state1)] |} |}.
Proof. vm_compute. reflexivity. Qed.

(** The scenario of the specification: U1 links, the provider grants
    1200 seconds, group G has no parent. *)
Example scenario_link :
  users (snd (handleAuthCallback (P := scripted provider) callback_request env
                corsHeaders (initial provider start empty)))
  = {| rows := [{| id := 1;
                   discord_id := SText (lit "U1");
                   discord_username := SText (lit "user one");
                   eve_character_id := SInt 9001;
                   eve_character_name := SText (lit "Pilot One");
                   eve_corporation_id := SInt 77;
                   eve_corporation_name := SText (lit "Group G");
                   eve_corporation_ticker := SText (lit "G");
                   eve_alliance_id := SNull;
                   eve_alliance_name := SNull;
                   eve_alliance_ticker := SNull;
                   access_token := SText (lit "AT1");
                   refresh_token := SText (lit "RT1");
                   token_expires_at := SText (lit "2023-11-14T22:33:20.400Z");
                   last_updated := SText (lit "2023-11-14T22:13:20.401Z");
                   created_at := SText (lit "2023-11-14T22:13:20.401Z") |}];
       last_rowid := 1 |}.
Proof. vm_compute. reflexivity. Qed.

(** The sweep of the specification: U1 and U2 are selected, U3 is not;
    U2, whose expiry is the earlier, is attempted first, fails and stays
    as it was; U1 is refreshed. *)
Example scenario_sweep :
  let run := refreshAuthTokens (P := scripted provider) env corsHeaders
               (initial provider start three_records) in
  fst run
  = Ok {| status := 200; headers := json_headers corsHeaders;
          body := JsonRefresh
                    [{| refreshed_discord_id := str "U1";
                        character_name := str "Pilot";
                        corporation := str "G";
                        alliance := JNull |}]
                    [{| failed_discord_id := str "U2";
                        error := Error (lit "Failed to refresh token") |}] |}
  /\ map token_expires_at (rows (users (snd run)))
     = [SText (lit "2023-11-14T22:33:19.402Z");
        SText (lit "2023-11-14T22:13:15.000Z");
        SText (lit "2023-11-15T00:13:20.000Z")]
  /\ map access_token (rows (users (snd run)))
     = [SText (lit "AT2"); SText (lit "old-access"); SText (lit "old-access")]
  /\ rev (refresh_requests (trace (snd run)))
     = [TokenByRefresh basic (str "RT-revoked"); TokenByRefresh basic (str "RT1")].
Proof. vm_compute. auto. Qed.

(** An alliance lookup that answers, but without name or ticker, does
    not stop the link: the record is stored with the alliance id and
    NULL for the alliance name and ticker. *)
Example scenario_alliance_without_name :
  let run := handleAuthCallback callback_request env corsHeaders
               (initial alliance_unknown start empty) in
  (exists resp, fst run = Ok resp /\ status resp = 200)
  /\ map (fun r => (discord_id r, eve_alliance_id r, eve_alliance_name r,
                    eve_alliance_ticker r, access_token r))
       (rows (users (snd run)))
     = [(SText (lit "U1"), SInt 500, SNull, SNull, SText (lit "AT1"))].
Proof. split; [eexists; split; vm_compute; reflexivity | vm_compute; reflexivity]. Qed.

Ltac in_list := repeat (try (left; reflexivity); right).

Section Witnesses.

#[local] Existing Instance no_reminders.

(** Scenario for C6: the token endpoint answers [invalid_grant]; the
    callback answers 500 and the empty table stays empty. *)
Lemma callback_without_access_token_witness :
  let st := initial rejecting start empty in
  let run := handleAuthCallback callback_request env corsHeaders st in
  In (Fetched (TokenByCode basic (lit "c0de")) (Ok rejection)) (trace (snd run))
  /\ truthy (prop rejection (lit "access_token")) = false
  /\ exists resp, fst run = Ok resp /\ status resp = 500 /\ users (snd run) = users st.
Proof.
  cbv zeta. split; [vm_compute; in_list|]. split; [reflexivity|].
  apply (callback_without_access_token_keeps_store callback_request env corsHeaders
           (initial rejecting start empty) _ _
           (trace (snd (handleAuthCallback callback_request env corsHeaders
                          (initial rejecting start empty))))
           basic (lit "c0de") rejection).
  - apply surjective_pairing.
  - symmetry. apply app_nil_r.
  - vm_compute. in_list.
  - reflexivity.
Defined.

(** C1 as the specification states it fails here: the exchange has
    succeeded (the token endpoint answered with an access token), the
    corporation lookup then throws, and no record holding the token
    pair is stored: the table is still empty and the answer is 500. *)
Lemma callback_lookup_failure_persists_nothing :
  let st := initial corporation_down start empty in
  let run := handleAuthCallback callback_request env corsHeaders st in
  In (Fetched (TokenByCode basic (lit "c0de")) (Ok tokens1)) (trace (snd run))
  /\ truthy (prop tokens1 (lit "access_token")) = true
  /\ In (Fetched (Corporation (JNum 77)) (Throw (Error (lit "ESI unavailable"))))
        (trace (snd run))
  /\ rows (users (snd run)) = []
  /\ ~ (exists row, In row (rows (users (snd run)))
                    /\ js_of_sql (access_token row) = prop tokens1 (lit "access_token")
                    /\ js_of_sql (refresh_token row) = prop tokens1 (lit "refresh_token")).
Proof.
  cbv zeta. split; [vm_compute; in_list|]. split; [reflexivity|].
  split; [vm_compute; in_list|]. split; [reflexivity|].
  intros (row & Hin & _). vm_compute in Hin. exact Hin.
Qed.

Lemma callback_lookup_failure_witness :
  let st := initial corporation_down start empty in
  let run := handleAuthCallback callback_request env corsHeaders st in
  In (Fetched (Corporation (JNum 77)) (Throw (Error (lit "ESI unavailable"))))
    (trace (snd run))
  /\ exists resp, fst run = Ok resp /\ status resp = 500 /\ users (snd run) = users st.
Proof.
  cbv zeta. split; [vm_compute; in_list|].
  apply (callback_lookup_failure_fails_whole_callback callback_request env corsHeaders
           (initial corporation_down start empty) _ _
           (trace (snd (handleAuthCallback callback_request env corsHeaders
                          (initial corporation_down start empty))))
           (Corporation (JNum 77)) (Error (lit "ESI unavailable"))).
  - apply surjective_pairing.
  - symmetry. apply app_nil_r.
  - vm_compute. in_list.
Defined.

(** The scenario of the specification for C7: U1 links at [start], the
    provider grants 1200 seconds, corporation G is in no alliance. *)
Lemma callback_sets_expiry_witness :
  let st := initial provider start empty in
  let run := handleAuthCallback callback_request env corsHeaders st in
  (exists resp, fst run = Ok resp /\ status resp = 200)
  /\ In (Fetched (TokenByCode basic (lit "c0de")) (Ok tokens1)) (trace (snd run))
  /\ prop tokens1 (lit "expires_in") = JNum 1200
  /\ In (Fetched (Corporation (JNum 77)) (Ok corporation_G)) (trace (snd run))
  /\ truthy (prop corporation_G (lit "alliance_id")) = false
  /\ exists t t2 older others row,
       trace (snd run) = Queried InsertOrReplaceUser :: Now t2 :: Now t :: older
       /\ rows (users (snd run)) = others ++ [row]
       /\ id row = last_rowid (users st) + 1
       /\ token_expires_at row = SText (iso_string (t + 1200 * 1000))
       /\ eve_alliance_id row = SNull
       /\ eve_alliance_name row = SNull
       /\ eve_alliance_ticker row = SNull.
Proof.
  cbv zeta. split; [eexists; split; vm_compute; reflexivity|].
  split; [vm_compute; in_list|]. split; [reflexivity|].
  split; [vm_compute; in_list|]. split; [reflexivity|].
  destruct (handleAuthCallback callback_request env corsHeaders
              (initial provider start empty)) as [r st'] eqn:Hrun.
  assert (exists resp, r = Ok resp /\ status resp = 200) as (resp & -> & H200).
  { replace r with (fst (handleAuthCallback callback_request env corsHeaders
                           (initial provider start empty))) by (rewrite Hrun; reflexivity).
    eexists; split; vm_compute; reflexivity. }
  cbn [fst snd].
  apply (callback_sets_expiry_and_no_alliance callback_request env corsHeaders
           (initial provider start empty) resp st' (trace st')
           basic (lit "c0de") tokens1 1200 (JNum 77) corporation_G Hrun H200).
  - symmetry. apply app_nil_r.
  - replace st' with (snd (handleAuthCallback callback_request env corsHeaders
                             (initial provider start empty))) by (rewrite Hrun; reflexivity).
    vm_compute. in_list.
  - reflexivity.
  - replace st' with (snd (handleAuthCallback callback_request env corsHeaders
                             (initial provider start empty))) by (rewrite Hrun; reflexivity).
    vm_compute. in_list.
  - reflexivity.
Defined.




(** Scenario for C10: a request without a key, and a preflight. *)
Lemma unauthorized_request_witness :
  let st := initial provider start three_records in
  fetch preflight_request env st
  = (Ok {| status := 200; headers := corsHeaders; body := NoBody |}, st)
  /\ fetch anonymous_request env st
     = (Ok {| status := 401; headers := json_headers corsHeaders;
              body := JsonError (lit "Unauthorized") |}, st).
Proof.
  cbv zeta.
  destruct (unauthorized_request_touches_nothing preflight_request env
              (initial provider start three_records)) as [Hoptions _].
  destruct (unauthorized_request_touches_nothing anonymous_request env
              (initial provider start three_records)) as [_ Hreject].
  split; [apply Hoptions; reflexivity|].
  apply Hreject; [discriminate | left; reflexivity].
Defined.

(** Scenario for C9: the sweep over the three records. *)
Lemma refresh_keeps_identity_columns_witness :
  let st := initial provider start three_records in
  let run := refreshAuthTokens env corsHeaders st in
  map frame (rows (users (snd run))) = map frame (rows three_records).
Proof.
  cbv zeta.
  apply (refresh_keeps_identity_columns env corsHeaders
           (initial provider start three_records) _ _ (surjective_pairing _)).
Defined.

(** Scenario for C2: the refresh of U2 is rejected; its row stays. *)
Lemma failed_refresh_witness :
  let st := initial provider start three_records in
  let run := refreshAuthTokens env corsHeaders st in
  let u2 := record 2 "U2" "RT-revoked" (start - 5000) in
  well_formed three_records = true
  /\ In u2 (rows three_records)
  /\ In u2 (rows (users (snd run)))
  /\ forall r', In r' (rows (users (snd run))) -> discord_id r' = discord_id u2 ->
       r' = u2
       /\ access_token r' = access_token u2
       /\ refresh_token r' = refresh_token u2
       /\ token_expires_at r' = token_expires_at u2.
Proof.
  cbv zeta.
  assert (well_formed three_records = true) as Hw by (vm_compute; reflexivity).
  assert (In (record 2 "U2" "RT-revoked" (start - 5000)) (rows three_records)) as Hin
    by (right; left; reflexivity).
  split; [exact Hw|]. split; [exact Hin|].
  destruct (refreshAuthTokens env corsHeaders (initial provider start three_records))
    as [r st'] eqn:Hrun.
  assert (r = Ok {| status := 200; headers := json_headers corsHeaders;
                    body := JsonRefresh
                      [{| refreshed_discord_id := str "U1";
                          character_name := str "Pilot";
                          corporation := str "G";
                          alliance := JNull |}]
                      [{| failed_discord_id := str "U2";
                          error := Error (lit "Failed to refresh token") |}] |}) as ->.
  { replace r with (fst (refreshAuthTokens env corsHeaders
                           (initial provider start three_records)))
      by (rewrite Hrun; reflexivity).
    vm_compute. reflexivity. }
  cbn [snd].
  apply (failed_refresh_leaves_record_unchanged env corsHeaders
           (initial provider start three_records) _ st' _ _
           {| failed_discord_id := str "U2";
              error := Error (lit "Failed to refresh token") |}
           (record 2 "U2" "RT-revoked" (start - 5000)) Hw Hrun eq_refl).
  - left. reflexivity.
  - exact Hin.
  - reflexivity.
Defined.

(** Scenario for C5: of the three records two are selected; each has its
    outcome and its one exchange. *)
Lemma sweep_attempts_witness :
  let st := initial provider start three_records in
  fst (date_now (snd (date_now (world st)))) + refresh_horizon <= maxTime
  /\ exists attempted outs st' new,
       Permutation attempted
         [record 1 "U1" "RT1" (start + 1800000);
          record 2 "U2" "RT-revoked" (start - 5000)]
       /\ refreshAuthTokens env corsHeaders st
          = (Ok {| status := 200; headers := json_headers corsHeaders;
                   body := JsonRefresh (dones outs) (losts outs) |}, st')
       /\ (length (dones outs) + length (losts outs) = 2)%nat
       /\ trace st' = new ++ trace st
       /\ rev (refresh_requests new)
          = map (fun user => TokenByRefresh basic (js_of_sql (refresh_token user)))
              attempted.
Proof.
  cbv zeta.
  assert (fst (date_now (snd (date_now (world (initial provider start three_records)))))
          + refresh_horizon <= maxTime) as Hclock
    by (apply Z.leb_le; vm_compute; reflexivity).
  split; [exact Hclock|].
  destruct (sweep_attempts_each_selected_record_once env corsHeaders
              (initial provider start three_records) Hclock)
    as (attempted & outs & st' & new & Hperm & Hrun & Hkeys & Hlen & _ & Htrace & Hreq).
  exists attempted, outs, st', new.
  split; [exact Hperm|]. split; [exact Hrun|]. split; [exact Hlen|].
  split; [exact Htrace|].
  apply (Hreq basic eq_refl).
Defined.


End Witnesses.

(* ===================================================================== *)
(** * The edges of the callback handler *)
(* ===================================================================== *)

Section CallbackEdges.

Context {P : Platform}.

Lemma absent_false (s : option jsstring) :
  absent s = false -> exists c, s = Some c /\ c <> [].
Proof.
  destruct s as [[|x c]|]; simpl; intros H; try discriminate.
  eexists. split; [reflexivity | discriminate].
Qed.

(** X1. The callback handler never throws: it answers 400, 500 or 200.
    It answers 400 exactly when [code] or [state] is missing from the
    query or empty, and then nothing at all has happened; and whenever it
    does not answer 200 the table is as it was. *)
Theorem callback_always_answers (request : HttpRequest) (env : Env) (cors : Headers)
    (st : State) :
  exists resp st',
    handleAuthCallback request env cors st = (Ok resp, st')
    /\ (status resp = 400 \/ status resp = 500 \/ status resp = 200)
    /\ (status resp = 400 <->
        absent (searchParams_get (searchParams request) (lit "code")) = true
        \/ absent (searchParams_get (searchParams request) (lit "state")) = true)
    /\ (status resp = 400 -> st' = st)
    /\ (status resp <> 200 -> users st' = users st).
Proof.
  destruct (handleAuthCallback request env cors st) as [r st'] eqn:H.
  pose proof H as Hcases. apply handleAuthCallback_cases in Hcases.
  destruct Hcases as (resp & -> & Hcases). exists resp, st'.
  split; [reflexivity|].
  unfold handleAuthCallback in H.
  destruct (absent (searchParams_get (searchParams request) (lit "code"))
            || absent (searchParams_get (searchParams request) (lit "state"))) eqn:Habs.
  - inversion H; subst. cbn [status]. apply orb_true_iff in Habs.
    repeat split; auto.
  - apply orb_false_elim in Habs. destruct Habs as [Hc Hs].
    destruct Hcases as [[H400 _] | [(H500 & Hu & _) | (H200 & _)]].
    + exfalso. unfold try_catch in H.
      destruct (link_account _ _ env st) as [[resp'|e] st1] eqn:E.
      * inversion H; subst. apply link_account_ok in E.
        destruct E as (? & ? & ? & ? & ? & ? & ? & ? & ? & ? & ? & ? & ?
                       & _ & _ & _ & _ & _ & _ & _ & _ & _ & _ & E).
        congruence.
      * inversion H; subst. discriminate H400.
    + rewrite H500. repeat split; auto; try discriminate.
      intros [Ha|Ha]; congruence.
    + rewrite H200. repeat split; auto; try discriminate.
      * intros [Ha|Ha]; congruence.
      * intros Hne. contradiction.
Qed.

(** The link stops before the first request when the state token does
    not decode. *)
Lemma link_account_undecoded code state env st e :
  match atob state with
  | Ok text => JSON.parse text
  | Throw e => Throw e
  end = Throw e ->
  link_account code state env st = (Throw e, st).
Proof.
  intros H. unfold link_account, bind_M, lift. rewrite H. reflexivity.
Qed.

(** X2. The provider is contacted only for a callback whose [code] and
    [state] are present and not empty and whose [state] is Base64:
    whenever a run of the handler made any request, [atob] had accepted
    the [state] parameter. A state token that [atob] refuses costs no
    request. *)
Theorem callback_contacts_provider_only_with_base64_state
    (request : HttpRequest) (env : Env) (cors : Headers) (st : State)
    (r : res Response) (st' : State) (new : list Event) (q : Request)
    (answer : res jsval) :
  handleAuthCallback request env cors st = (r, st') ->
  trace st' = new ++ trace st ->
  In (Fetched q answer) new ->
  exists code state text,
    searchParams_get (searchParams request) (lit "code") = Some code
    /\ code <> []
    /\ searchParams_get (searchParams request) (lit "state") = Some state
    /\ state <> []
    /\ atob state = Ok text.
Proof.
  intros H Hnew Hin.
  assert (trace st' = trace st -> False) as Hfresh.
  { intros E. rewrite E in Hnew. rewrite <- (app_nil_l (trace st)) in Hnew at 1.
    apply app_inv_tail in Hnew. subst new. contradiction. }
  unfold handleAuthCallback in H.
  destruct (absent (searchParams_get (searchParams request) (lit "code"))
            || absent (searchParams_get (searchParams request) (lit "state"))) eqn:Habs.
  { inversion H; subst. exfalso. auto. }
  apply orb_false_elim in Habs. destruct Habs as [Hc Hs].
  apply absent_false in Hc. destruct Hc as (code & Hc & Hcne).
  apply absent_false in Hs. destruct Hs as (state & Hs & Hsne).
  rewrite Hc, Hs in H. cbn [text_or_empty] in H.
  exists code, state.
  destruct (atob state) as [text|e] eqn:Hatob.
  - exists text. auto.
  - exfalso. unfold try_catch in H.
    rewrite (link_account_undecoded code state env st e) in H
      by (rewrite Hatob; reflexivity).
    inversion H; subst. auto.
Qed.

End CallbackEdges.

(* ===================================================================== *)
(** * The initiator *)
(* ===================================================================== *)

Lemma latin1_app (a b : jsstring) : latin1 (a ++ b) = latin1 a && latin1 b.
Proof. apply forallb_app. Qed.

Lemma latin1_cons (c : N) (s : jsstring) : latin1 (c :: s) = (c <=? 255)%N && latin1 s.
Proof. reflexivity. Qed.

Lemma latin1_digits (ds : jsstring) : forallb is_digit ds = true -> latin1 ds = true.
Proof.
  induction ds as [|d ds IH]; [reflexivity|]. cbn [forallb]. rewrite latin1_cons.
  intros H. apply andb_true_iff in H. destruct H as [Hd Hds].
  rewrite (IH Hds), andb_true_r. unfold is_digit in Hd.
  apply andb_true_iff in Hd. destruct Hd as [_ Hd].
  apply N.leb_le in Hd. apply N.leb_le. lia.
Qed.

Lemma latin1_num_to_string (n : Z) : latin1 (num_to_string n) = true.
Proof.
  unfold num_to_string. destruct (n <? 0) eqn:E.
  - apply Z.ltb_lt in E.
    destruct (digits_spec (- n) ltac:(lia)) as (d & ds & -> & Hd & _).
    rewrite latin1_cons. rewrite (latin1_digits _ Hd). reflexivity.
  - apply Z.ltb_ge in E.
    destruct (digits_spec n E) as (d & ds & -> & Hd & _).
    apply latin1_digits, Hd.
Qed.

Lemma hex_digit_ascii (n : N) : (n < 16)%N -> (JSON.hex_digit n <= 255)%N.
Proof. intros H. unfold JSON.hex_digit. destruct (n <? 10)%N; lia. Qed.

Lemma latin1_u_escape (c : N) : (c < 65536)%N -> latin1 (JSON.u_escape c) = true.
Proof.
  intros H. unfold JSON.u_escape. rewrite !latin1_cons.
  repeat (apply andb_true_iff; split); try reflexivity; apply N.leb_le;
    apply hex_digit_ascii; lia.
Qed.

Lemma latin1_quote_unit (c : N) : (c <= 255)%N -> latin1 (JSON.quote_unit c) = true.
Proof.
  intros H. unfold JSON.quote_unit.
  repeat match goal with
         | |- context [if ?b then _ else _] => destruct b; [try reflexivity|]
         end;
    try (apply latin1_u_escape; lia).
  rewrite latin1_cons. apply andb_true_iff. split; [apply N.leb_le; exact H | reflexivity].
Qed.

(** Quoting keeps a Latin-1 string Latin-1. *)
Lemma latin1_quote_body (s : jsstring) :
  latin1 s = true -> latin1 (JSON.quote_body s) = true.
Proof.
  induction s as [|c s IH]; [reflexivity|]. rewrite latin1_cons.
  intros H. apply andb_true_iff in H. destruct H as [Hc Hs]. apply N.leb_le in Hc.
  cbn [JSON.quote_body].
  assert (JSON.is_high c = false) as ->.
  { unfold JSON.is_high. apply andb_false_iff. left. apply N.leb_gt. lia. }
  rewrite latin1_app, (latin1_quote_unit c Hc), (IH Hs). reflexivity.
Qed.

Lemma latin1_quote (s : jsstring) : latin1 s = true -> latin1 (JSON.quote s) = true.
Proof.
  intros H. unfold JSON.quote. rewrite latin1_cons, latin1_app, latin1_quote_body by exact H.
  reflexivity.
Qed.

(** A code unit that is no surrogate is written as it is, unless it is
    one of the characters JSON escapes, all of them below 128. *)
Lemma quote_body_keeps (c : N) (s : jsstring) :
  In c s -> (255 < c)%N -> JSON.is_high c = false -> JSON.is_low c = false ->
  In c (JSON.quote_body s).
Proof.
  intros Hin Hc Hh Hl.
  assert (forall n s, (length s <= n)%nat -> In c s -> In c (JSON.quote_body s)) as H;
    [|apply (H (length s)); [lia | exact Hin]].
  clear s Hin. induction n as [|n IH]; intros s Hn Hin.
  - destruct s; [contradiction | cbn in Hn; lia].
  - destruct s as [|x s]; [contradiction|]. cbn [length] in Hn.
    cbn [JSON.quote_body]. destruct (JSON.is_high x) eqn:Hx.
    + assert (x <> c) as Hxc by (intros ->; congruence).
      destruct Hin as [Hin|Hin]; [contradiction|].
      destruct s as [|d s]; [contradiction|]. cbn [length] in Hn.
      destruct (JSON.is_low d) eqn:Hd.
      * assert (d <> c) as Hdc by (intros ->; congruence).
        destruct Hin as [Hin|Hin]; [contradiction|].
        right. right. apply IH; [lia | exact Hin].
      * apply in_or_app. right. apply IH; [cbn [length]; lia | exact Hin].
    + apply in_or_app. destruct Hin as [->|Hin].
      * left. unfold JSON.quote_unit.
        repeat match goal with
               | |- context [(c =? ?k)%N] =>
                   assert ((c =? k)%N = false) as -> by (apply N.eqb_neq; lia)
               end.
        assert ((c <? 32)%N = false) as -> by (apply N.ltb_ge; lia).
        rewrite Hl. left. reflexivity.
      * right. apply IH; [lia | exact Hin].
Qed.

Lemma latin1_In (c : N) (s : jsstring) : In c s -> (255 < c)%N -> latin1 s = false.
Proof.
  induction s as [|x s IH]; [contradiction|]. rewrite latin1_cons.
  intros [->|Hin] Hc.
  - assert ((c <=? 255)%N = false) as -> by (apply N.leb_gt; exact Hc). reflexivity.
  - rewrite (IH Hin Hc). apply andb_false_r.
Qed.

(** The text of an object of three members is Latin-1 when its parts
    are. *)
Lemma latin1_members (k1 v1 k2 v2 k3 v3 : jsstring) :
  latin1 k1 = true -> latin1 v1 = true -> latin1 k2 = true -> latin1 v2 = true ->
  latin1 k3 = true -> latin1 v3 = true ->
  latin1 (123%N :: k1 ++ 58%N :: v1 ++ 44%N :: k2 ++ 58%N :: v2 ++ 44%N
            :: k3 ++ 58%N :: v3 ++ [125%N]) = true.
Proof.
  intros H1 H2 H3 H4 H5 H6.
  repeat first [ rewrite latin1_cons | rewrite latin1_app ].
  rewrite H1, H2, H3, H4, H5, H6. reflexivity.
Qed.

Lemma truthy_JStr (s : jsstring) : s <> [] -> truthy (JStr s) = true.
Proof. destruct s; [contradiction | reflexivity]. Qed.

Section Initiator.

Context {P : Platform}.

(** X3. A login request whose body lacks [discord_id] or
    [discord_username], or gives one of them a falsy value (an empty
    string, 0, null, false), is answered 400; the clock is not read and
    the state is as it was. *)
Theorem login_without_identity_is_refused (request : HttpRequest) (env : Env)
    (cors : Headers) (st : State) (data : jsval) :
  json request = Ok data ->
  data <> JNull -> data <> JUndefined ->
  truthy (prop data (lit "discord_id")) = false
  \/ truthy (prop data (lit "discord_username")) = false ->
  createAuthURL request env cors st
  = (Ok {| status := 400; headers := json_headers cors;
           body := JsonError (lit "Missing discord_id or discord_username") |}, st).
Proof.
  intros Hjson Hnull Hundef Hfalsy.
  assert (forall k, get data k = Ok (prop data k)) as Hget
    by (intros k; destruct data; try reflexivity; contradiction).
  unfold createAuthURL, bind_M, lift. rewrite Hjson, !Hget.
  destruct Hfalsy as [-> | ->]; [reflexivity|].
  rewrite orb_true_r. reflexivity.
Qed.

(** X4. A login request whose [discord_id] and [discord_username] are
    non-empty strings of code units up to 0xFF always succeeds: the
    clock is read once, at [t]; the answer is 200 with the provider's
    authorization URL carrying [response_type=code], the configured
    redirect URI and client id, [scope=publicData] and a state token;
    and that token is the Base64 of the JSON text of the two values
    with [t] as timestamp. Nothing is stored and nothing is fetched. *)
Theorem login_with_latin1_identity_succeeds (request : HttpRequest) (env : Env)
    (cors : Headers) (st : State) (data : jsval) (who name : jsstring) :
  json request = Ok data ->
  prop data (lit "discord_id") = JStr who ->
  prop data (lit "discord_username") = JStr name ->
  who <> [] -> name <> [] ->
  latin1 who = true -> latin1 name = true ->
  exists t w state text,
    date_now (world st) = (t, w)
    /\ createAuthURL request env cors st
       = (Ok {| status := 200; headers := json_headers cors;
                body := JsonAuthUrl (authorization_url env state) |},
          {| world := w; users := users st; trace := Now t :: trace st |})
    /\ atob state = Ok text
    /\ JSON.parse text = Ok (state_object (JStr who) (JStr name) t).
Proof.
  intros Hjson Hid Hname Hwho Hnm Hl1 Hl2.
  assert (forall k, get data k = Ok (prop data k)) as Hget.
  { intros k. destruct data; try reflexivity; cbn in Hid; discriminate. }
  destruct (date_now (world st)) as [t w] eqn:Hnow.
  destruct (parse_stringify_state (JStr who) (JStr name) t I I) as (text & Hstr & Hparse).
  pose proof (stringify_state (JStr who) (JStr name) t _ _ eq_refl eq_refl) as Hform.
  assert (latin1 text = true) as Hlat.
  { rewrite Hstr in Hform. apply (f_equal (fun o => match o with
                                                    | Some x => latin1 x
                                                    | None => true
                                                    end)) in Hform.
    rewrite Hform.
    apply latin1_members; auto using latin1_quote, latin1_num_to_string. }
  clear Hform.
  exists t, w, (encode text), text.
  split; [reflexivity|]. split.
  - unfold createAuthURL, bind_M, lift. rewrite Hjson, !Hget, Hid, Hname.
    rewrite !truthy_JStr by assumption. cbn [negb orb].
    unfold Date_now. rewrite Hnow.
    change (JObj [(lit "discord_id", JStr who); (lit "discord_username", JStr name);
                  (lit "timestamp", JNum t)])
      with (state_object (JStr who) (JStr name) t).
    rewrite Hstr. cbn [text_of]. unfold btoa. rewrite Hlat. reflexivity.
  - split; [|exact Hparse]. apply atob_btoa. unfold btoa. rewrite Hlat. reflexivity.
Qed.

(** X5. A login request whose [discord_id] or [discord_username] holds a
    code unit above 0xFF that is not half of a surrogate pair (a Greek,
    Cyrillic or CJK letter, say) is not answered: [btoa] throws
    InvalidCharacterError on the JSON text. The table is as it was. *)
Theorem login_with_wide_character_throws (request : HttpRequest) (env : Env)
    (cors : Headers) (st : State) (data : jsval) (who name : jsstring) (c : N) :
  json request = Ok data ->
  prop data (lit "discord_id") = JStr who ->
  prop data (lit "discord_username") = JStr name ->
  who <> [] -> name <> [] ->
  In c who \/ In c name ->
  (255 < c)%N -> JSON.is_high c = false -> JSON.is_low c = false ->
  exists st',
    createAuthURL request env cors st = (Throw InvalidCharacterError, st')
    /\ users st' = users st.
Proof.
  intros Hjson Hid Hname Hwho Hnm Hin Hc Hh Hl.
  assert (forall k, get data k = Ok (prop data k)) as Hget.
  { intros k. destruct data; try reflexivity; cbn in Hid; discriminate. }
  destruct (date_now (world st)) as [t w] eqn:Hnow.
  pose proof (stringify_state (JStr who) (JStr name) t _ _ eq_refl eq_refl) as Hstr.
  eexists. split.
  - unfold createAuthURL, bind_M, lift. rewrite Hjson, !Hget, Hid, Hname.
    rewrite !truthy_JStr by assumption. cbn [negb orb].
    unfold Date_now. rewrite Hnow.
    change (JObj [(lit "discord_id", JStr who); (lit "discord_username", JStr name);
                  (lit "timestamp", JNum t)])
      with (state_object (JStr who) (JStr name) t).
    rewrite Hstr. cbn [text_of]. unfold btoa.
    match goal with
    | |- context [latin1 ?text] => assert (latin1 text = false) as ->
    end; [|reflexivity].
    apply (latin1_In c); [|exact Hc].
    right. apply in_or_app. right. right. apply in_or_app.
    destruct Hin as [Hin|Hin].
    + left. unfold JSON.quote. right. apply in_or_app. left.
      apply quote_body_keeps; assumption.
    + right. right. apply in_or_app. right. right. apply in_or_app. left.
      unfold JSON.quote. right. apply in_or_app. left.
      apply quote_body_keeps; assumption.
  - reflexivity.
Qed.

End Initiator.

(* ===================================================================== *)
(** * From the login to the stored record *)
(* ===================================================================== *)

Lemma filter_out_then_in {A} (f : A -> bool) (l : list A) :
  filter f (filter (fun x => negb (f x)) l) = [].
Proof.
  induction l as [|x l IH]; [reflexivity|]. cbn [filter].
  destruct (f x) eqn:E; cbn [negb filter]; [exact IH|]. rewrite E. exact IH.
Qed.

Lemma prop_state_object (a b : jsval) (t : Z) :
  prop (state_object a b t) (lit "discord_id") = a
  /\ prop (state_object a b t) (lit "discord_username") = b.
Proof. split; reflexivity. Qed.

Lemma state_of_authorization_url (env : Env) (state : jsstring) :
  searchParams_get (query (authorization_url env state)) (lit "state") = Some state.
Proof. reflexivity. Qed.

Section LoginToRecord.

Context {P : Platform}.

(** What an accepted login has put in its answer. *)
Lemma createAuthURL_ok request env cors st resp st' url :
  createAuthURL request env cors st = (Ok resp, st') ->
  body resp = JsonAuthUrl url ->
  exists data t text state,
    json request = Ok data
    /\ JSON.stringify (state_object (prop data (lit "discord_id"))
                         (prop data (lit "discord_username")) t) = Some text
    /\ btoa text = Ok state
    /\ url = authorization_url env state.
Proof.
  unfold createAuthURL. intros H Hbody.
  step_lift H. rename v into data.
  step_lift H. apply get_ok in E0. subst v.
  step_lift H. apply get_ok in E0. subst v.
  destruct (negb (truthy (prop data (lit "discord_id")))
            || negb (truthy (prop data (lit "discord_username")))).
  { apply ret_ok_inv in H. destruct H as [-> _]. discriminate Hbody. }
  step_now H. step_lift H. rename v into state.
  apply ret_ok_inv in H. destruct H as [-> _]. cbn [body] in Hbody.
  inversion Hbody; subst url.
  change (JObj [(lit "discord_id", prop data (lit "discord_id"));
                (lit "discord_username", prop data (lit "discord_username"));
                (lit "timestamp", JNum t)])
    with (state_object (prop data (lit "discord_id"))
            (prop data (lit "discord_username")) t) in E1.
  destruct (JSON.stringify _) as [text|] eqn:Hstr.
  - exists data, t, text, state. auto.
  - exfalso. unfold state_object in Hstr. cbn [JSON.stringify] in Hstr.
    discriminate Hstr.
Qed.

(** X6. The whole path of an identity: when a login for the strings
    [who] and [name] was accepted, and a callback carrying the state
    token of that login answers 200, the table holds exactly one record
    for [who]; it is the row just written, with a fresh rowid, its
    [discord_id] is [who] and its [discord_username] is [name]; and a
    lookup of [who] right after answers with that record. *)
Theorem login_then_callback_links_identity
    (login callback : HttpRequest) (env : Env) (cors : Headers)
    (st0 st1 st st' : State) (resp0 resp : Response) (url : Url) (data : jsval)
    (who name state : jsstring) :
  json login = Ok data ->
  prop data (lit "discord_id") = JStr who ->
  prop data (lit "discord_username") = JStr name ->
  createAuthURL login env cors st0 = (Ok resp0, st1) ->
  body resp0 = JsonAuthUrl url ->
  searchParams_get (query url) (lit "state") = Some state ->
  searchParams_get (searchParams callback) (lit "state") = Some state ->
  handleAuthCallback callback env cors st = (Ok resp, st') ->
  status resp = 200 ->
  exists row,
    select_user (SText who) (users st') = [row]
    /\ discord_id row = SText who
    /\ discord_username row = SText name
    /\ id row = last_rowid (users st) + 1
    /\ getAuthUser (JStr who) env cors st'
       = (Ok {| status := 200; headers := json_headers cors;
                body := JsonUser (Some row) |},
          log (Queried SelectUser) st').
Proof.
  intros Hjson Hid Hname Hlogin Hbody Hstate Hcallback Hrun H200.
  destruct (createAuthURL_ok _ _ _ _ _ _ _ Hlogin Hbody)
    as (data' & t & text & state' & Hjson' & Hstr & Hbtoa & ->).
  rewrite Hjson in Hjson'. inversion Hjson'; subst data'. clear Hjson'.
  rewrite Hid, Hname in Hstr.
  rewrite state_of_authorization_url in Hstate. inversion Hstate; subst state'.
  clear Hstate.
  destruct (parse_stringify_state (JStr who) (JStr name) t I I)
    as (text' & Hstr' & Hparse).
  rewrite Hstr in Hstr'. inversion Hstr'; subst text'. clear Hstr'.
  apply atob_btoa in Hbtoa.
  apply handleAuthCallback_cases in Hrun.
  destruct Hrun as (resp' & Hr & [[H400 _] | [(H500 & _) | (_ & c & s & _ & Hs & Hok)]]);
    inversion Hr; subst resp'; try congruence.
  rewrite Hcallback in Hs. inversion Hs; subst s. clear Hs.
  apply link_account_ok in Hok.
  destruct Hok as (text2 & decoded & a & tokens & characterInfo & charData & corpData
                   & allianceData & t1 & expiresAt & t2 & now & params
                   & Hatob & Hdec & _ & _ & _ & _ & Hbind & Hins & _).
  rewrite Hbtoa in Hatob. inversion Hatob; subst text2. clear Hatob.
  rewrite Hparse in Hdec. inversion Hdec; subst decoded. clear Hdec.
  destruct (prop_state_object (JStr who) (JStr name) t) as [E1 E2].
  rewrite E1, E2 in Hbind.
  bind_inv Hbind. cbn [bind_value] in Hp, Hp0.
  inversion Hp; inversion Hp0; subst p p0.
  apply insert_or_replace_ok in Hins.
  destruct Hins as (kept & row & Hrows & _ & _ & Hrow & _).
  cbn [text_affinity] in Hrows, Hrow.
  assert (select_user (SText who) (users st') = [row]) as Hsel.
  { unfold select_user, matches. rewrite Hrows, filter_app. cbn [text_affinity].
    rewrite (filter_out_then_in (fun x => sql_eqb (discord_id x) (SText who))).
    cbn [filter app]. rewrite Hrow. cbn [discord_id sql_eqb].
    rewrite str_eqb_refl. reflexivity. }
  exists row. split; [exact Hsel|].
  split; [rewrite Hrow; reflexivity|].
  split; [rewrite Hrow; reflexivity|].
  split; [rewrite Hrow; reflexivity|].
  unfold getAuthUser, bind_M, db_all. cbn [bind bind_value].
  rewrite Hsel. reflexivity.
Qed.

End LoginToRecord.

Section CallbackFrame.

Context {P : Platform}.

(** X7. A callback that answers 200 has written exactly one row, the
    last of the table, under a rowid never used before; the rows it has
    removed are those of the same [discord_id] (the record it replaces),
    and every record of another identity is where it was, as it was. *)
Theorem callback_replaces_one_identity (request : HttpRequest) (env : Env)
    (cors : Headers) (st st' : State) (resp : Response) :
  handleAuthCallback request env cors st = (Ok resp, st') ->
  status resp = 200 ->
  exists row,
    rows (users st')
    = filter (fun x => negb (sql_eqb (discord_id x) (discord_id row))) (rows (users st))
        ++ [row]
    /\ id row = last_rowid (users st) + 1
    /\ last_rowid (users st') = last_rowid (users st) + 1
    /\ is_null (discord_id row) = false.
Proof.
  intros Hrun H200.
  apply handleAuthCallback_cases in Hrun.
  destruct Hrun as (resp' & Hr & [[H400 _] | [(H500 & _) | (_ & c & s & _ & _ & Hok)]]);
    inversion Hr; subst resp'; try congruence.
  apply link_account_ok in Hok.
  destruct Hok as (text & decoded & a & tokens & characterInfo & charData & corpData
                   & allianceData & t1 & expiresAt & t2 & now & params
                   & _ & _ & _ & _ & _ & _ & Hbind & Hins & _).
  bind_inv Hbind.
  apply insert_or_replace_ok in Hins.
  destruct Hins as (kept & row & Hrows & Hlast & _ & Hrow & Hnn).
  exists row. rewrite Hrows, Hlast.
  split; [rewrite Hrow; reflexivity|].
  split; [rewrite Hrow; reflexivity|].
  split; [reflexivity|].
  unfold not_null_ok in Hnn. apply negb_true_iff in Hnn.
  repeat (apply orb_false_elim in Hnn; destruct Hnn as [Hnn _]).
  exact Hnn.
Qed.

End CallbackFrame.

(* ===================================================================== *)
(** * The router *)
(* ===================================================================== *)

Lemma split_on_piece (sep : N) (a b : jsstring) :
  ~ In sep a -> split_on sep (a ++ sep :: b) = a :: split_on sep b.
Proof.
  induction a as [|c a IH]; intros Hni.
  - cbn [app split_on]. rewrite N.eqb_refl. reflexivity.
  - cbn [app split_on].
    assert ((c =? sep)%N = false) as ->.
    { apply N.eqb_neq. intros ->. apply Hni. left. reflexivity. }
    rewrite IH; [reflexivity|]. intros H. apply Hni. right. exact H.
Qed.

Lemma split_on_last (sep : N) (a : jsstring) :
  ~ In sep a -> split_on sep a = [a].
Proof.
  induction a as [|c a IH]; intros Hni; [reflexivity|].
  cbn [split_on].
  assert ((c =? sep)%N = false) as ->.
  { apply N.eqb_neq. intros ->. apply Hni. left. reflexivity. }
  rewrite IH; [reflexivity|]. intros H. apply Hni. right. exact H.
Qed.

(** The first piece of what follows a prefix that ends in a slash. *)
Lemma split_on_head (k rest : jsstring) :
  ~ In 47%N k -> rest = [] \/ (exists r, rest = 47%N :: r) ->
  exists more, split_on 47%N (k ++ rest) = k :: more.
Proof.
  intros Hk [-> | (r & ->)].
  - rewrite app_nil_r, split_on_last by exact Hk. eauto.
  - rewrite split_on_piece by exact Hk. eauto.
Qed.

(** [path.split('/')[2]] of [/auth/<k>...] *)
Lemma segment_auth (k rest : jsstring) :
  ~ In 47%N k -> rest = [] \/ (exists r, rest = 47%N :: r) ->
  segment (lit "/auth/" ++ k ++ rest) 2 = JStr k.
Proof.
  intros Hk Hrest. unfold segment.
  change (lit "/auth/" ++ k ++ rest)
    with ([] ++ 47%N :: (lit "auth" ++ 47%N :: (k ++ rest))).
  rewrite split_on_piece by (intros []).
  rewrite split_on_piece
    by (unfold lit; cbn; intros H; repeat (destruct H as [H|H]; [discriminate H|]); exact H).
  destruct (split_on_head k rest Hk Hrest) as (more & ->). reflexivity.
Qed.

(** [path.split('/')[3]] of [/auth/user/<k>...] *)
Lemma segment_auth_user (k rest : jsstring) :
  ~ In 47%N k -> rest = [] \/ (exists r, rest = 47%N :: r) ->
  segment (lit "/auth/user/" ++ k ++ rest) 3 = JStr k.
Proof.
  intros Hk Hrest. unfold segment.
  change (lit "/auth/user/" ++ k ++ rest)
    with ([] ++ 47%N :: (lit "auth" ++ 47%N :: (lit "user" ++ 47%N :: (k ++ rest)))).
  rewrite split_on_piece by (intros []).
  rewrite split_on_piece
    by (unfold lit; cbn; intros H; repeat (destruct H as [H|H]; [discriminate H|]); exact H).
  rewrite split_on_piece
    by (unfold lit; cbn; intros H; repeat (destruct H as [H|H]; [discriminate H|]); exact H).
  destruct (split_on_head k rest Hk Hrest) as (more & ->). reflexivity.
Qed.

Lemma startsWith_app (p s : jsstring) : startsWith (p ++ s) p = true.
Proof.
  induction p as [|c p IH]; [destruct s; reflexivity|].
  cbn [app startsWith]. rewrite N.eqb_refl. exact IH.
Qed.

(** Decides the next test of the chain of routes: by the path when the
    path settles it, by the method otherwise. *)
Ltac route_test :=
  match goal with
  | |- context [if ?b && ?c then _ else _] =>
      first [ change (b && c) with false
            | change (b && c) with true
            | change c with false; rewrite (andb_false_r b) ];
      cbv iota
  end.

Section Routes.

Context {P : Platform} {R : ReminderRoutes}.

(** X8. The worker always answers: no exception leaves [fetch]. What a
    route throws (a body that is not JSON, a value D1 cannot bind, a
    date out of range) is caught and answered 500 with the exception in
    the body, in the state the route had reached. *)
Theorem fetch_always_answers (request : HttpRequest) (env : Env) (st : State) :
  (exists resp st', fetch request env st = (Ok resp, st'))
  /\ (forall e st1,
        method request <> lit "OPTIONS" ->
        unauthorized (x_api_key request) env = false ->
        route request env st = (Throw e, st1) ->
        fetch request env st
        = (Ok {| status := 500; headers := json_headers corsHeaders;
                 body := JsonException e |}, st1)).
Proof.
  unfold fetch. split.
  - destruct (str_eqb (method request) (lit "OPTIONS")); [unfold ret; eauto|].
    destruct (unauthorized (x_api_key request) env); [unfold ret; eauto|].
    unfold try_catch. destruct (route request env st) as [[resp|e] st1];
      unfold ret; eauto.
  - intros e st1 Hm Hkey Hroute. apply str_eqb_neq in Hm. rewrite Hm, Hkey.
    unfold try_catch. rewrite Hroute. reflexivity.
Qed.

(** X9. Every route asks for GET, POST or DELETE: an authorized request
    with any other method (PUT, PATCH, HEAD, ...) is answered 404 on
    every path, and nothing happens. *)
Theorem fetch_other_method_not_found (request : HttpRequest) (env : Env) (st : State) :
  method request <> lit "OPTIONS" ->
  method request <> lit "GET" ->
  method request <> lit "POST" ->
  method request <> lit "DELETE" ->
  unauthorized (x_api_key request) env = false ->
  fetch request env st
  = (Ok {| status := 404; headers := json_headers corsHeaders;
           body := JsonError (lit "Not found") |}, st).
Proof.
  intros Ho Hg Hp Hd Hkey. apply str_eqb_neq in Ho, Hg, Hp, Hd.
  unfold fetch. rewrite Ho, Hkey. unfold try_catch, route. cbv zeta beta.
  rewrite Hg, Hp, Hd, !andb_false_r. reflexivity.
Qed.

(** The lookup route: GET /auth/user/<k>, whatever follows a further
    slash. *)
Lemma route_lookup (request : HttpRequest) (env : Env) (k rest : jsstring) :
  method request = lit "GET" ->
  pathname request = lit "/auth/user/" ++ k ++ rest ->
  ~ In 47%N k -> rest = [] \/ (exists r, rest = 47%N :: r) ->
  route request env = getAuthUser (JStr k) env corsHeaders.
Proof.
  intros Hm Hp Hk Hrest. unfold route. cbv zeta beta. rewrite Hm, Hp.
  rewrite startsWith_app. repeat route_test.
  rewrite segment_auth_user by assumption. reflexivity.
Qed.

(** The removal route: DELETE /auth/<k>, whatever follows a further
    slash. *)
Lemma route_delete (request : HttpRequest) (env : Env) (k rest : jsstring) :
  method request = lit "DELETE" ->
  pathname request = lit "/auth/" ++ k ++ rest ->
  ~ In 47%N k -> rest = [] \/ (exists r, rest = 47%N :: r) ->
  route request env = deleteAuthUser (JStr k) env corsHeaders.
Proof.
  intros Hm Hp Hk Hrest. unfold route. cbv zeta beta. rewrite Hm, Hp.
  rewrite startsWith_app. repeat route_test.
  rewrite segment_auth by assumption. reflexivity.
Qed.

Lemma matches_text_key (k : jsstring) (r : Row) :
  matches (SText k) r = true <-> discord_id r = SText k.
Proof.
  unfold matches. cbn [text_affinity].
  destruct (discord_id r) as [|n|s]; cbn [sql_eqb];
    try (split; [discriminate | intros H; discriminate H]).
  rewrite str_eqb_eq. split; congruence.
Qed.

(** X10. An authorized [GET /auth/user/<k>] answers 200 and reads the
    table once without changing it: with the first record whose
    [discord_id] is the text [k] when there is one (under the UNIQUE
    constraint, the record), and with [authenticated: false] exactly
    when no record has that [discord_id]. *)
Theorem lookup_route_answers_with_the_record (request : HttpRequest) (env : Env)
    (st : State) (k rest : jsstring) :
  method request = lit "GET" ->
  pathname request = lit "/auth/user/" ++ k ++ rest ->
  ~ In 47%N k -> rest = [] \/ (exists r, rest = 47%N :: r) ->
  unauthorized (x_api_key request) env = false ->
  exists found,
    fetch request env st
    = (Ok {| status := 200; headers := json_headers corsHeaders;
             body := JsonUser found |},
       log (Queried SelectUser) st)
    /\ (forall r, found = Some r -> In r (rows (users st)) /\ discord_id r = SText k)
    /\ (found = None <-> forall r, In r (rows (users st)) -> discord_id r <> SText k).
Proof.
  intros Hm Hp Hk Hrest Hkey.
  unfold fetch. rewrite Hm. change (str_eqb (lit "GET") (lit "OPTIONS")) with false.
  cbv iota. rewrite Hkey. unfold try_catch.
  rewrite (route_lookup request env k rest Hm Hp Hk Hrest).
  unfold getAuthUser, bind_M, db_all. cbn [bind bind_value]. unfold ret.
  eexists. split; [reflexivity|]. unfold select_user.
  destruct (filter (matches (SText k)) (rows (users st))) as [|r0 l] eqn:Hsel.
  - split; [discriminate|]. split; [|reflexivity].
    intros _ r Hr Heq. apply matches_text_key in Heq.
    assert (In r (filter (matches (SText k)) (rows (users st)))) as Hin
      by (apply filter_In; auto).
    rewrite Hsel in Hin. contradiction.
  - assert (In r0 (filter (matches (SText k)) (rows (users st)))) as Hin
      by (rewrite Hsel; left; reflexivity).
    apply filter_In in Hin. destruct Hin as [Hin Hmatch].
    apply matches_text_key in Hmatch.
    split; [intros r Hr; inversion Hr; subst; auto|].
    split; [discriminate|]. intros Hnone. exfalso. exact (Hnone r0 Hin Hmatch).
Qed.

(** X11. An authorized [DELETE /auth/<k>] answers 200 whether or not
    the identity is known; afterwards no record has [discord_id] [k],
    every other record is where it was, as it was, and no rowid is
    given back. The identity removed is the piece of the path between
    the second slash and the next: whatever follows a further slash is
    ignored, so that [DELETE /auth/user/42] removes the record of the
    identity named [user]. *)
Theorem delete_route_removes_the_identity (request : HttpRequest) (env : Env)
    (st : State) (k rest : jsstring) :
  method request = lit "DELETE" ->
  pathname request = lit "/auth/" ++ k ++ rest ->
  ~ In 47%N k -> rest = [] \/ (exists r, rest = 47%N :: r) ->
  unauthorized (x_api_key request) env = false ->
  exists st',
    fetch request env st
    = (Ok {| status := 200; headers := json_headers corsHeaders;
             body := JsonMessage (lit "User authentication deleted") |}, st')
    /\ rows (users st')
       = filter (fun r => negb (sql_eqb (discord_id r) (SText k))) (rows (users st))
    /\ last_rowid (users st') = last_rowid (users st)
    /\ (forall r, In r (rows (users st'))
                  <-> In r (rows (users st)) /\ discord_id r <> SText k)
    /\ select_user (SText k) (users st') = [].
Proof.
  intros Hm Hp Hk Hrest Hkey.
  unfold fetch. rewrite Hm. change (str_eqb (lit "DELETE") (lit "OPTIONS")) with false.
  cbv iota. rewrite Hkey. unfold try_catch.
  rewrite (route_delete request env k rest Hm Hp Hk Hrest).
  unfold deleteAuthUser, bind_M, db_run. cbn [bind bind_value]. unfold ret.
  eexists. split; [reflexivity|]. cbn [users rows last_rowid delete_user].
  split; [reflexivity|]. split; [reflexivity|]. split.
  - intros r. rewrite filter_In. rewrite negb_true_iff.
    rewrite <- (matches_text_key k r).
    destruct (matches (SText k) r); split; intros [H1 H2]; split; auto;
      try discriminate; try congruence.
  - unfold select_user. apply (filter_out_then_in (matches (SText k))).
Qed.

End Routes.

(* ===================================================================== *)
(** * The listing of the identities *)
(* ===================================================================== *)

Lemma text_compare_flip (a b : jsstring) :
  text_compare b a = CompOpp (text_compare a b).
Proof.
  revert b. induction a as [|x a IH]; intros [|y b]; cbn [text_compare]; try reflexivity.
  rewrite (N.compare_antisym x y).
  destruct (x ?= y)%N; cbn [CompOpp]; [apply IH | reflexivity | reflexivity].
Qed.

(** Of two values that are not NULL one is at most the other. *)
Lemma sql_leb_total (a b : sqlval) :
  is_null a = false -> is_null b = false -> sql_leb a b = false -> sql_leb b a = true.
Proof.
  destruct a as [|x|x], b as [|y|y]; cbn [is_null sql_leb]; try discriminate; auto.
  - intros _ _ H. apply Z.leb_gt in H. apply Z.leb_le. lia.
  - intros _ _. unfold text_leb. rewrite (text_compare_flip x y).
    destruct (text_compare x y); cbn [CompOpp]; congruence.
Qed.

Lemma insert_sorted_Permutation (r : Row) (l : list Row) :
  Permutation (insert_sorted r l) (r :: l).
Proof.
  induction l as [|x l IH]; cbn [insert_sorted]; [reflexivity|].
  destruct (sql_leb (discord_username r) (discord_username x)); [reflexivity|].
  rewrite IH. apply perm_swap.
Qed.

Lemma select_all_ordered_Permutation (t : Table) :
  Permutation (select_all_ordered t) (rows t).
Proof.
  unfold select_all_ordered. induction (rows t) as [|r l IH]; cbn [fold_right];
    [reflexivity|].
  rewrite insert_sorted_Permutation. constructor. exact IH.
Qed.

Lemma ascending_cons (a : sqlval) (l : list sqlval) :
  ascending (a :: l)
  = match l with [] => true | b :: _ => sql_leb a b && ascending l end.
Proof. destruct l; reflexivity. Qed.

Lemma insert_sorted_head (r : Row) (l : list Row) :
  exists y rest, insert_sorted r l = y :: rest
                 /\ (y = r \/ exists l', l = y :: l').
Proof.
  destruct l as [|x l]; cbn [insert_sorted]; [eauto|].
  destruct (sql_leb (discord_username r) (discord_username x)); eauto 6.
Qed.

Lemma insert_sorted_ascending (r : Row) (l : list Row) :
  is_null (discord_username r) = false ->
  (forall x, In x l -> is_null (discord_username x) = false) ->
  ascending (map discord_username l) = true ->
  ascending (map discord_username (insert_sorted r l)) = true.
Proof.
  intros Hr. induction l as [|x l IH]; intros Hl Hasc; [reflexivity|].
  cbn [insert_sorted].
  destruct (sql_leb (discord_username r) (discord_username x)) eqn:E.
  - cbn [map]. rewrite ascending_cons. rewrite E. exact Hasc.
  - assert (sql_leb (discord_username x) (discord_username r) = true) as Hxr.
    { apply sql_leb_total; auto. apply Hl. left. reflexivity. }
    cbn [map] in Hasc |- *. rewrite ascending_cons in Hasc |- *.
    assert (ascending (map discord_username l) = true) as Htail.
    { destruct (map discord_username l); [reflexivity|].
      apply andb_true_iff in Hasc. apply Hasc. }
    specialize (IH (fun y Hy => Hl y (or_intror Hy)) Htail).
    destruct (insert_sorted_head r l) as (y & rest & Heq & Hy).
    rewrite Heq in IH |- *. cbn [map] in IH |- *. rewrite IH, andb_true_r.
    destruct Hy as [-> | (l' & ->)]; [exact Hxr|].
    cbn [map] in Hasc. apply andb_true_iff in Hasc. apply Hasc.
Qed.

Lemma select_all_ordered_ascending (t : Table) :
  (forall x, In x (rows t) -> is_null (discord_username x) = false) ->
  ascending (map discord_username (select_all_ordered t)) = true.
Proof.
  unfold select_all_ordered. induction (rows t) as [|r l IH]; intros Hl;
    cbn [fold_right]; [reflexivity|].
  apply insert_sorted_ascending.
  - apply Hl. left. reflexivity.
  - intros x Hx.
    apply (Permutation_in _ (select_all_ordered_Permutation {| rows := l; last_rowid := 0 |}))
      in Hx. apply Hl. right. exact Hx.
  - apply IH. intros x Hx. apply Hl. right. exact Hx.
Qed.

Lemma plain_text_not_null (v : sqlval) : plain_text v = true -> is_null v = false.
Proof. destruct v; simpl; congruence. Qed.

Section Listing.

Context {P : Platform}.

(** X12. [GET /auth/users]: over a table whose [discord_username]s are
    texts of code units below 0xD800, the listing answers 200 with one
    entry for every record of the table, each exactly once (the answer
    shows seven columns of each), in ascending order of
    [discord_username]; the table is read once and not changed. *)
Theorem listing_is_complete_and_ordered (env : Env) (cors : Headers) (st : State) :
  (forall r, In r (rows (users st)) -> plain_text (discord_username r) = true) ->
  exists results,
    getAllAuthUsers env cors st
    = (Ok {| status := 200; headers := json_headers cors; body := JsonUsers results |},
       log (Queried SelectAllUsers) st)
    /\ Permutation results (rows (users st))
    /\ ascending (map discord_username results) = true.
Proof.
  intros Hplain. exists (select_all_ordered (users st)).
  split; [reflexivity|].
  split; [apply select_all_ordered_Permutation|].
  apply select_all_ordered_ascending.
  intros r Hr. apply plain_text_not_null, Hplain, Hr.
Qed.

End Listing.

(* ===================================================================== *)
(** * The records a sweep passes by *)
(* ===================================================================== *)

Section SweepEdges.

Context {P : Platform}.

(** X13. Within the years 0 to 9999 a sweep leaves alone every record
    that expires later than its bound: over a table that satisfies the
    schema, when the bound (the second clock reading plus one hour) lies
    in these years, a record whose [token_expires_at] is the ISO text of
    an instant of these years after the bound is, after the sweep, the
    row it was, whatever happened to the records the sweep selected. An
    expiry in a year of more than four digits is not covered: its text
    sorts below the bound. *)
Theorem sweep_leaves_later_records_untouched (env : Env) (cors : Headers)
    (st st' : State) (r : res Response) (row : Row) (e : Z) :
  well_formed (users st) = true ->
  refreshAuthTokens env cors st = (r, st') ->
  In row (rows (users st)) ->
  token_expires_at row = SText (iso_string e) ->
  four_digit_year e ->
  four_digit_year (fst (date_now (snd (date_now (world st)))) + refresh_horizon) ->
  fst (date_now (snd (date_now (world st)))) + refresh_horizon < e ->
  In row (rows (users st')).
Proof.
  intros Hw H Hrow Hexp He Hb Hlater.
  apply refreshAuthTokens_spec in H. cbv zeta in H.
  destruct H as [(x & _ & Hu & _) | (outs & new & _ & _ & Hs & _)];
    [rewrite Hu; exact Hrow|].
  pose proof (well_formed_inv _ Hw) as [HF Hd]. rewrite Forall_forall in HF.
  eapply swept_other; [exact Hs | exact Hrow |].
  intros user Huser.
  destruct (matches (discord_id user) row) eqn:Em; [|reflexivity].
  exfalso. apply select_expiring_In in Huser. destruct Huser as [Huser Hsel].
  apply matches_text in Em; [|apply HF, Huser|apply HF, Hrow].
  assert (user = row) as ->.
  { eapply NoDup_map_In_eq; eauto. }
  rewrite Hexp in Hsel. cbn [text_affinity sql_leb] in Hsel.
  rewrite iso_string_leb in Hsel by assumption.
  apply Z.leb_le in Hsel. lia.
Qed.

(** X14. A sweep that finds nothing to refresh makes no request and
    writes nothing: it reads the clock twice, runs its query and
    answers 200 with two empty arrays. *)
Theorem sweep_with_nothing_expiring (env : Env) (cors : Headers) (st : State) :
  let t0 := fst (date_now (world st)) in
  let w1 := snd (date_now (world st)) in
  let t := fst (date_now w1) in
  t + refresh_horizon <= maxTime ->
  select_expiring (SText (iso_string (t + refresh_horizon))) (users st) = [] ->
  refreshAuthTokens env cors st
  = (Ok {| status := 200; headers := json_headers cors; body := JsonRefresh [] [] |},
     {| world := snd (date_now w1); users := users st;
        trace := Queried SelectExpiring :: Now t :: Now t0 :: trace st |}).
Proof.
  cbv zeta. intros Hclock Hnone.
  pose proof (date_now_valid (world st)) as V0.
  pose proof (date_now_valid (snd (date_now (world st)))) as V1.
  unfold refreshAuthTokens, new_Date_toISOString, bind_M, Date_now, lift.
  destruct (date_now (world st)) as [t0 w1]. cbn [fst snd world] in *.
  unfold toISOString at 1. unfold valid_time in V0. rewrite V0.
  destruct (date_now w1) as [t w2]. cbn [fst snd world] in *.
  unfold toISOString.
  assert ((- maxTime <=? t + refresh_horizon) && (t + refresh_horizon <=? maxTime) = true)
    as ->.
  { unfold valid_time in V1. apply andb_true_iff in V1. destruct V1 as [V1 _].
    apply Z.leb_le in V1. apply andb_true_iff. split; apply Z.leb_le;
      [unfold refresh_horizon; lia | exact Hclock]. }
  unfold db_all. cbn [bind bind_value users]. rewrite Hnone.
  reflexivity.
Qed.

End SweepEdges.

(* ===================================================================== *)
(** * Moving a date by days *)
(* ===================================================================== *)

Lemma month_days_back : all_from 366 month_day_back 0 = true.
Proof. vm_compute. reflexivity. Qed.

(** The day number of the date of a day number is that day number. *)
Lemma days_from_civil_from_days (z : Z) :
  let '(y, m, d) := civil_from_days z in Calendar.days_from_civil y m d = z.
Proof.
  unfold civil_from_days, civil_of_era_day.
  set (z' := z + 719468).
  assert (0 <= z' mod daysPerEra < daysPerEra) as Hdoe
    by (apply Z.mod_pos_bound; reflexivity).
  set (doe := z' mod daysPerEra) in *.
  destruct (year_of_era_bounds doe Hdoe) as (Hy & Hlo & Hhi).
  set (yoe := year_of_era doe) in *.
  pose proof (all_from_spec _ _ _ month_days_back (doe - year_start yoe) ltac:(lia))
    as Hback.
  unfold month_day_back in Hback.
  destruct (month_day (doe - year_start yoe)) as [m d].
  apply Z.eqb_eq in Hback.
  unfold Calendar.days_from_civil.
  assert ((if m <=? 2 then yoe + (if m <=? 2 then 1 else 0) + 400 * (z' / daysPerEra) - 1
           else yoe + (if m <=? 2 then 1 else 0) + 400 * (z' / daysPerEra))
          = yoe + 400 * (z' / daysPerEra)) as ->
    by (destruct (m <=? 2); lia).
  assert ((yoe + 400 * (z' / daysPerEra)) mod 400 = yoe) as ->.
  { generalize (z' / daysPerEra). intros q. lia. }
  assert ((yoe + 400 * (z' / daysPerEra)) / 400 = z' / daysPerEra) as ->.
  { generalize (z' / daysPerEra). intros q. lia. }
  rewrite Hback.
  pose proof (Z.div_mod z' daysPerEra ltac:(discriminate)) as Hdm.
  fold doe in Hdm. subst z'. lia.
Qed.

(** [setDate(getDate() - n)] moves a date back by [n] days of 24 hours,
    to the same time of the day. *)
Lemma setDate_back (t n : Z) :
  Calendar.setDate t (Calendar.getDate t - n) = Calendar.TimeClip (t - n * msPerDay).
Proof.
  unfold Calendar.setDate, Calendar.getDate.
  pose proof (days_from_civil_from_days (t / msPerDay)) as Hinv.
  destruct (civil_from_days (t / msPerDay)) as [[y m] d].
  f_equal. unfold Calendar.MakeDate, Calendar.MakeDay.
  assert (Calendar.days_from_civil y m 1 = Calendar.days_from_civil y m d - d + 1) as ->
    by (unfold Calendar.days_from_civil; lia).
  rewrite Hinv.
  pose proof (Z.div_mod t msPerDay ltac:(discriminate)). lia.
Qed.

(* ===================================================================== *)
(** * The reminders *)
(* ===================================================================== *)

(** A string that does not start with a minus sign denotes an integer
    when it is made of digits. *)
Lemma parse_int_unsigned (a : N) (s : jsstring) :
  a <> 45%N ->
  parse_int (a :: s)
  = if is_digit a
    then match read_digits (a :: s) 0 with
         | (n, []) => Some n
         | _ => None
         end
    else None.
Proof.
  intros Hne. destruct a as [|p]; [reflexivity|].
  destruct p as [p|p|]; try reflexivity;
    repeat (destruct p as [p|p|]; try reflexivity);
    exfalso; apply Hne; reflexivity.
Qed.

(** The text of an integer denotes that integer. *)
Lemma parse_int_num_to_string (n : Z) : parse_int (num_to_string n) = Some n.
Proof.
  unfold num_to_string. destruct (n <? 0) eqn:En.
  - apply Z.ltb_lt in En.
    destruct (digits_spec (- n) ltac:(lia)) as (d & ds & Heq & Hdig & Hval & _).
    rewrite Heq. cbn [parse_int].
    pose proof Hdig as Hd. cbn [forallb] in Hd. apply andb_true_iff in Hd.
    destruct Hd as [Hd _]. rewrite Hd.
    rewrite <- (app_nil_r (d :: ds)), (read_digits_app (d :: ds) [] 0 Hdig I), Hval.
    f_equal. lia.
  - apply Z.ltb_ge in En.
    destruct (digits_spec n En) as (d & ds & Heq & Hdig & Hval & _).
    rewrite Heq.
    pose proof Hdig as Hd. cbn [forallb] in Hd. apply andb_true_iff in Hd.
    destruct Hd as [Hd _].
    rewrite parse_int_unsigned by (intros ->; discriminate Hd).
    rewrite Hd.
    rewrite <- (app_nil_r (d :: ds)), (read_digits_app _ [] 0 Hdig I), Hval.
    reflexivity.
Qed.

(** A string without a digit denotes no integer. *)
Lemma parse_int_no_digit (k : jsstring) :
  forallb (fun c => negb (is_digit c)) k = true -> parse_int k = None.
Proof.
  destruct k as [|a s]; [reflexivity|]. cbn [forallb]. intros H.
  apply andb_true_iff in H. destruct H as [Ha Hs]. apply negb_true_iff in Ha.
  destruct (N.eq_dec a 45) as [->|Hne].
  - destruct s as [|c s]; [reflexivity|]. cbn [forallb] in Hs.
    apply andb_true_iff in Hs. destruct Hs as [Hc _]. apply negb_true_iff in Hc.
    cbn [parse_int]. rewrite Hc. reflexivity.
  - rewrite parse_int_unsigned by exact Hne. rewrite Ha. reflexivity.
Qed.

Lemma integer_affinity_digits (n : Z) :
  integer_affinity (SText (num_to_string n)) = SInt n.
Proof. cbn [integer_affinity]. rewrite parse_int_num_to_string. reflexivity. Qed.

Section ReminderFacts.

Context {P : Platform}.

Lemma bind_H_ok_inv {A B} (m : Reminders.H A) (k : A -> Reminders.H B) st b st' :
  Reminders.bind_H m k st = (Ok b, st') ->
  exists a st1, m st = (Ok a, st1) /\ k a st1 = (Ok b, st').
Proof.
  unfold Reminders.bind_H. destruct (m st) as [[a|e] st1]; intros H;
    [eauto | discriminate].
Qed.

Lemma lift_H_ok_inv {A} (r : res A) st a st' :
  Reminders.lift_H r st = (Ok a, st') -> r = Ok a /\ st' = st.
Proof. unfold Reminders.lift_H. intros H. inversion H. auto. Qed.

(** What an accepted creation has done. *)
Lemma createReminder_ok request env cors st resp st' :
  Reminders.createReminder request env cors st = (Ok resp, st') ->
  status resp = 201 ->
  exists data p1 p2 p3 p4 p5 t new,
    json request = Ok data
    /\ bind_value (prop data (lit "guild_id")) = Ok p1
    /\ bind_value (prop data (lit "channel_id")) = Ok p2
    /\ bind_value (prop data (lit "user_id")) = Ok p3
    /\ bind_value (prop data (lit "reminder_time")) = Ok p4
    /\ bind_value (prop data (lit "message")) = Ok p5
    /\ t = fst (date_now (Reminders.clock st))
    /\ new = {| Reminders.id := Reminders.last_rowid (Reminders.reminders st) + 1;
                Reminders.guild_id := integer_affinity p1;
                Reminders.channel_id := integer_affinity p2;
                Reminders.user_id := integer_affinity p3;
                Reminders.reminder_time := text_affinity p4;
                Reminders.message := text_affinity p5;
                Reminders.created_at := SText (iso_string t) |}
    /\ Reminders.not_null_ok new = true
    /\ resp = {| status := 201; headers := json_headers cors;
                 body := JsonOther
                           (JObj [(lit "message", JStr (lit "Reminder created"));
                                  (lit "id", JNum (Reminders.id new))]) |}
    /\ st' = {| Reminders.clock := snd (date_now (Reminders.clock st));
                Reminders.reminders :=
                  {| Reminders.rows := Reminders.rows (Reminders.reminders st) ++ [new];
                     Reminders.last_rowid :=
                       Reminders.last_rowid (Reminders.reminders st) + 1 |} |}.
Proof.
  unfold Reminders.createReminder. intros H H201.
  apply bind_H_ok_inv in H. destruct H as (data & s1 & E & H).
  apply lift_H_ok_inv in E. destruct E as [Hjson ->].
  repeat (let v := fresh "v" in
          let s := fresh "s" in
          let E := fresh "E" in
          apply bind_H_ok_inv in H; destruct H as (v & s & E & H);
          apply lift_H_ok_inv in E; destruct E as [E ->]; apply get_ok in E; subst v).
  match type of H with
  | (if ?c then _ else _) _ = _ => destruct c
  end.
  { inversion H; subst. discriminate H201. }
  apply bind_H_ok_inv in H. destruct H as (t & s1 & E & H).
  unfold Reminders.new_Date in E.
  destruct (date_now (Reminders.clock st)) as [t0 w] eqn:Hnow.
  inversion E; subst t0 s1. clear E.
  apply bind_H_ok_inv in H. destruct H as (created & s1 & E & H).
  apply lift_H_ok_inv in E. destruct E as [E ->].
  assert (created = iso_string t) as ->.
  { unfold toISOString in E. destruct (_ && _); inversion E; reflexivity. }
  apply bind_H_ok_inv in H. destruct H as (n & s1 & E' & H).
  unfold Reminders.run in E'.
  destruct (bind _) as [params|] eqn:Hbind; [|discriminate].
  bind_inv Hbind. cbn [bind_value] in Hp4. inversion Hp4; subst p4. clear Hp4.
  cbn [Reminders.reminders Reminders.insert text_affinity] in E'.
  match type of E' with
  | context [Reminders.not_null_ok ?r] =>
      destruct (Reminders.not_null_ok r) eqn:Hnn; [|discriminate]
  end.
  inversion E'; subst n s1. clear E'.
  inversion H; subst resp st'. clear H.
  cbn [fst snd Reminders.clock].
  exists data, p, p0, p1, p2, p3, t. eexists.
  repeat split; eauto.
Qed.

(** X15. A request to create a reminder that lacks one of [guild_id],
    [channel_id], [user_id], [reminder_time] and [message], or gives
    one of them a falsy value (0, an empty string, null, false), is
    answered 400; the clock is not read, nothing is stored. *)
Theorem reminder_without_required_field_is_refused (request : HttpRequest)
    (env : Env) (cors : Headers) (st : Reminders.Store) (data : jsval) (k : jsstring) :
  json request = Ok data ->
  data <> JNull -> data <> JUndefined ->
  In k [lit "guild_id"; lit "channel_id"; lit "user_id"; lit "reminder_time";
        lit "message"] ->
  truthy (prop data k) = false ->
  Reminders.createReminder request env cors st
  = (Ok {| status := 400; headers := json_headers cors;
           body := JsonError (lit "Missing required fields") |}, st).
Proof.
  intros Hjson Hnull Hundef Hk Hfalsy.
  assert (forall x, get data x = Ok (prop data x)) as Hget
    by (intros x; destruct data; try reflexivity; contradiction).
  unfold Reminders.createReminder, Reminders.bind_H, Reminders.lift_H.
  rewrite Hjson, !Hget.
  assert (negb (truthy (prop data (lit "guild_id")))
          || negb (truthy (prop data (lit "channel_id")))
          || negb (truthy (prop data (lit "user_id")))
          || negb (truthy (prop data (lit "reminder_time")))
          || negb (truthy (prop data (lit "message"))) = true) as ->; [|reflexivity].
  cbn [In] in Hk.
  destruct Hk as [<-|[<-|[<-|[<-|[<-|[]]]]]]; rewrite Hfalsy; cbn [negb];
    rewrite ?orb_true_r; reflexivity.
Qed.

(** X16. A request to create a reminder whose three ids are numbers
    other than 0 and whose time and message are non-empty strings is
    always accepted: the clock is read once, at [t]; the table gains
    one row, the last, under the rowid after the largest ever handed
    out, holding the five values and the ISO text of [t] as
    [created_at]; the rows it had are as they were; and the answer is
    201 with that rowid as [id]. *)
Theorem created_reminder_is_stored (request : HttpRequest) (env : Env)
    (cors : Headers) (st : Reminders.Store) (data : jsval)
    (g c u : Z) (time text : jsstring) :
  json request = Ok data ->
  prop data (lit "guild_id") = JNum g ->
  prop data (lit "channel_id") = JNum c ->
  prop data (lit "user_id") = JNum u ->
  prop data (lit "reminder_time") = JStr time ->
  prop data (lit "message") = JStr text ->
  g <> 0 -> c <> 0 -> u <> 0 -> time <> [] -> text <> [] ->
  let t := fst (date_now (Reminders.clock st)) in
  let new := {| Reminders.id := Reminders.last_rowid (Reminders.reminders st) + 1;
                Reminders.guild_id := SInt g;
                Reminders.channel_id := SInt c;
                Reminders.user_id := SInt u;
                Reminders.reminder_time := SText time;
                Reminders.message := SText text;
                Reminders.created_at := SText (iso_string t) |} in
  Reminders.createReminder request env cors st
  = (Ok {| status := 201; headers := json_headers cors;
           body := JsonOther
                     (JObj [(lit "message", JStr (lit "Reminder created"));
                            (lit "id", JNum (Reminders.id new))]) |},
     {| Reminders.clock := snd (date_now (Reminders.clock st));
        Reminders.reminders :=
          {| Reminders.rows := Reminders.rows (Reminders.reminders st) ++ [new];
             Reminders.last_rowid :=
               Reminders.last_rowid (Reminders.reminders st) + 1 |} |}).
Proof.
  intros Hjson Hg Hc Hu Htime Htext Hg0 Hc0 Hu0 Ht0 Hx0. cbv zeta.
  assert (forall x, get data x = Ok (prop data x)) as Hget.
  { intros x. destruct data; try reflexivity; cbn in Hg; discriminate. }
  unfold Reminders.createReminder, Reminders.bind_H, Reminders.lift_H.
  rewrite Hjson, !Hget, Hg, Hc, Hu, Htime, Htext.
  rewrite !truthy_JStr by assumption.
  cbn [truthy].
  apply Z.eqb_neq in Hg0, Hc0, Hu0. rewrite Hg0, Hc0, Hu0. cbn [negb orb].
  unfold Reminders.new_Date.
  pose proof (date_now_valid (Reminders.clock st)) as Hvalid.
  destruct (date_now (Reminders.clock st)) as [t w]. cbn [fst snd] in *.
  unfold toISOString. unfold valid_time in Hvalid. rewrite Hvalid.
  unfold Reminders.run. cbn [bind bind_value Reminders.reminders].
  reflexivity.
Qed.

End ReminderFacts.

(** ** The order of a listing *)

Lemma insert_by_time_Permutation (r : Reminders.Reminder) (l : list Reminders.Reminder) :
  Permutation (Reminders.insert_by_time r l) (r :: l).
Proof.
  induction l as [|x l IH]; cbn [Reminders.insert_by_time]; [reflexivity|].
  destruct (sql_leb (Reminders.reminder_time r) (Reminders.reminder_time x));
    [reflexivity|].
  rewrite IH. apply perm_swap.
Qed.

Lemma order_by_time_Permutation (l : list Reminders.Reminder) :
  Permutation (Reminders.order_by_time l) l.
Proof.
  unfold Reminders.order_by_time. induction l as [|r l IH]; cbn [fold_right];
    [reflexivity|].
  rewrite insert_by_time_Permutation. constructor. exact IH.
Qed.

Lemma insert_by_time_head (r : Reminders.Reminder) (l : list Reminders.Reminder) :
  exists y rest, Reminders.insert_by_time r l = y :: rest
                 /\ (y = r \/ exists l', l = y :: l').
Proof.
  destruct l as [|x l]; cbn [Reminders.insert_by_time]; [eauto|].
  destruct (sql_leb (Reminders.reminder_time r) (Reminders.reminder_time x)); eauto 6.
Qed.

Lemma insert_by_time_ascending (r : Reminders.Reminder) (l : list Reminders.Reminder) :
  is_null (Reminders.reminder_time r) = false ->
  (forall x, In x l -> is_null (Reminders.reminder_time x) = false) ->
  ascending (map Reminders.reminder_time l) = true ->
  ascending (map Reminders.reminder_time (Reminders.insert_by_time r l)) = true.
Proof.
  intros Hr. induction l as [|x l IH]; intros Hl Hasc; [reflexivity|].
  cbn [Reminders.insert_by_time].
  destruct (sql_leb (Reminders.reminder_time r) (Reminders.reminder_time x)) eqn:E.
  - cbn [map]. rewrite ascending_cons. rewrite E. exact Hasc.
  - assert (sql_leb (Reminders.reminder_time x) (Reminders.reminder_time r) = true)
      as Hxr.
    { apply sql_leb_total; auto. apply Hl. left. reflexivity. }
    cbn [map] in Hasc |- *. rewrite ascending_cons in Hasc |- *.
    assert (ascending (map Reminders.reminder_time l) = true) as Htail.
    { destruct (map Reminders.reminder_time l); [reflexivity|].
      apply andb_true_iff in Hasc. apply Hasc. }
    specialize (IH (fun y Hy => Hl y (or_intror Hy)) Htail).
    destruct (insert_by_time_head r l) as (y & rest & Heq & Hy).
    rewrite Heq in IH |- *. cbn [map] in IH |- *. rewrite IH, andb_true_r.
    destruct Hy as [-> | (l' & ->)]; [exact Hxr|].
    cbn [map] in Hasc. apply andb_true_iff in Hasc. apply Hasc.
Qed.

Lemma order_by_time_ascending (l : list Reminders.Reminder) :
  (forall x, In x l -> is_null (Reminders.reminder_time x) = false) ->
  ascending (map Reminders.reminder_time (Reminders.order_by_time l)) = true.
Proof.
  unfold Reminders.order_by_time. induction l as [|r l IH]; intros Hl;
    cbn [fold_right]; [reflexivity|].
  apply insert_by_time_ascending.
  - apply Hl. left. reflexivity.
  - intros x Hx. apply (Permutation_in _ (order_by_time_Permutation l)) in Hx.
    apply Hl. right. exact Hx.
  - apply IH. intros x Hx. apply Hl. right. exact Hx.
Qed.

(** ** The invariant of the table *)

Lemma increasing_cons (a : Z) (l : list Z) :
  increasing (a :: l) = match l with [] => true | b :: _ => (a <? b) && increasing l end.
Proof. destruct l; reflexivity. Qed.

Lemma consistent_inv (t : Reminders.Table) :
  consistent t = true ->
  (forall r, In r (Reminders.rows t) -> Reminders.not_null_ok r = true)
  /\ increasing (map Reminders.id (Reminders.rows t)) = true
  /\ (forall r, In r (Reminders.rows t) -> Reminders.id r <= Reminders.last_rowid t).
Proof.
  unfold consistent. intros H.
  apply andb_true_iff in H. destruct H as [H H3].
  apply andb_true_iff in H. destruct H as [H1 H2].
  rewrite forallb_forall in H1, H3.
  repeat split; auto. intros r Hr. apply Z.leb_le. auto.
Qed.

Lemma consistent_intro (t : Reminders.Table) :
  (forall r, In r (Reminders.rows t) -> Reminders.not_null_ok r = true) ->
  increasing (map Reminders.id (Reminders.rows t)) = true ->
  (forall r, In r (Reminders.rows t) -> Reminders.id r <= Reminders.last_rowid t) ->
  consistent t = true.
Proof.
  intros H1 H2 H3. unfold consistent. rewrite H2.
  rewrite !andb_true_iff. repeat split; try reflexivity;
    apply forallb_forall; auto. intros r Hr. apply Z.leb_le. auto.
Qed.

(** Removing numbers from an increasing list leaves it increasing, and
    its first number, if there is one, is not smaller than before. *)
Lemma increasing_filter (keep : Reminders.Reminder -> bool) (l : list Reminders.Reminder) :
  increasing (map Reminders.id l) = true ->
  increasing (map Reminders.id (filter keep l)) = true
  /\ forall a, increasing (a :: map Reminders.id l) = true ->
               increasing (a :: map Reminders.id (filter keep l)) = true.
Proof.
  induction l as [|x l IH]; intros H; [cbn; auto|].
  cbn [map] in H. rewrite increasing_cons in H.
  assert (increasing (map Reminders.id l) = true) as Htail.
  { destruct (map Reminders.id l); [reflexivity|].
    apply andb_true_iff in H. apply H. }
  destruct (IH Htail) as [IH1 IH2].
  assert (forall a, increasing (a :: map Reminders.id (x :: l)) = true ->
                    a < Reminders.id x) as Hfirst.
  { intros a Ha. cbn [map] in Ha. rewrite increasing_cons in Ha.
    apply andb_true_iff in Ha. destruct Ha as [Ha _]. apply Z.ltb_lt. exact Ha. }
  assert (increasing (Reminders.id x :: map Reminders.id (filter keep l)) = true) as Hx.
  { apply IH2. rewrite increasing_cons. exact H. }
  cbn [filter]. destruct (keep x); cbn [map].
  - split; [exact Hx|]. intros a Ha. specialize (Hfirst a Ha).
    rewrite increasing_cons. apply andb_true_iff. split; [apply Z.ltb_lt; lia | exact Hx].
  - split; [exact IH1|]. intros a Ha. specialize (Hfirst a Ha).
    clear - Hx Hfirst IH1.
    destruct (map Reminders.id (filter keep l)) as [|b rest]; [reflexivity|].
    rewrite increasing_cons in Hx |- *.
    apply andb_true_iff in Hx. destruct Hx as [Hb Hx].
    apply Z.ltb_lt in Hb. apply andb_true_iff. split; [apply Z.ltb_lt; lia | exact IH1].
Qed.

Lemma increasing_snoc (l : list Z) (n : Z) :
  increasing l = true -> (forall a, In a l -> a < n) -> increasing (l ++ [n]) = true.
Proof.
  induction l as [|a l IH]; intros H Hn; [reflexivity|].
  cbn [app]. rewrite increasing_cons in H |- *.
  destruct l as [|b l].
  - cbn [app]. apply andb_true_iff. split; [|reflexivity].
    apply Z.ltb_lt. apply Hn. left. reflexivity.
  - apply andb_true_iff in H. destruct H as [Hab H].
    cbn [app] in IH |- *. rewrite Hab. cbn [andb].
    apply IH; [exact H|]. intros x Hx. apply Hn. right. exact Hx.
Qed.

Lemma consistent_filter (keep : Reminders.Reminder -> bool) (t : Reminders.Table) :
  consistent t = true ->
  consistent {| Reminders.rows := filter keep (Reminders.rows t);
                Reminders.last_rowid := Reminders.last_rowid t |} = true.
Proof.
  intros H. apply consistent_inv in H. destruct H as (H1 & H2 & H3).
  apply consistent_intro; cbn [Reminders.rows Reminders.last_rowid].
  - intros r Hr. apply filter_In in Hr. apply H1, Hr.
  - apply increasing_filter, H2.
  - intros r Hr. apply filter_In in Hr. apply H3, Hr.
Qed.

Lemma consistent_insert (t : Reminders.Table) (new : Reminders.Reminder) :
  consistent t = true ->
  Reminders.not_null_ok new = true ->
  Reminders.id new = Reminders.last_rowid t + 1 ->
  consistent {| Reminders.rows := Reminders.rows t ++ [new];
                Reminders.last_rowid := Reminders.last_rowid t + 1 |} = true.
Proof.
  intros H Hnn Hid. apply consistent_inv in H. destruct H as (H1 & H2 & H3).
  apply consistent_intro; cbn [Reminders.rows Reminders.last_rowid].
  - intros r Hr. apply in_app_or in Hr. destruct Hr as [Hr|[<-|[]]]; auto.
  - rewrite map_app. cbn [map]. apply increasing_snoc; [exact H2|].
    intros a Ha. apply in_map_iff in Ha. destruct Ha as (r & <- & Hr).
    specialize (H3 r Hr). lia.
  - intros r Hr. apply in_app_or in Hr. destruct Hr as [Hr|[<-|[]]].
    + specialize (H3 r Hr). lia.
    + lia.
Qed.

Lemma sql_eqb_SInt (v : sqlval) (n : Z) : sql_eqb v (SInt n) = true <-> v = SInt n.
Proof.
  destruct v as [|m|s]; cbn [sql_eqb]; try (split; [discriminate | intros H; discriminate H]).
  rewrite Z.eqb_eq. split; congruence.
Qed.

Lemma filter_all {A} (f : A -> bool) (l : list A) :
  (forall x, In x l -> f x = true) -> filter f l = l.
Proof.
  induction l as [|x l IH]; intros H; [reflexivity|]. cbn [filter].
  rewrite (H x (or_introl eq_refl)). f_equal. apply IH. intros y Hy. apply H. right. exact Hy.
Qed.

Section ReminderTheorems.

Context {P : Platform}.

(** X17. The two listings of reminders, of a user and of a guild, given
    the id as the path gives it (the decimal text of [n]): over a table
    whose reminder times are texts of code units below 0xD800 each
    answers 200 with the reminders whose
    [user_id] (or [guild_id]) is [n], every one of them exactly once, in
    ascending order of [reminder_time]; the user's listing shows of each
    the columns [id], [reminder_time], [message] and [created_at], the
    guild's all seven; neither changes the store or reads the clock. *)
Theorem reminder_listings_are_complete_and_ordered (env : Env) (cors : Headers)
    (st : Reminders.Store) (n : Z) :
  (forall r, In r (Reminders.rows (Reminders.reminders st)) ->
             plain_text (Reminders.reminder_time r) = true) ->
  (exists results,
     Reminders.getUserReminders (JStr (num_to_string n)) env cors st
     = (Ok (Reminders.listing cors (map Reminders.summary results)), st)
     /\ Permutation results
          (filter (fun r => sql_eqb (Reminders.user_id r) (SInt n))
             (Reminders.rows (Reminders.reminders st)))
     /\ ascending (map Reminders.reminder_time results) = true)
  /\ (exists results,
        Reminders.getGuildReminders (JStr (num_to_string n)) env cors st
        = (Ok (Reminders.listing cors (map Reminders.to_json results)), st)
        /\ Permutation results
             (filter (fun r => sql_eqb (Reminders.guild_id r) (SInt n))
                (Reminders.rows (Reminders.reminders st)))
        /\ ascending (map Reminders.reminder_time results) = true).
Proof.
  intros Hplain.
  assert (forall keep x,
            In x (filter keep (Reminders.rows (Reminders.reminders st))) ->
            is_null (Reminders.reminder_time x) = false) as Htime.
  { intros keep x Hx. apply filter_In in Hx. destruct Hx as [Hx _].
    apply plain_text_not_null, Hplain, Hx. }
  split.
  - exists (Reminders.select_by_user (SText (num_to_string n)) (Reminders.reminders st)).
    split; [reflexivity|].
    unfold Reminders.select_by_user, Reminders.of_user.
    rewrite integer_affinity_digits.
    split; [apply order_by_time_Permutation | apply order_by_time_ascending, Htime].
  - exists (Reminders.select_by_guild (SText (num_to_string n)) (Reminders.reminders st)).
    split; [reflexivity|].
    unfold Reminders.select_by_guild, Reminders.of_guild.
    rewrite integer_affinity_digits.
    split; [apply order_by_time_Permutation | apply order_by_time_ascending, Htime].
Qed.

(** X18. A reminder that was accepted for user [u] is in the listing of
    that user right after: the listing has an item with the [id] the
    creation answered, and it shows the row that was stored. *)
Theorem created_reminder_is_listed_for_its_user (request : HttpRequest) (env : Env)
    (cors : Headers) (st st' : Reminders.Store) (resp : Response) (data : jsval)
    (u : Z) :
  json request = Ok data ->
  prop data (lit "user_id") = JNum u ->
  Reminders.createReminder request env cors st = (Ok resp, st') ->
  status resp = 201 ->
  exists new items,
    body resp = JsonOther (JObj [(lit "message", JStr (lit "Reminder created"));
                                 (lit "id", JNum (Reminders.id new))])
    /\ In new (Reminders.rows (Reminders.reminders st'))
    /\ Reminders.getUserReminders (JStr (num_to_string u)) env cors st'
       = (Ok (Reminders.listing cors items), st')
    /\ In (Reminders.summary new) items.
Proof.
  intros Hjson Hu Hrun H201.
  destruct (createReminder_ok _ _ _ _ _ _ Hrun H201)
    as (data' & p1 & p2 & p3 & p4 & p5 & t & new & Hjson' & _ & _ & Hp3 & _ & _ & _
        & Hnew & _ & -> & ->).
  rewrite Hjson in Hjson'. inversion Hjson'; subst data'. clear Hjson'.
  rewrite Hu in Hp3. cbn [bind_value] in Hp3. inversion Hp3; subst p3. clear Hp3.
  exists new. eexists. split; [reflexivity|].
  cbn [Reminders.reminders Reminders.rows].
  split; [apply in_or_app; right; left; reflexivity|].
  split; [reflexivity|].
  apply in_map. unfold Reminders.select_by_user.
  apply (Permutation_in _ (Permutation_sym (order_by_time_Permutation _))).
  apply filter_In. cbn [Reminders.rows].
  split; [apply in_or_app; right; left; reflexivity|].
  unfold Reminders.of_user. rewrite integer_affinity_digits.
  rewrite Hnew. cbn [Reminders.user_id integer_affinity sql_eqb]. apply Z.eqb_refl.
Qed.

(** X19. The reminders reported due are those whose [reminder_time] is,
    as text, at most the ISO text of the clock reading, each once, in
    whatever order the query hands them over; for a clock reading and a
    reminder time within the years 0 to 9999, the time written as ISO
    text, the reminder is reported exactly when its time is not after
    the clock reading. The table is not changed. *)
Theorem due_reminders_are_those_not_after_the_clock (env : Env) (cors : Headers)
    (st : Reminders.Store) (r : Reminders.Reminder) (e : Z) :
  four_digit_year (fst (date_now (Reminders.clock st))) ->
  four_digit_year e ->
  Reminders.reminder_time r = SText (iso_string e) ->
  exists results,
    Reminders.getDueReminders env cors st
    = (Ok (Reminders.listing cors (map Reminders.to_json results)),
       {| Reminders.clock := snd (date_now (Reminders.clock st));
          Reminders.reminders := Reminders.reminders st |})
    /\ Permutation results
         (filter (fun x => sql_leb (Reminders.reminder_time x)
                             (SText (iso_string (fst (date_now (Reminders.clock st))))))
            (Reminders.rows (Reminders.reminders st)))
    /\ (In r results
        <-> In r (Reminders.rows (Reminders.reminders st))
            /\ e <= fst (date_now (Reminders.clock st))).
Proof.
  intros Ht He Hr.
  pose proof (date_now_valid (Reminders.clock st)) as Hvalid.
  pose proof (order_by_time_Permutation
                (filter (fun x => sql_leb (Reminders.reminder_time x)
                                    (SText (iso_string
                                              (fst (date_now (Reminders.clock st))))))
                   (Reminders.rows (Reminders.reminders st)))) as Hperm.
  eexists. split; [|split; [exact Hperm|]].
  - unfold Reminders.getDueReminders, Reminders.bind_H, Reminders.new_Date,
      Reminders.lift_H.
    destruct (date_now (Reminders.clock st)) as [t w]. cbn [fst snd] in *.
    unfold toISOString. unfold valid_time in Hvalid. rewrite Hvalid.
    unfold Reminders.all. cbn [bind bind_value Reminders.reminders].
    reflexivity.
  - split.
    + intros Hin. apply (Permutation_in _ Hperm) in Hin.
      rewrite filter_In, Hr in Hin. cbn [sql_leb] in Hin.
      rewrite iso_string_leb in Hin by assumption. rewrite Z.leb_le in Hin.
      exact Hin.
    + intros Hin. apply (Permutation_in _ (Permutation_sym Hperm)).
      rewrite filter_In, Hr. cbn [sql_leb].
      rewrite iso_string_leb by assumption. rewrite Z.leb_le. exact Hin.
Qed.

(** X20. Deleting a reminder by the id the path gives (the decimal text
    of [n]) answers 200 whether or not there is such a reminder;
    afterwards no reminder has id [n], every other reminder is where it
    was, as it was, and the largest rowid handed out is kept, so that
    the id is not given to a later reminder. A path piece without a
    digit deletes nothing: [DELETE /reminders/user/7] finds no reminder
    of id [user]. *)
Theorem deleted_reminder_is_gone (env : Env) (cors : Headers) (st : Reminders.Store)
    (n : Z) :
  (exists st',
     Reminders.deleteReminder (JStr (num_to_string n)) env cors st
     = (Ok {| status := 200; headers := json_headers cors;
              body := JsonMessage (lit "Reminder deleted") |}, st')
     /\ Reminders.clock st' = Reminders.clock st
     /\ Reminders.rows (Reminders.reminders st')
        = filter (fun r => negb (Reminders.id r =? n))
            (Reminders.rows (Reminders.reminders st))
     /\ Reminders.last_rowid (Reminders.reminders st')
        = Reminders.last_rowid (Reminders.reminders st)
     /\ (forall r, In r (Reminders.rows (Reminders.reminders st'))
                   <-> In r (Reminders.rows (Reminders.reminders st))
                       /\ Reminders.id r <> n))
  /\ (forall k, forallb (fun c => negb (is_digit c)) k = true ->
        Reminders.rows
          (Reminders.reminders (snd (Reminders.deleteReminder (JStr k) env cors st)))
        = Reminders.rows (Reminders.reminders st)).
Proof.
  split.
  - eexists. split; [reflexivity|]. cbn [Reminders.clock Reminders.reminders snd
      Reminders.delete_by_id Reminders.rows Reminders.last_rowid].
    split; [reflexivity|].
    assert (forall r, Reminders.has_id (SText (num_to_string n)) r = (Reminders.id r =? n))
      as Hid.
    { intros r. unfold Reminders.has_id. rewrite integer_affinity_digits. reflexivity. }
    split; [apply filter_ext; intros r; rewrite Hid; reflexivity|].
    split; [reflexivity|].
    intros r. rewrite filter_In, Hid, negb_true_iff, Z.eqb_neq. reflexivity.
  - intros k Hk.
    unfold Reminders.deleteReminder, Reminders.bind_H, Reminders.run.
    cbn [bind bind_value Reminders.delete_by_id snd Reminders.reminders Reminders.rows].
    apply filter_all. intros r _. unfold Reminders.has_id.
    cbn [integer_affinity]. rewrite (parse_int_no_digit k Hk). reflexivity.
Qed.

(** X21. The cleanup deletes the reminders whose [created_at] is, as
    text, at most the ISO text of the instant 45 days of 24 hours before
    the clock reading, answers with their number, and keeps the others
    where they were, as they were. For a reminder created through the
    worker, whose [created_at] is the ISO text of its creation, within
    the years of four digits: it is kept exactly when it was created
    less than 45 days before the clock reading. *)
Theorem cleanup_removes_reminders_older_than_45_days (env : Env) (cors : Headers)
    (st : Reminders.Store) (r : Reminders.Reminder) (e : Z) :
  let t := fst (date_now (Reminders.clock st)) in
  let cutoff := t - 45 * msPerDay in
  four_digit_year cutoff ->
  four_digit_year e ->
  Reminders.created_at r = SText (iso_string e) ->
  In r (Reminders.rows (Reminders.reminders st)) ->
  let kept := filter (fun x => negb (Reminders.older (SText (iso_string cutoff)) x))
                (Reminders.rows (Reminders.reminders st)) in
  Reminders.cleanupOldReminders env cors st
  = (Ok {| status := 200; headers := json_headers cors;
           body := JsonOther
                     (JObj [(lit "message", JStr (lit "Old reminders cleaned up"));
                            (lit "deleted",
                             JNum (Z.of_nat
                                     (length
                                        (filter
                                           (Reminders.older (SText (iso_string cutoff)))
                                           (Reminders.rows (Reminders.reminders st))))))])
        |},
     {| Reminders.clock := snd (date_now (Reminders.clock st));
        Reminders.reminders :=
          {| Reminders.rows := kept;
             Reminders.last_rowid := Reminders.last_rowid (Reminders.reminders st) |} |})
  /\ (In r kept <-> cutoff < e).
Proof.
  cbv zeta. intros Hcut He Hr Hin.
  assert (valid_time (fst (date_now (Reminders.clock st)) - 45 * msPerDay) = true)
    as Hvalid.
  { unfold four_digit_year, year0, year10000 in Hcut. unfold valid_time, maxTime.
    apply andb_true_iff. split; apply Z.leb_le; lia. }
  split.
  - unfold Reminders.cleanupOldReminders, Reminders.bind_H, Reminders.new_Date,
      Reminders.lift_H.
    destruct (date_now (Reminders.clock st)) as [t w]. cbn [fst snd] in *.
    unfold Reminders.cleanup_days. rewrite setDate_back.
    unfold Calendar.TimeClip. rewrite Hvalid.
    unfold toISOString. unfold valid_time in Hvalid. rewrite Hvalid.
    unfold Reminders.run. cbn [bind bind_value Reminders.reminders Reminders.delete_older].
    reflexivity.
  - rewrite filter_In.
    unfold Reminders.older. rewrite Hr. cbn [text_affinity sql_leb].
    rewrite iso_string_leb by assumption.
    rewrite negb_true_iff, Z.leb_gt. tauto.
Qed.

End ReminderTheorems.

(* ===================================================================== *)
(** * The life of the reminders table *)
(* ===================================================================== *)

Section ReminderLife.

Context {P : Platform}.

(** What a creation leaves of the table, however it ends. *)
Lemma createReminder_table request env cors st :
  let st' := snd (Reminders.createReminder request env cors st) in
  Reminders.reminders st' = Reminders.reminders st
  \/ exists new,
       Reminders.not_null_ok new = true
       /\ Reminders.id new = Reminders.last_rowid (Reminders.reminders st) + 1
       /\ Reminders.reminders st'
          = {| Reminders.rows := Reminders.rows (Reminders.reminders st) ++ [new];
               Reminders.last_rowid :=
                 Reminders.last_rowid (Reminders.reminders st) + 1 |}.
Proof.
  cbv zeta.
  destruct (Reminders.createReminder request env cors st) as [[resp|e] st'] eqn:H.
  - destruct (Z.eq_dec (status resp) 201) as [H201|Hne].
    + destruct (createReminder_ok _ _ _ _ _ _ H H201)
        as (data & p1 & p2 & p3 & p4 & p5 & t & new & _ & _ & _ & _ & _ & _ & _
            & Hnew & Hnn & _ & ->).
      right. exists new. cbn [snd Reminders.reminders].
      split; [exact Hnn|]. split; [rewrite Hnew; reflexivity | reflexivity].
    + left. cbn [snd]. unfold Reminders.createReminder, Reminders.bind_H,
        Reminders.lift_H, Reminders.new_Date, Reminders.run, Reminders.pure in H.
      destruct (json request) as [data|]; [|discriminate].
      destruct (get data (lit "guild_id")); [|discriminate].
      destruct (get data (lit "channel_id")); [|discriminate].
      destruct (get data (lit "user_id")); [|discriminate].
      destruct (get data (lit "reminder_time")); [|discriminate].
      destruct (get data (lit "message")); [|discriminate].
      match type of H with
      | (if ?c then _ else _) _ = _ => destruct c
      end; [inversion H; reflexivity|].
      destruct (date_now (Reminders.clock st)) as [t w].
      destruct (toISOString t); [|discriminate].
      destruct (bind _); [|discriminate].
      cbn [Reminders.reminders] in H.
      destruct (Reminders.insert _ _) as [[n tbl]|]; [|discriminate].
      inversion H; subst resp. cbn [status] in Hne. contradiction.
  - left. cbn [snd]. unfold Reminders.createReminder, Reminders.bind_H,
      Reminders.lift_H, Reminders.new_Date, Reminders.run, Reminders.pure in H.
    destruct (json request) as [data|]; [|inversion H; reflexivity].
    destruct (get data (lit "guild_id")); [|inversion H; reflexivity].
    destruct (get data (lit "channel_id")); [|inversion H; reflexivity].
    destruct (get data (lit "user_id")); [|inversion H; reflexivity].
    destruct (get data (lit "reminder_time")); [|inversion H; reflexivity].
    destruct (get data (lit "message")); [|inversion H; reflexivity].
    match type of H with
    | (if ?c then _ else _) _ = _ => destruct c
    end; [discriminate|].
    destruct (date_now (Reminders.clock st)) as [t w].
    destruct (toISOString t); [|inversion H; reflexivity].
    destruct (bind _); [|inversion H; reflexivity].
    cbn [Reminders.reminders] in H.
    destruct (Reminders.insert _ _) as [[n tbl]|]; [discriminate|].
    inversion H; reflexivity.
Qed.

(** What any other call leaves of the table: the table, or some of its
    rows with the same largest rowid. *)
Lemma call_table env c st :
  (forall request, c <> Create request) ->
  exists keep,
    Reminders.reminders (snd (call env c st))
    = {| Reminders.rows := filter keep (Reminders.rows (Reminders.reminders st));
         Reminders.last_rowid := Reminders.last_rowid (Reminders.reminders st) |}.
Proof.
  assert (forall t : Reminders.Table,
            t = {| Reminders.rows := filter (fun _ => true) (Reminders.rows t);
                   Reminders.last_rowid := Reminders.last_rowid t |}) as Hsame.
  { intros [rows last]. cbn. rewrite filter_all by reflexivity. reflexivity. }
  intros Hc. destruct c as [request| |userId|guildId|reminderId| |];
    [exfalso; eapply Hc; reflexivity| | | | | |]; cbn [call].
  - exists (fun _ => true).
    unfold Reminders.getDueReminders, Reminders.bind_H, Reminders.new_Date,
      Reminders.lift_H, Reminders.all.
    destruct (date_now (Reminders.clock st)) as [t w].
    destruct (toISOString t); cbn [bind bind_value snd Reminders.reminders]; apply Hsame.
  - exists (fun _ => true).
    unfold Reminders.getUserReminders, Reminders.bind_H, Reminders.all.
    cbn [bind]. destruct (bind_value userId); cbn [snd]; apply Hsame.
  - exists (fun _ => true).
    unfold Reminders.getGuildReminders, Reminders.bind_H, Reminders.all.
    cbn [bind]. destruct (bind_value guildId); cbn [snd]; apply Hsame.
  - unfold Reminders.deleteReminder, Reminders.bind_H, Reminders.run.
    cbn [bind]. destruct (bind_value reminderId) as [key|].
    + eexists. cbn [Reminders.delete_by_id snd Reminders.reminders]. reflexivity.
    + exists (fun _ => true). cbn [snd]. apply Hsame.
  - unfold Reminders.cleanupOldReminders, Reminders.bind_H, Reminders.new_Date,
      Reminders.lift_H, Reminders.run.
    destruct (date_now (Reminders.clock st)) as [t w].
    destruct (match Calendar.setDate t (Calendar.getDate t - Reminders.cleanup_days) with
              | Some cutoff => toISOString cutoff
              | None => Throw RangeError
              end) as [cutoffISO|].
    + eexists. cbn [bind bind_value Reminders.delete_older snd Reminders.reminders].
      reflexivity.
    + exists (fun _ => true). cbn [snd Reminders.reminders]. apply Hsame.
  - exists (fun _ => true). cbn [Reminders.initDatabase Reminders.pure snd]. apply Hsame.
Qed.

(** One call keeps the table consistent and hands no rowid back. *)
Lemma call_keeps_consistent env c st :
  consistent (Reminders.reminders st) = true ->
  consistent (Reminders.reminders (snd (call env c st))) = true
  /\ Reminders.last_rowid (Reminders.reminders st)
     <= Reminders.last_rowid (Reminders.reminders (snd (call env c st)))
  /\ forall r, In r (Reminders.rows (Reminders.reminders (snd (call env c st)))) ->
               Reminders.id r
               <= Reminders.last_rowid (Reminders.reminders (snd (call env c st))).
Proof.
  intros Hc.
  assert (consistent (Reminders.reminders (snd (call env c st))) = true
          /\ Reminders.last_rowid (Reminders.reminders st)
             <= Reminders.last_rowid (Reminders.reminders (snd (call env c st)))) as [H1 H2].
  { destruct c as [request| | | | | |].
    1: { cbn [call].
         destruct (createReminder_table request env corsHeaders st)
           as [-> | (new & Hnn & Hid & ->)].
         - split; [exact Hc | lia].
         - split; [apply consistent_insert; assumption|].
           cbn [Reminders.last_rowid]. lia. }
    all: match goal with
         | |- context [call ?e ?c ?s] =>
             destruct (call_table e c s ltac:(discriminate)) as (keep & ->)
         end;
         (split; [apply consistent_filter, Hc | cbn [Reminders.last_rowid]; lia]). }
  split; [exact H1|]. split; [exact H2|].
  apply consistent_inv in H1. apply H1.
Qed.

Lemma calls_keep_consistent env cs : forall st,
  consistent (Reminders.reminders st) = true ->
  consistent (Reminders.reminders (calls env cs st)) = true
  /\ Reminders.last_rowid (Reminders.reminders st)
     <= Reminders.last_rowid (Reminders.reminders (calls env cs st)).
Proof.
  induction cs as [|c cs IH]; intros st Hc; cbn [calls]; [split; [exact Hc | lia]|].
  destruct (call_keeps_consistent env c st Hc) as (H1 & H2 & _).
  destruct (IH _ H1) as [H3 H4]. split; [exact H3 | lia].
Qed.

(** X22. The reminders table stays consistent and ids are never reused:
    starting from a table that satisfies its schema, after any calls of
    the reminder routes, in any order and however each ends, no column
    is NULL, the rows are in the order of their ids, which are all
    different; and a reminder created then is given an id larger than
    the id of every reminder the table holds or held at the start,
    deleted since or not. *)
Theorem reminder_ids_are_never_reused (env : Env) (cs : list Call)
    (st st' : Reminders.Store) (request : HttpRequest) (resp : Response) :
  consistent (Reminders.reminders st) = true ->
  Reminders.createReminder request env corsHeaders (calls env cs st) = (Ok resp, st') ->
  status resp = 201 ->
  consistent (Reminders.reminders (calls env cs st)) = true
  /\ consistent (Reminders.reminders st') = true
  /\ exists new,
       body resp = JsonOther (JObj [(lit "message", JStr (lit "Reminder created"));
                                    (lit "id", JNum (Reminders.id new))])
       /\ In new (Reminders.rows (Reminders.reminders st'))
       /\ (forall r, In r (Reminders.rows (Reminders.reminders st)) ->
                     Reminders.id r < Reminders.id new)
       /\ (forall r, In r (Reminders.rows (Reminders.reminders (calls env cs st))) ->
                     Reminders.id r < Reminders.id new).
Proof.
  intros Hc Hrun H201.
  destruct (calls_keep_consistent env cs st Hc) as [Hc1 Hlast].
  split; [exact Hc1|].
  pose proof (call_keeps_consistent env (Create request) _ Hc1) as (Hc2 & _ & _).
  cbn [call] in Hc2. rewrite Hrun in Hc2. cbn [snd] in Hc2.
  split; [exact Hc2|].
  destruct (createReminder_ok _ _ _ _ _ _ Hrun H201)
    as (data & p1 & p2 & p3 & p4 & p5 & t & new & _ & _ & _ & _ & _ & _ & _
        & Hnew & _ & -> & ->).
  exists new. split; [reflexivity|].
  cbn [Reminders.reminders Reminders.rows].
  split; [apply in_or_app; right; left; reflexivity|].
  assert (Reminders.id new
          = Reminders.last_rowid (Reminders.reminders (calls env cs st)) + 1) as Hid
    by (rewrite Hnew; reflexivity).
  apply consistent_inv in Hc, Hc1.
  destruct Hc as (_ & _ & Hle), Hc1 as (_ & _ & Hle1).
  split; intros r Hr; [specialize (Hle r Hr) | specialize (Hle1 r Hr)]; lia.
Qed.

End ReminderLife.

(* ===================================================================== *)
(** * The report of a sweep and the table *)
(* ===================================================================== *)

Section SweepReport.

Context {P : Platform}.

(** What a refreshed record was updated with. *)
Lemma refresh_user_report now user env st item st' :
  refresh_user now user env st = (Ok item, st') ->
  exists p1 p2 p3 p4 p5 p6 p7 p8 p9,
    update_user [p1; p2; p3; p4; p5; p6; p7; p8; p9; SText now; discord_id user] (users st)
      = Ok (users st')
    /\ refreshed_discord_id item = js_of_sql (discord_id user)
    /\ character_name item = js_of_sql (eve_character_name user)
    /\ bind_value (corporation item) = Ok p3
    /\ bind_value (alliance item) = Ok p6.
Proof.
  unfold refresh_user. intros H.
  unfold basic_authorization in H. step_lift H.
  step_fetch H. rename v0 into tokens.
  step_lift H.
  destruct (truthy v0); [|discriminate]. cbn [negb] in H.
  step_fetch H. step_lift H. step_fetch H.
  step H. apply fetch_alliance_ok in E5. destruct E5 as (_ & _ & Husers & _).
  step_now H. step_lift H. step_lift H.
  step H. apply db_run_ok_inv in E8. destruct E8 as (params & tbl & Hbind & Hq & ->).
  apply ret_ok_inv in H. destruct H as [-> ->].
  cbn [world users trace refreshed_discord_id character_name corporation alliance] in *.
  bind_inv Hbind. rewrite bind_value_js_of_sql in Hp9. inversion Hp9; subst.
  cbn [bind_value] in Hp8. inversion Hp8; subst.
  rewrite Husers in Hq. eauto 15.
Qed.

Lemma frame_key (a b : Row) : frame a = frame b -> discord_id a = discord_id b.
Proof. unfold frame. intros H. injection H as _ H _ _ _ _. exact H. Qed.

Lemma frame_character (a b : Row) :
  frame a = frame b -> eve_character_name a = eve_character_name b.
Proof. unfold frame. intros H. injection H as _ _ _ _ H _. exact H. Qed.

(** Along the loop: every record reported refreshed is in the table at
    the end as it was reported, when the selected records have
    different text keys and each is a record of the table. *)
Lemma refresh_each_reports now results env :
  forall refreshed failed st r st',
    refresh_each now results env refreshed failed st = (r, st') ->
    NoDup (map discord_id results) ->
    (forall u, In u results -> is_text (discord_id u) = true) ->
    (forall x, In x (rows (users st)) -> is_text (discord_id x) = true) ->
    (forall u, In u results -> In (frame u) (map frame (rows (users st)))) ->
    exists outs,
      r = Ok (refreshed ++ dones outs, failed ++ losts outs)
      /\ forall item, In item (dones outs) ->
           exists row, In row (rows (users st')) /\ reported_in now item row.
Proof.
  induction results as [|user rest IH]; intros refreshed failed st r st' H Hnd Htxt Hrows Hin.
  - cbn in H. inversion H; subst. exists []. cbn. rewrite !app_nil_r.
    split; [reflexivity | intros item []].
  - inversion Hnd as [|? ? Hni Hnd']; subst.
    cbn [refresh_each] in H. unfold bind_M at 1, try_catch in H.
    unfold bind_M at 1 in H.
    destruct (refresh_user now user env st) as [[item|e] st1] eqn:E; cbn in H.
    + pose proof H as Hswept. apply refresh_each_swept in Hswept.
      destruct Hswept as (outs0 & _ & _ & Hs & _).
      destruct (refresh_user_report _ _ _ _ _ _ E)
        as (p1 & p2 & p3 & p4 & p5 & p6 & p7 & p8 & p9 & Hup & Hkey & Hname & Hc & Ha).
      pose proof (update_user_frame _ _ _ Hup) as [Hframe _].
      pose proof (update_user_ok _ _ _ _ _ _ _ _ _ _ _ _ _ Hup) as [Hmap _].
      assert (forall x, In x (rows (users st1)) -> is_text (discord_id x) = true) as Hrows1.
      { intros x Hx. assert (In (frame x) (map frame (rows (users st)))) as Hfx
          by (rewrite <- Hframe; apply in_map, Hx).
        apply in_map_iff in Hfx. destruct Hfx as (x0 & Hf0 & Hx0).
        rewrite <- (frame_key _ _ Hf0). apply Hrows, Hx0. }
      apply IH in H; auto.
      2: { intros u Hu. apply Htxt. right. exact Hu. }
      2: { intros u Hu. rewrite Hframe. apply Hin. right. exact Hu. }
      destruct H as (outs & -> & Hrep).
      exists (Done item :: outs). cbn [dones losts]. rewrite <- !app_assoc. cbn [app].
      split; [reflexivity|].
      intros it [<-|Hit]; [|apply Hrep, Hit].
      (* the row of [user] in the table, and what the update made of it *)
      pose proof (Hin user (or_introl eq_refl)) as Hu.
      apply in_map_iff in Hu. destruct Hu as (row0 & Hf0 & Hrow0).
      assert (matches (discord_id user) row0 = true) as Hm.
      { apply matches_text; [apply Htxt; left; reflexivity | apply Hrows, Hrow0|].
        apply frame_key, Hf0. }
      set (row1 := assign p1 p2 p3 p4 p5 p6 p7 p8 p9 (SText now) row0).
      assert (In row1 (rows (users st1))) as Hrow1.
      { rewrite Hmap. apply in_map_iff. exists row0. rewrite Hm. auto. }
      exists row1. split.
      * (* the rest of the loop passes it by *)
        eapply swept_other; [exact Hs | exact Hrow1 |].
        intros u Hu.
        destruct (matches (discord_id u) row1) eqn:Em; [|reflexivity].
        exfalso. apply matches_text in Em.
        -- apply Hni. change (discord_id row1) with (discord_id row0) in Em.
           rewrite <- (frame_key _ _ Hf0), Em. apply in_map, Hu.
        -- apply Htxt. right. exact Hu.
        -- apply Hrows1, Hrow1.
      * unfold reported_in.
        change (discord_id row1) with (discord_id row0).
        change (eve_character_name row1) with (eve_character_name row0).
        rewrite (frame_key _ _ Hf0), (frame_character _ _ Hf0).
        split; [congruence|]. split; [congruence|].
        split; [intros s Heq; rewrite Heq in Hc; injection Hc as <-; reflexivity|].
        split; [intros s Heq; rewrite Heq in Ha; injection Ha as <-; reflexivity|].
        split; [intros Heq; rewrite Heq in Ha; injection Ha as <-; reflexivity|].
        reflexivity.
    + pose proof (atomic_refresh_user _ _ _ _ _ _ E) as Hsame.
      apply IH in H; auto.
      2: { intros u Hu. apply Htxt. right. exact Hu. }
      2: { rewrite Hsame. exact Hrows. }
      2: { intros u Hu. rewrite Hsame. apply Hin. right. exact Hu. }
      destruct H as (outs & -> & Hrep).
      eexists (Lost _ :: outs). cbn [dones losts]. rewrite <- !app_assoc. cbn [app].
      split; [reflexivity | exact Hrep].
Qed.

(** X23. The sweep stores what it reports: over a table that satisfies
    the schema, every item of [refreshed] has its record in the table
    after the sweep, with the [discord_id] and the character name the
    item gives, the corporation ticker and the alliance ticker the item
    gives (a string as that text, no alliance as NULL), and
    [last_updated] the ISO text of the first clock reading of the
    sweep, not of the time of the update. *)
Theorem refreshed_report_matches_the_store (env : Env) (cors : Headers)
    (st st' : State) (resp : Response) (refreshed : list Refreshed)
    (failed : list Failed) (item : Refreshed) :
  well_formed (users st) = true ->
  refreshAuthTokens env cors st = (Ok resp, st') ->
  body resp = JsonRefresh refreshed failed ->
  In item refreshed ->
  exists row,
    In row (rows (users st'))
    /\ reported_in (iso_string (fst (date_now (world st)))) item row.
Proof.
  intros Hw H Hbody Hitem.
  pose proof (well_formed_inv _ Hw) as [HF Hd]. rewrite Forall_forall in HF.
  unfold refreshAuthTokens, new_Date_toISOString in H.
  unfold bind_M at 1 in H. unfold bind_M at 1 in H. unfold Date_now at 1 in H.
  destruct (date_now (world st)) as [t0 w1] eqn:E0.
  unfold lift at 1 in H. cbn [fst].
  destruct (toISOString t0) as [now|e] eqn:Enow; [|discriminate].
  assert (now = iso_string t0) as ->.
  { unfold toISOString in Enow. destruct (_ && _); inversion Enow; reflexivity. }
  unfold bind_M at 1 in H. unfold Date_now at 1 in H. cbn [world] in H.
  destruct (date_now w1) as [t w2] eqn:E1.
  unfold bind_M at 1 in H. unfold lift at 1 in H.
  destruct (toISOString (t + refresh_horizon)) as [bound|e] eqn:Ebound; [|discriminate].
  unfold bind_M at 1 in H. unfold db_all at 1 in H. cbn [bind bind_value] in H.
  unfold bind_M at 1 in H.
  match type of H with
  | context [refresh_each ?n ?rs ?e ?a ?b ?s] =>
      destruct (refresh_each n rs e a b s) as [r1 st1] eqn:Eloop
  end.
  apply refresh_each_reports in Eloop.
  - destruct Eloop as (outs & -> & Hrep).
    unfold ret in H. cbn [fst snd app] in H. inversion H; subst resp st1.
    cbn [body] in Hbody. inversion Hbody; subst refreshed failed.
    apply Hrep, Hitem.
  - apply select_expiring_keys_unique, Hd.
  - intros u Hu. apply select_expiring_In in Hu. apply HF, Hu.
  - cbn [log users]. intros x Hx. apply HF, Hx.
  - cbn [log users]. intros u Hu. apply select_expiring_In in Hu.
    apply in_map, Hu.
Qed.

End SweepReport.

(* ===================================================================== *)
(** * The further properties on the scenarios *)
(* ===================================================================== *)

Import Cases.

(** A run that gives a value ends in the state it ends in. *)
Lemma run_ok {A S} (x : res A * S) (a : A) : fst x = Ok a -> x = (Ok a, snd x).
Proof. destruct x as [r s]. cbn. intros ->. reflexivity. Qed.

Section FurtherWitnesses.

#[local] Existing Instance no_reminders.

(** U1's callback contacts the provider: its state token is Base64. *)
Lemma callback_contacts_provider_witness :
  let st := initial provider start empty in
  let run := handleAuthCallback callback_request env corsHeaders st in
  In (Fetched (TokenByCode basic (lit "c0de")) (Ok tokens1)) (trace (snd run))
  /\ exists code state text,
       searchParams_get (searchParams callback_request) (lit "code") = Some code
       /\ code <> []
       /\ searchParams_get (searchParams callback_request) (lit "state") = Some state
       /\ state <> []
       /\ atob state = Ok text.
Proof.
  cbv zeta. split; [vm_compute; in_list|].
  eapply (callback_contacts_provider_only_with_base64_state callback_request env
           corsHeaders (initial provider start empty) _ _
           (trace (snd (handleAuthCallback callback_request env corsHeaders
                          (initial provider start empty))))
           (TokenByCode basic (lit "c0de")) (Ok tokens1)).
  - apply surjective_pairing.
  - symmetry. apply app_nil_r.
  - vm_compute. in_list.
Defined.

(** A login with an empty display name is refused. *)
Lemma login_without_identity_witness :
  createAuthURL nameless_login env corsHeaders (initial provider start empty)
  = (Ok {| status := 400; headers := json_headers corsHeaders;
           body := JsonError (lit "Missing discord_id or discord_username") |},
     initial provider start empty).
Proof.
  eapply (login_without_identity_is_refused nameless_login env corsHeaders
           (initial provider start empty)
           (object [("discord_id", str "U1"); ("discord_username", str "")]%string)).
  - reflexivity.
  - discriminate.
  - discriminate.
  - right. reflexivity.
Defined.

(** U1's login succeeds, and its token decodes to what was packed. *)
Lemma login_with_latin1_identity_witness :
  exists t w state text,
    date_now (world (initial provider start empty)) = (t, w)
    /\ createAuthURL login_request env corsHeaders (initial provider start empty)
       = (Ok {| status := 200; headers := json_headers corsHeaders;
                body := JsonAuthUrl (authorization_url env state) |},
          {| world := w; users := users (initial provider start empty);
             trace := Now t :: trace (initial provider start empty) |})
    /\ atob state = Ok text
    /\ JSON.parse text = Ok (state_object (JStr (lit "U1")) (JStr (lit "user one")) t).
Proof.
  eapply (login_with_latin1_identity_succeeds login_request env corsHeaders
           (initial provider start empty)
           (object [("discord_id", str "U1"); ("discord_username", str "user one")]%string)
           (lit "U1") (lit "user one")).
  - reflexivity.
  - reflexivity.
  - reflexivity.
  - vm_compute. discriminate.
  - vm_compute. discriminate.
  - reflexivity.
  - reflexivity.
Defined.

(** A display name in Cyrillic stops the login. *)
Lemma login_with_wide_character_witness :
  exists st',
    createAuthURL cyrillic_login env corsHeaders (initial provider start empty)
    = (Throw InvalidCharacterError, st')
    /\ users st' = users (initial provider start empty).
Proof.
  eapply (login_with_wide_character_throws cyrillic_login env corsHeaders
           (initial provider start empty)
           (object [("discord_id", str "U1");
                    ("discord_username", JStr [1046%N; 1091%N; 1082%N])]%string)
           (lit "U1") [1046%N; 1091%N; 1082%N] 1046%N).
  - reflexivity.
  - reflexivity.
  - reflexivity.
  - vm_compute. discriminate.
  - discriminate.
  - right. left. reflexivity.
  - reflexivity.
  - reflexivity.
  - reflexivity.
Defined.

(** U1 logs in, comes back with the state token, and is found. *)
Lemma login_then_callback_witness :
  let st := initial provider start empty in
  let st' := snd (handleAuthCallback callback_request env corsHeaders st) in
  exists row,
    select_user (SText (lit "U1")) (users st') = [row]
    /\ discord_id row = SText (lit "U1")
    /\ discord_username row = SText (lit "user one")
    /\ id row = last_rowid (users st) + 1
    /\ getAuthUser (JStr (lit "U1")) env corsHeaders st'
       = (Ok {| status := 200; headers := json_headers corsHeaders;
                body := JsonUser (Some row) |},
          log (Queried SelectUser) st').
Proof.
  cbv zeta.
  eapply (login_then_callback_links_identity login_request callback_request env
            corsHeaders (initial provider start empty) _ (initial provider start empty)
            _ _ _ (authorization_url env state1)
            (object [("discord_id", str "U1"); ("discord_username", str "user one")]%string)
            (lit "U1") (lit "user one") state1).
  - reflexivity.
  - reflexivity.
  - reflexivity.
  - apply run_ok. vm_compute. reflexivity.
  - reflexivity.
  - reflexivity.
  - reflexivity.
  - apply run_ok. vm_compute. reflexivity.
  - reflexivity.
Defined.

(** U1 links again over the three records: its old row goes, the new row
    is last, U2 and U3 stay. *)
Lemma callback_replaces_one_identity_witness :
  let st := initial provider start three_records in
  let st' := snd (handleAuthCallback callback_request env corsHeaders st) in
  exists row,
    rows (users st')
    = filter (fun x => negb (sql_eqb (discord_id x) (discord_id row))) (rows (users st))
        ++ [row]
    /\ id row = last_rowid (users st) + 1
    /\ last_rowid (users st') = last_rowid (users st) + 1
    /\ is_null (discord_id row) = false.
Proof.
  cbv zeta.
  eapply (callback_replaces_one_identity callback_request env corsHeaders
            (initial provider start three_records)).
  - apply run_ok. vm_compute. reflexivity.
  - reflexivity.
Defined.

(** PUT is no method of any route. *)
Lemma fetch_other_method_witness :
  fetch put_request env (initial provider start three_records)
  = (Ok {| status := 404; headers := json_headers corsHeaders;
           body := JsonError (lit "Not found") |},
     initial provider start three_records).
Proof.
  eapply (fetch_other_method_not_found put_request env
           (initial provider start three_records));
    try (vm_compute; discriminate).
  reflexivity.
Defined.

(** GET /auth/user/U1 over the three records. *)
Lemma lookup_route_witness :
  exists found,
    fetch lookup_request env (initial provider start three_records)
    = (Ok {| status := 200; headers := json_headers corsHeaders;
             body := JsonUser found |},
       log (Queried SelectUser) (initial provider start three_records))
    /\ (forall r, found = Some r ->
          In r (rows three_records) /\ discord_id r = SText (lit "U1"))
    /\ (found = None <->
        forall r, In r (rows three_records) -> discord_id r <> SText (lit "U1")).
Proof.
  eapply (lookup_route_answers_with_the_record lookup_request env
           (initial provider start three_records) (lit "U1") []).
  - reflexivity.
  - reflexivity.
  - vm_compute. intros H. repeat (destruct H as [H|H]; [discriminate H|]). exact H.
  - left. reflexivity.
  - reflexivity.
Defined.

(** DELETE /auth/U2 over the three records. *)
Lemma delete_route_witness :
  exists st',
    fetch removal_request env (initial provider start three_records)
    = (Ok {| status := 200; headers := json_headers corsHeaders;
             body := JsonMessage (lit "User authentication deleted") |}, st')
    /\ rows (users st')
       = filter (fun r => negb (sql_eqb (discord_id r) (SText (lit "U2"))))
           (rows three_records)
    /\ last_rowid (users st') = last_rowid three_records
    /\ (forall r, In r (rows (users st'))
                  <-> In r (rows three_records) /\ discord_id r <> SText (lit "U2"))
    /\ select_user (SText (lit "U2")) (users st') = [].
Proof.
  eapply (delete_route_removes_the_identity removal_request env
           (initial provider start three_records) (lit "U2") []).
  - reflexivity.
  - reflexivity.
  - vm_compute. intros H. repeat (destruct H as [H|H]; [discriminate H|]). exact H.
  - left. reflexivity.
  - reflexivity.
Defined.

(** The listing of the three records. *)
Lemma listing_witness :
  exists results,
    getAllAuthUsers env corsHeaders (initial provider start three_records)
    = (Ok {| status := 200; headers := json_headers corsHeaders;
             body := JsonUsers results |},
       log (Queried SelectAllUsers) (initial provider start three_records))
    /\ Permutation results (rows three_records)
    /\ ascending (map discord_username results) = true.
Proof.
  eapply (listing_is_complete_and_ordered env corsHeaders
           (initial provider start three_records)).
  intros r Hr. vm_compute in Hr.
  repeat (destruct Hr as [<-|Hr]; [reflexivity|]). contradiction.
Defined.

(** U3 expires in two hours: the sweep at [start] passes it by. *)
Lemma sweep_leaves_later_records_witness :
  let st := initial provider start three_records in
  In (record 3 "U3" "RT3" (start + 7200000))
    (rows (users (snd (refreshAuthTokens env corsHeaders st)))).
Proof.
  cbv zeta.
  eapply (sweep_leaves_later_records_untouched env corsHeaders
           (initial provider start three_records) _ _
           (record 3 "U3" "RT3" (start + 7200000)) (start + 7200000)).
  - reflexivity.
  - apply surjective_pairing.
  - vm_compute. in_list.
  - reflexivity.
  - vm_compute. split; [discriminate | reflexivity].
  - vm_compute. split; [discriminate | reflexivity].
  - vm_compute. reflexivity.
Defined.

(** With U3 alone in the table the sweep has nothing to do. *)
Lemma sweep_with_nothing_expiring_witness :
  let st := initial provider start later_only in
  refreshAuthTokens env corsHeaders st
  = (Ok {| status := 200; headers := json_headers corsHeaders;
           body := JsonRefresh [] [] |},
     @Build_State (scripted provider) (start + 2) later_only
       [Queried SelectExpiring; Now (start + 1); Now start]).
Proof.
  cbv zeta.
  eapply (sweep_with_nothing_expiring env corsHeaders (initial provider start later_only)).
  - vm_compute. discriminate.
  - vm_compute. reflexivity.
Defined.

(** U1 is refreshed by the sweep at [start], and stored as reported. *)
Lemma refreshed_report_witness :
  let st := initial provider start three_records in
  let item := {| refreshed_discord_id := str "U1"; character_name := str "Pilot";
                 corporation := str "G"; alliance := JNull |} in
  exists row,
    In row (rows (users (snd (refreshAuthTokens env corsHeaders st))))
    /\ reported_in (iso_string (fst (date_now (world st)))) item row.
Proof.
  cbv zeta.
  eapply (refreshed_report_matches_the_store env corsHeaders
            (initial provider start three_records)).
  - reflexivity.
  - apply run_ok. vm_compute. reflexivity.
  - reflexivity.
  - left. reflexivity.
Defined.

(** A reminder with an empty message is refused. *)
Lemma reminder_without_required_field_witness :
  Reminders.createReminder silent_reminder_request env corsHeaders
    (store start two_reminders)
  = (Ok {| status := 400; headers := json_headers corsHeaders;
           body := JsonError (lit "Missing required fields") |},
     store start two_reminders).
Proof.
  eapply (reminder_without_required_field_is_refused silent_reminder_request env
            corsHeaders (store start two_reminders) _ (lit "message")).
  - reflexivity.
  - discriminate.
  - discriminate.
  - in_list.
  - reflexivity.
Defined.

(** A reminder created at [start] over the two reminders takes rowid 6. *)
Lemma created_reminder_is_stored_witness :
  Reminders.createReminder reminder_request env corsHeaders (store start two_reminders)
  = (Ok {| status := 201; headers := json_headers corsHeaders;
           body := JsonOther (JObj [(lit "message", JStr (lit "Reminder created"));
                                    (lit "id", JNum 6)]) |},
     store (start + 1)
       {| Reminders.rows :=
            Reminders.rows two_reminders
            ++ [{| Reminders.id := 6;
                   Reminders.guild_id := SInt 10;
                   Reminders.channel_id := SInt 20;
                   Reminders.user_id := SInt 7;
                   Reminders.reminder_time := SText (lit "2023-11-15T08:00:00.000Z");
                   Reminders.message := SText (lit "fleet op");
                   Reminders.created_at := SText (iso_string start) |}];
          Reminders.last_rowid := 6 |}).
Proof.
  eapply (created_reminder_is_stored reminder_request env corsHeaders
            (store start two_reminders) _ 10 20 7 (lit "2023-11-15T08:00:00.000Z")
            (lit "fleet op"));
    try reflexivity; try discriminate; vm_compute; discriminate.
Defined.

(** The listings of user 7 and of guild 7 over the two reminders. *)
Lemma reminder_listings_witness :
  (exists results,
     Reminders.getUserReminders (JStr (num_to_string 7)) env corsHeaders
       (store start two_reminders)
     = (Ok (Reminders.listing corsHeaders (map Reminders.summary results)),
        store start two_reminders)
     /\ Permutation results
          (filter (fun r => sql_eqb (Reminders.user_id r) (SInt 7))
             (Reminders.rows two_reminders))
     /\ ascending (map Reminders.reminder_time results) = true)
  /\ (exists results,
        Reminders.getGuildReminders (JStr (num_to_string 7)) env corsHeaders
          (store start two_reminders)
        = (Ok (Reminders.listing corsHeaders (map Reminders.to_json results)),
           store start two_reminders)
        /\ Permutation results
             (filter (fun r => sql_eqb (Reminders.guild_id r) (SInt 7))
                (Reminders.rows two_reminders))
        /\ ascending (map Reminders.reminder_time results) = true).
Proof.
  eapply (reminder_listings_are_complete_and_ordered env corsHeaders
           (store start two_reminders) 7).
  intros r Hr. vm_compute in Hr.
  repeat (destruct Hr as [<-|Hr]; [reflexivity|]). contradiction.
Defined.

(** The reminder created at [start] for user 7 is in the listing of 7. *)
Lemma created_reminder_is_listed_witness :
  let st' := snd (Reminders.createReminder reminder_request env corsHeaders
                    (store start two_reminders)) in
  exists new items,
    JsonOther (JObj [(lit "message", JStr (lit "Reminder created")); (lit "id", JNum 6)])
    = JsonOther (JObj [(lit "message", JStr (lit "Reminder created"));
                       (lit "id", JNum (Reminders.id new))])
    /\ In new (Reminders.rows (Reminders.reminders st'))
    /\ Reminders.getUserReminders (JStr (num_to_string 7)) env corsHeaders st'
       = (Ok (Reminders.listing corsHeaders items), st')
    /\ In (Reminders.summary new) items.
Proof.
  cbv zeta.
  eapply (created_reminder_is_listed_for_its_user reminder_request env corsHeaders
            (store start two_reminders) _
            {| status := 201; headers := json_headers corsHeaders;
               body := JsonOther (JObj [(lit "message", JStr (lit "Reminder created"));
                                        (lit "id", JNum 6)]) |} _ 7).
  - reflexivity.
  - reflexivity.
  - apply run_ok. vm_compute. reflexivity.
  - reflexivity.
Defined.

(** At [start] reminder 2 is due and reminder 5 is not. *)
Lemma due_reminders_witness :
  exists results,
    Reminders.getDueReminders env corsHeaders (store start two_reminders)
    = (Ok (Reminders.listing corsHeaders (map Reminders.to_json results)),
       store (start + 1) two_reminders)
    /\ Permutation results
         (filter (fun x => sql_leb (Reminders.reminder_time x) (SText (iso_string start)))
            (Reminders.rows two_reminders))
    /\ (In (reminder 5 (start + day) "new" (start - day)) results
        <-> In (reminder 5 (start + day) "new" (start - day))
              (Reminders.rows two_reminders)
            /\ start + day <= start).
Proof.
  eapply (due_reminders_are_those_not_after_the_clock env corsHeaders
           (store start two_reminders)
           (reminder 5 (start + day) "new" (start - day)) (start + day)).
  - vm_compute. split; [discriminate | reflexivity].
  - vm_compute. split; [discriminate | reflexivity].
  - reflexivity.
Defined.

(** At [start] the cleanup removes reminder 2, created 50 days before,
    and keeps reminder 5. *)
Lemma cleanup_witness :
  let kept := filter (fun x => negb (Reminders.older
                                       (SText (iso_string (start - 45 * msPerDay))) x))
                (Reminders.rows two_reminders) in
  Reminders.cleanupOldReminders env corsHeaders (store start two_reminders)
  = (Ok {| status := 200; headers := json_headers corsHeaders;
           body := JsonOther
                     (JObj [(lit "message", JStr (lit "Old reminders cleaned up"));
                            (lit "deleted",
                             JNum (Z.of_nat
                                     (length
                                        (filter
                                           (Reminders.older
                                              (SText (iso_string (start - 45 * msPerDay))))
                                           (Reminders.rows two_reminders)))))]) |},
     store (start + 1)
       {| Reminders.rows := kept; Reminders.last_rowid := 5 |})
  /\ (In (reminder 2 (start - 3600000) "old" (start - 50 * day)) kept
      <-> start - 45 * msPerDay < start - 50 * day).
Proof.
  eapply (cleanup_removes_reminders_older_than_45_days env corsHeaders
           (store start two_reminders)
           (reminder 2 (start - 3600000) "old" (start - 50 * day)) (start - 50 * day)).
  - vm_compute. split; [discriminate | reflexivity].
  - vm_compute. split; [discriminate | reflexivity].
  - reflexivity.
  - left. reflexivity.
Defined.

(** Reminder 5, the last, is deleted, the table is cleaned up, and the
    reminder created then takes rowid 6, not 5 again. *)
Lemma reminder_ids_witness :
  let st := store start two_reminders in
  let st1 := calls env [Delete (str "5"); Cleanup; Due] st in
  let st' := snd (Reminders.createReminder reminder_request env corsHeaders st1) in
  consistent (Reminders.reminders st1) = true
  /\ consistent (Reminders.reminders st') = true
  /\ exists new,
       JsonOther (JObj [(lit "message", JStr (lit "Reminder created"));
                        (lit "id", JNum 6)])
       = JsonOther (JObj [(lit "message", JStr (lit "Reminder created"));
                          (lit "id", JNum (Reminders.id new))])
       /\ In new (Reminders.rows (Reminders.reminders st'))
       /\ (forall r, In r (Reminders.rows (Reminders.reminders st)) ->
                     Reminders.id r < Reminders.id new)
       /\ (forall r, In r (Reminders.rows (Reminders.reminders st1)) ->
                     Reminders.id r < Reminders.id new).
Proof.
  cbv zeta.
  eapply (reminder_ids_are_never_reused env [Delete (str "5"); Cleanup; Due]
            (store start two_reminders) _ reminder_request
            {| status := 201; headers := json_headers corsHeaders;
               body := JsonOther (JObj [(lit "message", JStr (lit "Reminder created"));
                                        (lit "id", JNum 6)]) |}).
  - reflexivity.
  - apply run_ok. vm_compute. reflexivity.
  - reflexivity.
Defined.

End FurtherWitnesses.
